(* ===== verification/_CoqProject ===== *)
-Q . S2P
Prelude.v
Schema.v
Mapping.v
MappingFacts.v
AnswerIds.v
Scenarios.v
Invariants.v
Behaviour.v
Counts.v
Findings.v
GameStatus.v
Js.v
Leaderboard.v
LeaderboardRace.v
Client.v
Screen.v
Audio.v
GameUI.v
Auth.v
Config.v
Legacy.v
Timers.v
Pending.v
Races.v
