(* ===== verification/Prelude.v ===== *)
(** * Carmen Sandiego on-chain trivia: a verification development

    The repository is a trivia game. A smart contract (not part of the
    repository) emits one event per game step. A subgraph indexes those events
    into leaderboard statistics. A React frontend plays the game and shows
    the leaderboard. This development models the program's logic in Rocq and
    proves what makes it correct. It also proves where the code departs from
    its specification.

    ** The parts of the program and how they interact

    - Subgraph mapping, [src/subgraph/src/mapping.ts].  It folds a stream of
      contract events into entity records held in graph-node's store. There
      are four events ([GameStarted], [AnswerSubmitted], [GameCompleted],
      [CarmenEscaped]) and six entity types ([Player], [Game], [Answer],
      [GlobalStats], [DailyStats], [QuestionStats]). Each handler loads
      entities by string id, updates fields, and saves them. A handler that
      traps (an i32 overflow or an array index out of range) fails the
      indexing, and none of its writes reach the store.
    - Frontend game screen, [src/frontend/src/components/CarmenGame.jsx].
      It keeps a local copy of the game state ([gameState]) and changes it in
      [startNewGame], [submitAnswer], [resetGame], [forceCompleteReset] and
      [loadGameState], after the contract call returns. The render function
      picks a view from that state.
    - Contract helpers, [src/frontend/src/contracts/CarmenGame.js]. They
      pick 10 question ids at random out of 30 ([selectRandomQuestions]) and
      fetch the question set from a list of IPFS gateways in order
      ([fetchQuestions]). The contract ABI there gives the event fields.
    - Leaderboard, [src/frontend/src/components/Leaderboard.jsx]. It queries
      the subgraph's [Player] entities and formats them for display.
    - Sign-in panel, [src/frontend/src/components/Auth.jsx]. It shows
      Privy's login state; [CarmenGame.jsx] embeds it on its pages.
    - Configuration: the Privy providers
      ([src/frontend/src/providers/PrivyProvider.jsx] and
      [PrivyProvider 2.jsx]) and the deployment script
      [src/scripts/deploy.js], which deploys the contract with the hash of
      the questions on IPFS.
    - An older game screen, [src/frontend/src/components/CarmenGame 2.jsx],
      that nothing imports. It connects the injected wallet through
      [CarmenGame.js] instead of Privy.

    ** Files (in dependency order)

    - [Prelude] (this file): the [Handler] monad (state plus abort) that the
      mapping runs in, its notation scope [carmen_scope], the tactics, the
      hint databases [carmen] and [carmen_rw], and shared lemmas on [Z],
      lists and stdpp maps.
    - [Schema]: the entity records, the event records of the ABI and the
      store. The store interface is a class: [Entity] gives [load]/[save] by
      string id, like graph-ts's generated entity classes, and [EntityLaws]
      gives their laws. The two AssemblyScript primitives that can trap,
      [toI32] and array indexing, are here too.
    - [Mapping]: one definition per function of [mapping.ts], composed as
      the source composes them. [handleEvent] dispatches an event and
      [replay] folds an event log.
    - [MappingFacts]: the effect of each handler, table by table, and the
      frame lemmas that the later files share.
    - [AnswerIds]: the ids of [Answer] entities decode back to their game
      and question (C39), so two answers never share an id.
    - [Scenarios]: concrete event logs from the spec's scenarios, and the
      stores they produce.
    - [Invariants]: the store invariant, and that every handler preserves it.
      The invariant says ids match keys, the counters agree, streaks are
      ordered, and every game's player and the global record exist. Every
      store that [replay] reaches satisfies it (C1, C2, C13). The fields
      the source never updates keep their initial values
      ([replay_unmaintained_fields]).
    - [Behaviour]: the functional behaviour of each handler on each branch.
      This covers wins, losses, game start, answers and the unknown-game
      no-op. A handler succeeds exactly when its inputs are in range
      (C3-C8).
    - [Counts]: the refinement theorem. [gamesPlayed] and [totalGames]
      equal counts of [GameStarted] events in the log (C9).
    - [Findings]: where the mapping departs from the spec. [winRate] and
      [globalWinRate] go stale (C10, C11). On every reachable store a
      [GameCompleted] for a game already finished counts one more win,
      so wins and losses can exceed the games played (C12).
    - [GameStatus]: the spec's per-game state machine
      ([spec_status_step]) and the refinement: on every reachable store,
      [handleEvent] moves the status of the event's game along it and no
      other game's status, except for a start of a stored id or a
      transition of a terminal game (C14). A late [GameCompleted] turns a
      lost game into a won one ([terminal_status_overwritten]).
    - [Js]: the JavaScript runtime of the frontend. [Js S A] is a state and
      exception monad with [try_catch] and [try_finally]. [JsNum] holds
      [NaN]. [preserves] and the tactic [preserve] carry an invariant
      through a handler's structure. [replace_all] is
      [String.prototype.replace] with a global pattern; its loop runs on
      fuel, any fuel above the string's length is enough
      ([replace_all_total]), and [replace_all] satisfies the equations of a
      left-to-right scan that replaces matches without overlap (C38).
    - [Leaderboard]: the GraphQL query of [Leaderboard.jsx], run on the
      subgraph's store; [fetchLeaderboard]; the row helpers and the render.
      The query returns a top selection of the players with at least 3
      games (C27). The render reads the error as JavaScript does: an
      empty message shows the list. Its order can be wrong
      because [winRate] is stale ([leaderboard_ranks_by_stale_winRate]).
      [fetchLeaderboard] handles every outcome and ignores the timeframe
      (C28).
    - [LeaderboardRace]: the screen over time. [fetchLeaderboard] is split
      at its [await] into [fetch_start] and [fetch_finish]; the mount
      effect, the Retry and timeframe buttons and the arrival of a
      response are events of [lhandle]. At most one request is ever in
      flight, and the spinner shows exactly while one is (C32). The split
      screen refines the one where a fetch is a single step (C35).
    - [Client]: [CarmenGame.js], in Modules [Abi], [Ipfs], [Wallet] and
      [Selection]. It holds the ABI and ethers v6's rule for resolving
      [contract.f(args)]; [fetchQuestions], its gateway order, its
      fallback and its final error message (C16);
      [connectWallet] (C17); and [selectRandomQuestions] with [Math.random]
      as an input stream (C15).
    - [Screen]: the [useState] and [useRef] state of [CarmenGame.jsx], with
      its setters and the browser's pending timers and played tones.
    - [Audio]: the Web Audio code. Each closure takes the [musicEnabled] of
      the render that created it. The music loop plays the melody in a
      cycle (C18). Turning sound on never plays anything (C19).
    - [GameUI]: the game handlers, the view the render selects, and [step],
      the relation of mount effects, login, enabled clicks and timers. The
      results screen is unreachable (C20). With the client's ABI, no answer
      is ever sent (C21) and reset throws (C22). The answer and start
      handlers are functionally correct (C23, C24). A restored game has a
      [NaN] score (C25) and can be unplayable (C26).
    - [Auth]: the panel of [Auth.jsx], its avatar and label computed with
      optional chaining, for every shape of the user (C29), and the panel
      as [CarmenGame] embeds it ([auth_panel_matches_page]). The wallet
      label is the leaderboard's [formatAddress] ([auth_display_wallet]).
    - [Config]: Modules [PrivyProvider], [PrivyProvider2] and [Deploy]. The
      deployment script on every outcome of its Hardhat calls (C33). The
      default hashes of the script and the frontend differ
      ([deploy_default_hash_differs]). Only the
      first provider configures the wallet client's chain
      ([privy_providers_contract_chain]).
    - [Legacy]: Module [Legacy], the whole of [CarmenGame 2.jsx]: its state,
      handlers, render and step relation. A wrong answer on any active
      game shows its results screen (C36), questions served as an array crash its render
      ([legacy_array_questions_crash]), and its music button never starts
      the music ([legacy_toggleMusic_no_music]). Its timer table is well
      formed in every reachable world, which discharges the hypothesis of
      the latter there. [startBackgroundMusic], which nothing calls, is modelled
      with its melody loop: one loop plays the twelve notes that are not
      rests and schedules the next after 8000 ms
      ([playMelodyLoop_loop]).
    - [Timers]: the table of pending timers of the game screen is well
      formed in every world [GameUI.step] reaches
      ([reachable_timers_wf]): distinct ids, all below the next one. That
      is the hypothesis of the music theorems of [Audio].
    - [Pending]: [submitAnswer] and [startNewGame] split at their first
      [await] into a start and a resumption, which together are the
      handler ([submitAnswer_split], [startNewGame_split]). The sound
      button is never disabled, so it can be clicked in between. Turning
      the sound off then does not silence the answer's beep (C34), and
      does not keep a new game's music from starting (C30).
    - [Races]: [initializeContract] split the same way, and [cstep], the
      screen where effects, clicks, timers and the resumption of any
      waiting handler ([Job]) happen in any order. The split handlers
      equal the whole ones ([initializeContract_split] and the lemmas of
      [Pending]). The effect on [[authenticated, wallets]] can start
      [initializeContract] twice. Wherever "Start" is offered while a run
      waits, its [finally] clears the [loading] of a pending
      [startNewGame] and "Start" can be clicked twice (C37). Two
      resumed [startNewGame] runs start two music loops, and
      [stopBackgroundMusic] cancels only one (C31).

    ** How the parts interact in the model

    [Leaderboard.players_query] reads the [Store] that [Mapping.replay]
    builds, so the leaderboard theorems hold of every indexed log. The game
    screen calls the contract through [Client.Abi.dispatch], with the ABI
    as a Section variable. The ABI failures are stated for [CONTRACT_ABI].
    The screen invariants hold for every ABI, so they also hold once the
    client is fixed. The contract itself is not in the repository. Its
    answers (transactions, [hasActiveGame], [getGameState]) are inputs of
    each handler run, the record [GameUI.Chain]. [Legacy] reuses
    [Chain], [call] and [game_area], and calls [Client]'s [connectWallet],
    [getContract], [fetchQuestions] and [selectRandomQuestions] as its
    source does. [Auth.auth_panel] is [Auth] composed with
    [GameUI.render]. [Config] compares the chains and hashes of the
    configuration with those [Client] uses.

    ** Modelling choices

    - BigInt is [Z]. BigDecimal is [Q], exact: graph-node rounds a division
      to 34 significant digits, and the model does not.
    - Entity ids are the strings the source builds. [BigInt.toString] is
      stdpp's [pretty] on [Z]. An address is represented by its lower-case
      hex string, so [Bytes.toHex] is the identity on it.
    - [BigInt.toI32] traps outside the i32 range. An AssemblyScript array
      read traps outside the array. A trap makes the handler return [None],
      and the event's writes are dropped (graph-node halts indexing there).
    - [save] replaces the whole entity under its id. Fields the source never
      assigns ([Game.endTime] while the game is active) are [option]s.
      graph-node merges a saved entity into the stored one, field by
      field. The two agree on every save of the mapping but one: a
      [GameStarted] whose id is already stored. [new Game(id)] leaves
      [endTime] and [duration] unset, and graph-node keeps the old
      values where the model stores [None]; the second conjunct of C5
      ([endTime = None]) is exact for ids not yet stored.
    - In [GameUI.step] a React handler runs from the state of the click
      to its end, with the outcomes of its awaits as inputs. The game
      buttons are disabled while [loading], but [loading] is not a lock:
      the sound buttons ignore it ([Pending]), and so does the effect on
      [[authenticated, wallets]] ([Races]). [Races.cstep] suspends
      [initializeContract], [startNewGame] and [submitAnswer] at their
      first [await] and resumes them in any order; the awaits after the
      first run together with it. [resetGame] stays atomic: with the
      client's ABI it throws before any [await] (C22). The leaderboard's
      fetch is split at its await ([LeaderboardRace]), and C35 shows
      that the atomic view of it loses nothing there.
    - A closure reads the state of the render that created it ([snap] in
      [GameUI], [me] in [Audio]). A functional update [setX(prev => ...)]
      reads the current state. An un-awaited async call runs to its end,
      and its rejection is dropped ([Js.detach]).
    - React renders when a handler awaits. [Legacy]'s crash is
      stated on the state at the first await of the handlers that set
      [loading].
    - A name that is not bound where a function is defined throws a
      [ReferenceError] when the function reads it ([Legacy]).
    - Strings are ASCII in [Auth]: [s[0]] is the first character and
      [toUpperCase] changes [a]-[z] only.
    - One definition takes fuel: [Js.replace_go], the loop of
      [replace(/MetaMask/g, ...)]. [replace_all] gives it the length of
      the string plus one, which [replace_all_total] proves enough. [replay],
      [select_loop] and the music loop [music_steps] recurse on their list
      or count, and the theorems on them hold for every length.

    ** Not modelled

    - The styles and the static markup of the screens.
    - The start times of the oscillators: a tone is recorded in the order
      it is started, with its frequency, duration, wave and gain.
    - What Privy and wagmi do with their configuration, and Privy's
      [login] and [logout]; their effect on the screen is
      [GameUI.step_login] and [step_logout].
    - The contract's own logic, which is not in the repository.
    - The details ethers appends to an error's message (operation,
      arguments, code, version): the model keeps its [shortMessage]
      ([Client.Abi.dispatch]).

    ** Further work

    - State the contract protocol the events follow (spec-modelled) and
      prove the aggregate counters on every log it can emit.
    - Split the handlers of [Races] at every [await], not only the first,
      and prove what the contract must reject for the screen to stay
      consistent (a second [startGame] while a game is active). *)

From stdpp Require Export base gmap list strings pretty.
From Stdlib Require Export ZArith QArith Lia.
Close Scope Q_scope.
Open Scope Z_scope.

Declare Scope carmen_scope.
Delimit Scope carmen_scope with carmen.

(** ** The handler monad: explicit state with abort *)

Definition Handler (S A : Type) : Type := S -> option (A * S).

#[export] Instance handler_ret {S} : MRet (Handler S) :=
  fun A a s => Some (a, s).
#[export] Instance handler_bind {S} : MBind (Handler S) :=
  fun A B k m s => match m s with Some (a, s') => k a s' | None => None end.

Definition abort {S A} : Handler S A := fun _ => None.
Definition exec {S A} (c : Handler S A) (s : S) : option S :=
  match c s with Some (_, s') => Some s' | None => None end.

(** [s =[ c ]=> s'] : running [c] from [s] succeeds and ends in [s']. *)
Notation "s =[ c ]=> s'" := (exec c s = Some s')
  (at level 70, c at level 200, format "s  =[  c  ]=>  s'") : carmen_scope.
Open Scope carmen_scope.

Create HintDb carmen discriminated.
Create Rewrite HintDb carmen_rw.

(** Unfold the monad's plumbing so that a handler run computes. *)
Ltac hunfold :=
  unfold exec, mbind, mret, handler_bind, handler_ret, abort in *.

(** ** Shared lemmas *)

Lemma exec_ret {S A} (a : A) (s : S) : exec (mret a) s = Some s.
Proof. reflexivity. Qed.

Lemma exec_bind {S A B} (m : Handler S A) (k : A -> Handler S B) s :
  exec (m ≫= k) s = match m s with Some (a, s') => exec (k a) s' | None => None end.
Proof. hunfold. by destruct (m s) as [[??]|]. Qed.

Lemma exec_abort {S A} (s : S) : exec (@abort S A) s = None.
Proof. reflexivity. Qed.

#[export] Hint Rewrite @exec_ret @exec_abort : carmen_rw.

(** The source's "raise to the new value if greater" is [Z.max]. *)
Lemma gtb_select_max (a b : Z) : (if a >? b then a else b) = Z.max a b.
Proof. destruct (Z.gtb_spec a b); lia. Qed.

Lemma gtb_select_ge (a b : Z) : b <= (if a >? b then a else b).
Proof. rewrite gtb_select_max. lia. Qed.

Lemma gtb_pos (x : Z) : 0 < x -> (x >? 0) = true.
Proof. intros Hx. apply Z.gtb_lt. lia. Qed.

#[export] Hint Rewrite gtb_select_max : carmen_rw.
#[export] Hint Resolve gtb_select_ge : carmen.

(** A map property survives an insert that satisfies it. *)
Lemma map_Forall_insert_keep {K V} `{Countable K} (P : K -> V -> Prop)
    (m : gmap K V) k v :
  map_Forall P m -> P k v -> map_Forall P (<[k:=v]> m).
Proof. intros Hm Hkv. by apply map_Forall_insert_2. Qed.

#[export] Hint Resolve map_Forall_insert_keep : carmen.

(** Counting the elements of a list that satisfy a boolean test. *)
Definition countb {A} (f : A -> bool) (l : list A) : Z :=
  Z.of_nat (length (filter (fun x => f x = true) l)).

Lemma countb_nil {A} (f : A -> bool) : countb f [] = 0.
Proof. reflexivity. Qed.

Lemma countb_app {A} (f : A -> bool) l1 l2 :
  countb f (l1 ++ l2) = countb f l1 + countb f l2.
Proof. unfold countb. rewrite filter_app, length_app. lia. Qed.

Lemma countb_cons {A} (f : A -> bool) x l :
  countb f (x :: l) = (if f x then 1 else 0) + countb f l.
Proof.
  unfold countb. rewrite filter_cons.
  destruct (f x); case_decide; simpl; try congruence; lia.
Qed.

Lemma countb_nonneg {A} (f : A -> bool) l : 0 <= countb f l.
Proof. unfold countb. lia. Qed.

#[export] Hint Rewrite @countb_nil @countb_app @countb_cons : carmen_rw.

(** [s.slice(0, n)] of a string no longer than [n] is the string. *)
Lemma substring_0_long (s : string) (n : nat) :
  (String.length s <= n)%nat -> String.substring 0 n s = s.
Proof.
  revert n. induction s as [|c s IH]; intros [|n] Hn; cbn in *; [done | done | lia |].
  f_equal. apply IH. lia.
Qed.

(** [s.slice(n, n + m)] has at most [m] characters. *)
Lemma substring_length_le (s : string) (n m : nat) :
  (String.length (String.substring n m s) <= m)%nat.
Proof.
  revert n m. induction s as [|c s IH]; intros [|n] [|m]; cbn; try lia.
  - specialize (IH 0%nat m). lia.
  - apply IH.
  - apply IH.
Qed.

(** [+] on strings is associative and has [""] as unit. *)
Lemma string_app_assoc (a b c : string) : (a +:+ b) +:+ c = a +:+ (b +:+ c).
Proof.
  induction a as [|x a IH]; [done |].
  change (String x ((a +:+ b) +:+ c) = String x (a +:+ (b +:+ c))). by rewrite IH.
Qed.

Lemma string_app_nil_r (s : string) : s +:+ "" = s.
Proof.
  induction s as [|x s IH]; [done |].
  change (String x (s +:+ "") = String x s). by rewrite IH.
Qed.

(** A filter that keeps every element is the identity. *)
Lemma filter_keep_all {A} (P : A -> Prop) `{!forall x, Decision (P x)} (l : list A) :
  Forall P l -> filter P l = l.
Proof.
  induction 1 as [|x l Hx _ IH]; [done |]. rewrite filter_cons, decide_True by done.
  by rewrite IH.
Qed.

(** The last element of a list, whose key no other element has, is the
    one a search by that key finds, and the only one a filter on the key
    removes: a pending timer scheduled last, fired or cleared by id. *)
Lemma find_last_fresh {A} (key : A -> nat) (ts : list A) (x : A) :
  Forall (fun t => key t ≠ key x) ts ->
  list_find (fun t => key t = key x) (ts ++ [x]) = Some (length ts, x) /\
  filter (fun t => key t ≠ key x) (ts ++ [x]) = ts.
Proof.
  intros Hts. split.
  - rewrite list_find_app_r by (apply list_find_None; done). cbn.
    rewrite decide_True by done. done.
  - rewrite filter_app, filter_keep_all by done. cbn.
    rewrite decide_False; [by rewrite app_nil_r | by intros []].
Qed.

(** A property kept by every step holds of everything reachable. *)
Lemma rtc_invariant {A} (R : relation A) (P : A -> Prop) x y :
  (forall a b, R a b -> P a -> P b) -> P x -> rtc R x y -> P y.
Proof. intros Hstep Hx Hr. induction Hr as [|a b c Hab _ IH]; [done |]. apply IH, (Hstep a b Hab Hx). Qed.

(** Filtering a list keeps the keys of its elements distinct. *)
Lemma NoDup_fmap_filter {A B} (f : A -> B) (P : A -> Prop) `{!forall x, Decision (P x)} (l : list A) :
  NoDup (f <$> l) -> NoDup (f <$> filter P l).
Proof.
  induction l as [|x l IH]; [done |]. rewrite fmap_cons, NoDup_cons. intros [Hx Hl].
  rewrite filter_cons. case_decide; [| by apply IH].
  rewrite fmap_cons, NoDup_cons. split; [| by apply IH].
  intros Hin. apply Hx. apply list_elem_of_fmap in Hin as (y & -> & Hy).
  apply list_elem_of_fmap. exists y. split; [done |]. by apply list_elem_of_filter in Hy as [_ ?].
Qed.

(** A table of pending timers: every key below the next one, no two
    alike. Scheduling under the next key and clearing by a filter keep
    it so. *)
Definition fresh_keys {A} (key : A -> nat) (next : nat) (ts : list A) : Prop :=
  Forall (fun t => (key t < next)%nat) ts /\ NoDup (key <$> ts).

Lemma fresh_keys_snoc {A} (key : A -> nat) (next : nat) (ts : list A) (x : A) :
  key x = next -> fresh_keys key next ts -> fresh_keys key (S next) (ts ++ [x]).
Proof.
  intros Hx [Hf Hnd]. split.
  - apply Forall_app; split; [eapply Forall_impl; [exact Hf | cbn; lia] | constructor; [lia | constructor]].
  - rewrite fmap_app. apply NoDup_app. split; [done | split; [| apply NoDup_singleton]].
    intros k Hk Hin. apply list_elem_of_singleton in Hin as ->.
    apply list_elem_of_fmap in Hk as (t & Heq & Ht).
    eapply Forall_forall in Hf; [| exact Ht]. lia.
Qed.

Lemma fresh_keys_filter {A} (key : A -> nat) (next : nat) (P : A -> Prop)
    `{!forall x, Decision (P x)} (ts : list A) :
  fresh_keys key next ts -> fresh_keys key next (filter P ts).
Proof.
  intros [Hf Hnd]. split; [| by apply NoDup_fmap_filter].
  apply Forall_forall. intros x Hx. apply list_elem_of_filter in Hx as [_ Hx].
  by eapply Forall_forall in Hf.
Qed.
