(* ===== verification/Schema.v ===== *)
(** * Schema: entities, events and the entity store of the subgraph

    The records of the six entity types, with the fields that
    [mapping.ts] assigns. Each is in a Module named after the entity, so
    that fields read as in the source ([Player.gamesPlayed p]).

    The four contract events, with the parameters of the ABI in
    [src/frontend/src/contracts/CarmenGame.js].

    The store: one table per entity type, keyed by the entity id string.
    The class [Entity] is the interface of graph-ts's generated entity
    classes: [load] by id and [save] under the entity's own id.
    [EntityLaws] gives the laws the mapping's proofs rely on.

    The two AssemblyScript primitives that can trap are [toI32] and
    [array_get]. *)

From S2P Require Import Prelude.

(** ** Entities *)

Inductive GameStatus := ACTIVE | COMPLETED_WIN | COMPLETED_LOSS.

#[export] Instance GameStatus_eq_dec : EqDecision GameStatus.
Proof. solve_decision. Defined.

Module Player.
Record t := mk {
  id : string;
  address : string;
  gamesPlayed : Z;
  gamesWon : Z;
  gamesLost : Z;
  winRate : Q;
  totalScore : Z;
  averageScore : Q;
  bestScore : Z;
  longestWinStreak : Z;
  currentWinStreak : Z;
  firstGameAt : Z;
  lastGameAt : Z
}.
End Player.

Module Game.
Record t := mk {
  id : string;
  gameId : Z;
  player : string;
  questionIds : list Z;
  status : GameStatus;
  score : Z;
  carmenCaught : bool;
  startTime : Z;
  endTime : option Z;
  duration : option Z;
  totalAnswers : Z;
  correctAnswers : Z;
  wrongAnswers : Z
}.
End Game.

Module Answer.
Record t := mk {
  id : string;
  game : string;
  questionIndex : Z;
  questionId : Z;
  playerAnswer : Z;
  isCorrect : bool;
  timestamp : Z;
  timeFromStart : Z
}.
End Answer.

Module GlobalStats.
Record t := mk {
  id : string;
  totalGames : Z;
  totalPlayers : Z;
  totalCarmenCaught : Z;
  totalCarmenEscaped : Z;
  globalWinRate : Q;
  lastUpdated : Z
}.
End GlobalStats.

Module DailyStats.
Record t := mk {
  id : string;
  date : string;
  gamesPlayed : Z;
  gamesWon : Z;
  gamesLost : Z;
  uniquePlayers : Z;
  totalScore : Z;
  averageScore : Q
}.
End DailyStats.

Module QuestionStats.
Record t := mk {
  id : string;
  questionId : Z;
  timesAsked : Z;
  timesAnsweredCorrectly : Z;
  timesAnsweredWrong : Z;
  correctRate : Q;
  averageAnswerTime : Q
}.
End QuestionStats.

(** ** Events (the ABI's event parameters) *)

Module GameStarted.
Record t := mk { player : string; gameId : Z; questionIds : list Z; timestamp : Z }.
End GameStarted.

Module AnswerSubmitted.
Record t := mk {
  player : string; gameId : Z; questionIndex : Z; answer : Z; correct : bool;
  timestamp : Z
}.
End AnswerSubmitted.

Module GameCompleted.
Record t := mk {
  player : string; gameId : Z; carmenCaught : bool; score : Z; timestamp : Z
}.
End GameCompleted.

Module CarmenEscaped.
Record t := mk { player : string; gameId : Z; finalScore : Z; timestamp : Z }.
End CarmenEscaped.

Inductive Event :=
  | EvGameStarted (e : GameStarted.t)
  | EvAnswerSubmitted (e : AnswerSubmitted.t)
  | EvGameCompleted (e : GameCompleted.t)
  | EvCarmenEscaped (e : CarmenEscaped.t).

(** ** The store and its interface *)

Record Store := mkStore {
  players : gmap string Player.t;
  games : gmap string Game.t;
  answers : gmap string Answer.t;
  globals : gmap string GlobalStats.t;
  dailies : gmap string DailyStats.t;
  qstats : gmap string QuestionStats.t
}.

Definition empty_store : Store := mkStore ∅ ∅ ∅ ∅ ∅ ∅.

Abbreviation M := (Handler Store).

(** What a generated entity class offers the mapping: its id, and the
    table of the store that holds its instances. *)
Class Entity (E : Type) := {
  entity_id : E -> string;
  table : Store -> gmap string E;
  set_table : gmap string E -> Store -> Store
}.

Definition load {E} `{Entity E} (id : string) : M (option E) :=
  fun s => Some (table s !! id, s).

Definition save {E} `{Entity E} (e : E) : M unit :=
  fun s => Some (tt, set_table (<[entity_id e := e]> (table s)) s).

(** The laws of the interface: a table reads back what was written. *)
Class EntityLaws (E : Type) `{Entity E} := {
  table_set_table m s : table (set_table m s) = m
}.

#[export] Instance Player_entity : Entity Player.t := {
  entity_id := Player.id;
  table := players;
  set_table m s := mkStore m (games s) (answers s) (globals s) (dailies s) (qstats s)
}.
#[export] Instance Game_entity : Entity Game.t := {
  entity_id := Game.id;
  table := games;
  set_table m s := mkStore (players s) m (answers s) (globals s) (dailies s) (qstats s)
}.
#[export] Instance Answer_entity : Entity Answer.t := {
  entity_id := Answer.id;
  table := answers;
  set_table m s := mkStore (players s) (games s) m (globals s) (dailies s) (qstats s)
}.
#[export] Instance GlobalStats_entity : Entity GlobalStats.t := {
  entity_id := GlobalStats.id;
  table := globals;
  set_table m s := mkStore (players s) (games s) (answers s) m (dailies s) (qstats s)
}.
#[export] Instance DailyStats_entity : Entity DailyStats.t := {
  entity_id := DailyStats.id;
  table := dailies;
  set_table m s := mkStore (players s) (games s) (answers s) (globals s) m (qstats s)
}.
#[export] Instance QuestionStats_entity : Entity QuestionStats.t := {
  entity_id := QuestionStats.id;
  table := qstats;
  set_table m s := mkStore (players s) (games s) (answers s) (globals s) (dailies s) m
}.

#[export] Instance Player_laws : EntityLaws Player.t. Proof. by constructor. Qed.
#[export] Instance Game_laws : EntityLaws Game.t. Proof. by constructor. Qed.
#[export] Instance Answer_laws : EntityLaws Answer.t. Proof. by constructor. Qed.
#[export] Instance GlobalStats_laws : EntityLaws GlobalStats.t. Proof. by constructor. Qed.
#[export] Instance DailyStats_laws : EntityLaws DailyStats.t. Proof. by constructor. Qed.
#[export] Instance QuestionStats_laws : EntityLaws QuestionStats.t. Proof. by constructor. Qed.

(** ** AssemblyScript primitives that trap *)

Definition I32_MIN : Z := - 2 ^ 31.
Definition I32_MAX : Z := 2 ^ 31 - 1.

(** [BigInt.toI32]: traps when the value does not fit an i32. *)
Definition toI32 {S} (x : Z) : Handler S Z :=
  if (I32_MIN <=? x) && (x <=? I32_MAX) then mret x else abort.

(** [a[i]] on an AssemblyScript array: traps out of range. *)
Definition array_get {S A} (l : list A) (i : Z) : Handler S A :=
  if 0 <=? i then
    match l !! Z.to_nat i with Some a => mret a | None => abort end
  else abort.

(** ** Laws of load and save, proved once against the interface *)

Section EntityStore.
Context {E : Type} `{EntityLaws E}.

Lemma load_run (id : string) s : load (E:=E) id s = Some (table s !! id, s).
Proof. reflexivity. Qed.

Lemma save_table (e : E) s :
  exec (save e) s = Some (set_table (<[entity_id e := e]> (table s)) s).
Proof. reflexivity. Qed.

Lemma save_load_same (e : E) s s' :
  exec (save e) s = Some s' -> table s' !! entity_id e = Some e.
Proof.
  rewrite save_table. intros [= <-]. rewrite table_set_table.
  apply lookup_insert_eq.
Qed.

Lemma save_load_other (e : E) s s' k :
  exec (save e) s = Some s' -> k ≠ entity_id e -> table s' !! k = table s !! k.
Proof.
  rewrite save_table. intros [= <-] Hne. rewrite table_set_table.
  by apply lookup_insert_ne.
Qed.
End EntityStore.

Lemma toI32_in_range {S} (x : Z) (s : S) :
  I32_MIN <= x <= I32_MAX -> toI32 x s = Some (x, s).
Proof.
  intros [Hl Hh]. unfold toI32.
  rewrite (proj2 (Z.leb_le _ _) Hl), (proj2 (Z.leb_le _ _) Hh). reflexivity.
Qed.

Lemma array_get_in_range {S A} (l : list A) (i : Z) (s : S) :
  0 <= i < Z.of_nat (length l) ->
  exists a, l !! Z.to_nat i = Some a /\ array_get l i s = Some (a, s).
Proof.
  intros Hi. unfold array_get. rewrite (proj2 (Z.leb_le _ _) (proj1 Hi)).
  destruct (lookup_lt_is_Some_2 l (Z.to_nat i)) as [a Ha]; [lia |].
  rewrite Ha. eauto.
Qed.

Lemma array_get_out_of_range {S A} (l : list A) (i : Z) (s : S) :
  Z.of_nat (length l) <= i -> array_get l i s = None.
Proof.
  intros Hi. unfold array_get. destruct (Z.leb_spec 0 i); [| reflexivity].
  rewrite lookup_ge_None_2; [reflexivity | lia].
Qed.
