(* ===== verification/Mapping.v ===== *)
(** * Mapping: the event handlers of [src/subgraph/src/mapping.ts]

    One definition per function of the source, in the source's order of
    statements. A sequence of field assignments on a loaded entity becomes a
    chain of [let]s, so that a later assignment reads the earlier ones as the
    source does ([longestWinStreak] reads the incremented
    [currentWinStreak]). A save is [save]. An early [return] on a missing
    entity is [mret tt]. A trap is [abort].

    [handleEvent] is the dispatch that graph-node performs from the
    manifest's event handlers. [replay] runs a log of events in order, and
    stops at the first handler that traps. *)

From S2P Require Import Prelude Schema.

Definition GLOBAL_STATS_ID : string := "global".
Definition ZERO_BI : Z := 0.
Definition ONE_BI : Z := 1.
Definition ZERO_BD : Q := inject_Z 0.
Definition HUNDRED_BD : Q := inject_Z 100.

(** [a.toBigDecimal().div(b.toBigDecimal()).times(HUNDRED_BD)] *)
Definition bd_percent (a b : Z) : Q :=
  Qmult (Qdiv (inject_Z a) (inject_Z b)) HUNDRED_BD.

(** [a.toBigDecimal().div(b.toBigDecimal())] *)
Definition bd_ratio (a b : Z) : Q := Qdiv (inject_Z a) (inject_Z b).

(** [Bytes.toHex]: an address is held as its hex string. *)
Definition toHex (address : string) : string := address.

(** ** Helpers *)

Definition new_player (address : string) : Player.t :=
  {| Player.id := toHex address; Player.address := address;
     Player.gamesPlayed := ZERO_BI; Player.gamesWon := ZERO_BI;
     Player.gamesLost := ZERO_BI; Player.winRate := ZERO_BD;
     Player.totalScore := ZERO_BI; Player.averageScore := ZERO_BD;
     Player.bestScore := ZERO_BI; Player.longestWinStreak := ZERO_BI;
     Player.currentWinStreak := ZERO_BI; Player.firstGameAt := ZERO_BI;
     Player.lastGameAt := ZERO_BI |}.

Definition getOrCreatePlayer (address : string) : M Player.t :=
  o ← load (toHex address);
  match o with
  | Some player => mret player
  | None => let player := new_player address in save player;; mret player
  end.

Definition new_global_stats : GlobalStats.t :=
  {| GlobalStats.id := GLOBAL_STATS_ID; GlobalStats.totalGames := ZERO_BI;
     GlobalStats.totalPlayers := ZERO_BI; GlobalStats.totalCarmenCaught := ZERO_BI;
     GlobalStats.totalCarmenEscaped := ZERO_BI; GlobalStats.globalWinRate := ZERO_BD;
     GlobalStats.lastUpdated := ZERO_BI |}.

Definition updateGlobalStats (timestamp : Z) : M unit :=
  o ← load GLOBAL_STATS_ID;
  let g := default new_global_stats o in
  let totalGames := GlobalStats.totalGames g + ONE_BI in
  let globalWinRate :=
    if totalGames >? ZERO_BI
    then bd_percent (GlobalStats.totalCarmenCaught g) totalGames
    else GlobalStats.globalWinRate g in
  save {| GlobalStats.id := GlobalStats.id g; GlobalStats.totalGames := totalGames;
          GlobalStats.totalPlayers := GlobalStats.totalPlayers g;
          GlobalStats.totalCarmenCaught := GlobalStats.totalCarmenCaught g;
          GlobalStats.totalCarmenEscaped := GlobalStats.totalCarmenEscaped g;
          GlobalStats.globalWinRate := globalWinRate;
          GlobalStats.lastUpdated := timestamp |}.

Definition new_daily_stats (dayId : string) : DailyStats.t :=
  {| DailyStats.id := dayId; DailyStats.date := dayId;
     DailyStats.gamesPlayed := ZERO_BI; DailyStats.gamesWon := ZERO_BI;
     DailyStats.gamesLost := ZERO_BI; DailyStats.uniquePlayers := ZERO_BI;
     DailyStats.totalScore := ZERO_BI; DailyStats.averageScore := ZERO_BD |}.

(** [timestamp.toI32() / 86400]: i32 division truncates toward zero. *)
Definition dayOf (t32 : Z) : Z := Z.quot t32 86400.

Definition updateDailyStats (timestamp : Z) (newGame gameWon gameLost : bool) : M unit :=
  t32 ← toI32 timestamp;
  let dayId := pretty (dayOf t32) in
  o ← load dayId;
  let d := default (new_daily_stats dayId) o in
  save {| DailyStats.id := DailyStats.id d; DailyStats.date := DailyStats.date d;
          DailyStats.gamesPlayed :=
            if newGame then DailyStats.gamesPlayed d + ONE_BI else DailyStats.gamesPlayed d;
          DailyStats.gamesWon :=
            if gameWon then DailyStats.gamesWon d + ONE_BI else DailyStats.gamesWon d;
          DailyStats.gamesLost :=
            if gameLost then DailyStats.gamesLost d + ONE_BI else DailyStats.gamesLost d;
          DailyStats.uniquePlayers := DailyStats.uniquePlayers d;
          DailyStats.totalScore := DailyStats.totalScore d;
          DailyStats.averageScore := DailyStats.averageScore d |}.

Definition new_question_stats (questionId : Z) : QuestionStats.t :=
  {| QuestionStats.id := pretty questionId; QuestionStats.questionId := questionId;
     QuestionStats.timesAsked := ZERO_BI; QuestionStats.timesAnsweredCorrectly := ZERO_BI;
     QuestionStats.timesAnsweredWrong := ZERO_BI; QuestionStats.correctRate := ZERO_BD;
     QuestionStats.averageAnswerTime := ZERO_BD |}.

(** [answerTime] is a parameter of the source function that its body never
    reads: [averageAnswerTime] keeps its initial value. *)
Definition updateQuestionStats (questionId : Z) (correct : bool) (answerTime : Z) : M unit :=
  o ← load (pretty questionId);
  let q := default (new_question_stats questionId) o in
  let timesAsked := QuestionStats.timesAsked q + ONE_BI in
  let timesAnsweredCorrectly :=
    if correct then QuestionStats.timesAnsweredCorrectly q + ONE_BI
    else QuestionStats.timesAnsweredCorrectly q in
  let timesAnsweredWrong :=
    if correct then QuestionStats.timesAnsweredWrong q
    else QuestionStats.timesAnsweredWrong q + ONE_BI in
  let correctRate :=
    if timesAsked >? ZERO_BI then bd_percent timesAnsweredCorrectly timesAsked
    else QuestionStats.correctRate q in
  save {| QuestionStats.id := QuestionStats.id q;
          QuestionStats.questionId := QuestionStats.questionId q;
          QuestionStats.timesAsked := timesAsked;
          QuestionStats.timesAnsweredCorrectly := timesAnsweredCorrectly;
          QuestionStats.timesAnsweredWrong := timesAnsweredWrong;
          QuestionStats.correctRate := correctRate;
          QuestionStats.averageAnswerTime := QuestionStats.averageAnswerTime q |}.

(** ** Player updates of the two terminal handlers *)

(** The [if (player)] block of [handleGameCompleted]. *)
Definition recordWin (game : Game.t) (player : Player.t) : Player.t :=
  let gamesWon := Player.gamesWon player + ONE_BI in
  let totalScore := Player.totalScore player + Game.score game in
  let currentWinStreak := Player.currentWinStreak player + ONE_BI in
  let bestScore :=
    if Game.score game >? Player.bestScore player then Game.score game
    else Player.bestScore player in
  let longestWinStreak :=
    if currentWinStreak >? Player.longestWinStreak player then currentWinStreak
    else Player.longestWinStreak player in
  let winRate :=
    if Player.gamesPlayed player >? ZERO_BI
    then bd_percent gamesWon (Player.gamesPlayed player)
    else Player.winRate player in
  let averageScore :=
    if Player.gamesPlayed player >? ZERO_BI
    then bd_ratio totalScore (Player.gamesPlayed player)
    else Player.averageScore player in
  {| Player.id := Player.id player; Player.address := Player.address player;
     Player.gamesPlayed := Player.gamesPlayed player; Player.gamesWon := gamesWon;
     Player.gamesLost := Player.gamesLost player; Player.winRate := winRate;
     Player.totalScore := totalScore; Player.averageScore := averageScore;
     Player.bestScore := bestScore; Player.longestWinStreak := longestWinStreak;
     Player.currentWinStreak := currentWinStreak;
     Player.firstGameAt := Player.firstGameAt player;
     Player.lastGameAt := Player.lastGameAt player |}.

(** The [if (player)] block of [handleCarmenEscaped]. *)
Definition recordLoss (game : Game.t) (player : Player.t) : Player.t :=
  let gamesLost := Player.gamesLost player + ONE_BI in
  let totalScore := Player.totalScore player + Game.score game in
  let winRate :=
    if Player.gamesPlayed player >? ZERO_BI
    then bd_percent (Player.gamesWon player) (Player.gamesPlayed player)
    else Player.winRate player in
  let averageScore :=
    if Player.gamesPlayed player >? ZERO_BI
    then bd_ratio totalScore (Player.gamesPlayed player)
    else Player.averageScore player in
  {| Player.id := Player.id player; Player.address := Player.address player;
     Player.gamesPlayed := Player.gamesPlayed player;
     Player.gamesWon := Player.gamesWon player;
     Player.gamesLost := gamesLost; Player.winRate := winRate;
     Player.totalScore := totalScore; Player.averageScore := averageScore;
     Player.bestScore := Player.bestScore player;
     Player.longestWinStreak := Player.longestWinStreak player;
     Player.currentWinStreak := ZERO_BI;
     Player.firstGameAt := Player.firstGameAt player;
     Player.lastGameAt := Player.lastGameAt player |}.

(** [game.status = ...; game.carmenCaught = ...; game.endTime = ...;
    game.duration = ...] of the two terminal handlers. *)
Definition finishGame (status : GameStatus) (caught : bool) (timestamp : Z)
    (game : Game.t) : Game.t :=
  {| Game.id := Game.id game; Game.gameId := Game.gameId game;
     Game.player := Game.player game; Game.questionIds := Game.questionIds game;
     Game.status := status; Game.score := Game.score game;
     Game.carmenCaught := caught; Game.startTime := Game.startTime game;
     Game.endTime := Some timestamp;
     Game.duration := Some (timestamp - Game.startTime game);
     Game.totalAnswers := Game.totalAnswers game;
     Game.correctAnswers := Game.correctAnswers game;
     Game.wrongAnswers := Game.wrongAnswers game |}.

(** ** Handlers *)

Definition handleGameStarted (ev : GameStarted.t) : M unit :=
  player ← getOrCreatePlayer (GameStarted.player ev);
  save {| Game.id := pretty (GameStarted.gameId ev); Game.gameId := GameStarted.gameId ev;
          Game.player := Player.id player; Game.questionIds := GameStarted.questionIds ev;
          Game.status := ACTIVE; Game.score := ZERO_BI; Game.carmenCaught := false;
          Game.startTime := GameStarted.timestamp ev; Game.endTime := None;
          Game.duration := None; Game.totalAnswers := ZERO_BI;
          Game.correctAnswers := ZERO_BI; Game.wrongAnswers := ZERO_BI |};;
  save {| Player.id := Player.id player; Player.address := Player.address player;
          Player.gamesPlayed := Player.gamesPlayed player + ONE_BI;
          Player.gamesWon := Player.gamesWon player;
          Player.gamesLost := Player.gamesLost player;
          Player.winRate := Player.winRate player;
          Player.totalScore := Player.totalScore player;
          Player.averageScore := Player.averageScore player;
          Player.bestScore := Player.bestScore player;
          Player.longestWinStreak := Player.longestWinStreak player;
          Player.currentWinStreak := Player.currentWinStreak player;
          Player.firstGameAt :=
            if Player.firstGameAt player =? ZERO_BI then GameStarted.timestamp ev
            else Player.firstGameAt player;
          Player.lastGameAt := GameStarted.timestamp ev |};;
  updateGlobalStats (GameStarted.timestamp ev);;
  updateDailyStats (GameStarted.timestamp ev) true false false.

(** [answerId = gameId.toString() + "-" + questionIndex.toString()] *)
Definition answerId (gameId questionIndex : Z) : string :=
  pretty gameId +:+ "-" +:+ pretty questionIndex.

(** The game's counters after one answer. *)
Definition countAnswer (correct : bool) (game : Game.t) : Game.t :=
  {| Game.id := Game.id game; Game.gameId := Game.gameId game;
     Game.player := Game.player game; Game.questionIds := Game.questionIds game;
     Game.status := Game.status game;
     Game.score := if correct then Game.score game + ONE_BI else Game.score game;
     Game.carmenCaught := Game.carmenCaught game; Game.startTime := Game.startTime game;
     Game.endTime := Game.endTime game; Game.duration := Game.duration game;
     Game.totalAnswers := Game.totalAnswers game + ONE_BI;
     Game.correctAnswers :=
       if correct then Game.correctAnswers game + ONE_BI else Game.correctAnswers game;
     Game.wrongAnswers :=
       if correct then Game.wrongAnswers game else Game.wrongAnswers game + ONE_BI |}.

Definition handleAnswerSubmitted (ev : AnswerSubmitted.t) : M unit :=
  o ← load (pretty (AnswerSubmitted.gameId ev));
  match o with
  | None => mret tt
  | Some game =>
      idx ← toI32 (AnswerSubmitted.questionIndex ev);
      questionId ← array_get (Game.questionIds game) idx;
      let timeFromStart := AnswerSubmitted.timestamp ev - Game.startTime game in
      save {| Answer.id := answerId (AnswerSubmitted.gameId ev) (AnswerSubmitted.questionIndex ev);
              Answer.game := Game.id game;
              Answer.questionIndex := AnswerSubmitted.questionIndex ev;
              Answer.questionId := questionId;
              Answer.playerAnswer := AnswerSubmitted.answer ev;
              Answer.isCorrect := AnswerSubmitted.correct ev;
              Answer.timestamp := AnswerSubmitted.timestamp ev;
              Answer.timeFromStart := timeFromStart |};;
      save (countAnswer (AnswerSubmitted.correct ev) game);;
      updateQuestionStats questionId (AnswerSubmitted.correct ev) timeFromStart
  end.

Definition handleGameCompleted (ev : GameCompleted.t) : M unit :=
  o ← load (pretty (GameCompleted.gameId ev));
  match o with
  | None => mret tt
  | Some game0 =>
      let game := finishGame COMPLETED_WIN true (GameCompleted.timestamp ev) game0 in
      save game;;
      po ← load (Game.player game);
      match po with
      | Some player => save (recordWin game player)
      | None => mret tt
      end;;
      go ← load GLOBAL_STATS_ID;
      match go with
      | Some g =>
          save {| GlobalStats.id := GlobalStats.id g;
                  GlobalStats.totalGames := GlobalStats.totalGames g;
                  GlobalStats.totalPlayers := GlobalStats.totalPlayers g;
                  GlobalStats.totalCarmenCaught := GlobalStats.totalCarmenCaught g + ONE_BI;
                  GlobalStats.totalCarmenEscaped := GlobalStats.totalCarmenEscaped g;
                  GlobalStats.globalWinRate := GlobalStats.globalWinRate g;
                  GlobalStats.lastUpdated := GlobalStats.lastUpdated g |}
      | None => mret tt
      end;;
      updateDailyStats (GameCompleted.timestamp ev) false true false
  end.

Definition handleCarmenEscaped (ev : CarmenEscaped.t) : M unit :=
  o ← load (pretty (CarmenEscaped.gameId ev));
  match o with
  | None => mret tt
  | Some game0 =>
      let game := finishGame COMPLETED_LOSS false (CarmenEscaped.timestamp ev) game0 in
      save game;;
      po ← load (Game.player game);
      match po with
      | Some player => save (recordLoss game player)
      | None => mret tt
      end;;
      go ← load GLOBAL_STATS_ID;
      match go with
      | Some g =>
          save {| GlobalStats.id := GlobalStats.id g;
                  GlobalStats.totalGames := GlobalStats.totalGames g;
                  GlobalStats.totalPlayers := GlobalStats.totalPlayers g;
                  GlobalStats.totalCarmenCaught := GlobalStats.totalCarmenCaught g;
                  GlobalStats.totalCarmenEscaped := GlobalStats.totalCarmenEscaped g + ONE_BI;
                  GlobalStats.globalWinRate := GlobalStats.globalWinRate g;
                  GlobalStats.lastUpdated := GlobalStats.lastUpdated g |}
      | None => mret tt
      end;;
      updateDailyStats (CarmenEscaped.timestamp ev) false false true
  end.

(** ** Dispatch and replay *)

Definition handleEvent (e : Event) : M unit :=
  match e with
  | EvGameStarted ev => handleGameStarted ev
  | EvAnswerSubmitted ev => handleAnswerSubmitted ev
  | EvGameCompleted ev => handleGameCompleted ev
  | EvCarmenEscaped ev => handleCarmenEscaped ev
  end.

Fixpoint replay (log : list Event) (s : Store) : option Store :=
  match log with
  | [] => Some s
  | e :: rest =>
      match exec (handleEvent e) s with
      | Some s' => replay rest s'
      | None => None
      end
  end.
