(* ===== verification/MappingFacts.v ===== *)
(** * MappingFacts: running the handlers symbolically

    Rewriting lemmas that execute [load], [save], [toI32] and [array_get]
    inside a bind, and the tactic [hrun] that runs a handler down to the
    store it produces. These lemmas say what each helper of [mapping.ts]
    writes and what it leaves alone. The invariant, behaviour and findings
    files share them. *)

From S2P Require Import Prelude Schema Mapping.

(** ** Executing the store primitives inside a bind *)

Lemma exec_load_bind {E B} `{Entity E} (id : string) (k : option E -> M B) s :
  exec (load id ≫= k) s = exec (k (table s !! id)) s.
Proof. reflexivity. Qed.

Lemma exec_save_bind {E B} `{Entity E} (e : E) (k : unit -> M B) s :
  exec (save e ≫= k) s = exec (k tt) (set_table (<[entity_id e := e]> (table s)) s).
Proof. reflexivity. Qed.

Lemma exec_save {E} `{Entity E} (e : E) s :
  exec (save e) s = Some (set_table (<[entity_id e := e]> (table s)) s).
Proof. reflexivity. Qed.

Lemma exec_ret_bind {A B} (a : A) (k : A -> M B) s :
  exec (mret a ≫= k) s = exec (k a) s.
Proof. reflexivity. Qed.

Lemma exec_bind_assoc {A B C} (m : M A) (k : A -> M B) (k' : B -> M C) s :
  exec ((m ≫= k) ≫= k') s = exec (m ≫= (fun a => k a ≫= k')) s.
Proof. hunfold. by destruct (m s) as [[??]|]. Qed.

Lemma exec_toI32_bind {B} (x : Z) (k : Z -> M B) s :
  I32_MIN <= x <= I32_MAX -> exec (toI32 x ≫= k) s = exec (k x) s.
Proof. intros Hx. hunfold. by rewrite toI32_in_range. Qed.

Lemma exec_toI32_bind_trap {B} (x : Z) (k : Z -> M B) s :
  ~ (I32_MIN <= x <= I32_MAX) -> exec (toI32 x ≫= k) s = None.
Proof.
  intros Hx. hunfold. unfold toI32.
  destruct (Z.leb_spec I32_MIN x), (Z.leb_spec x I32_MAX); simpl; try reflexivity; lia.
Qed.

Lemma exec_array_get_bind {A B} (l : list A) (i : Z) (a : A) (k : A -> M B) s :
  0 <= i -> l !! Z.to_nat i = Some a -> exec (array_get l i ≫= k) s = exec (k a) s.
Proof.
  intros Hi Ha. hunfold. unfold array_get.
  rewrite (proj2 (Z.leb_le _ _) Hi), Ha. reflexivity.
Qed.

Lemma exec_array_get_bind_trap {A B} (l : list A) (i : Z) (k : A -> M B) s :
  Z.of_nat (length l) <= i -> exec (array_get l i ≫= k) s = None.
Proof. intros Hi. hunfold. by rewrite array_get_out_of_range. Qed.

#[export] Hint Rewrite @exec_load_bind @exec_save_bind @exec_save @exec_ret_bind
  @exec_bind_assoc : carmen_rw.

(** Reduce the projections of the store interface to the store's fields. *)
Ltac tsimpl :=
  cbn [table set_table entity_id Player_entity Game_entity Answer_entity
       GlobalStats_entity DailyStats_entity QuestionStats_entity
       players games answers globals dailies qstats
       Player.id Game.id Answer.id GlobalStats.id DailyStats.id QuestionStats.id] in *.

(** Run a handler: unfold its definition, then rewrite binds away until a
    [match] on a loaded entity (left for the caller to destruct) or the
    final store is reached. *)
Ltac hrun :=
  repeat (cbv beta zeta; autorewrite with carmen_rw; tsimpl).

(** The result of a run, as an equation on the final store. *)
Ltac hfinish H := cbv beta zeta in H; autorewrite with carmen_rw in H; tsimpl;
  injection H as <-; tsimpl.

(** Instantiate [exists v, <[k := v]> m = ... ] with the value the run inserted. *)
Ltac exists_inserted :=
  match goal with
  | |- exists _, <[_ := ?v]> _ = _ /\ _ => exists v; split; [reflexivity |]
  | |- exists _, <[_ := ?v]> _ = _ => exists v; reflexivity
  end.

(** ** What the helpers write *)

Lemma getOrCreatePlayer_found (address : string) (p : Player.t)
    (k : Player.t -> M unit) s :
  players s !! toHex address = Some p ->
  exec (getOrCreatePlayer address ≫= k) s = exec (k p) s.
Proof. intros Hp. unfold getOrCreatePlayer. hrun. by rewrite Hp. Qed.

Lemma getOrCreatePlayer_fresh (address : string) (k : Player.t -> M unit) s :
  players s !! toHex address = None ->
  exec (getOrCreatePlayer address ≫= k) s =
  exec (k (new_player address))
    (mkStore (<[toHex address := new_player address]> (players s)) (games s)
       (answers s) (globals s) (dailies s) (qstats s)).
Proof. intros Hp. unfold getOrCreatePlayer. hrun. by rewrite Hp. Qed.

(** [updateGlobalStats] writes only the global record, under the id of the
    record it loaded (or of the fresh one). *)
Lemma updateGlobalStats_frame ts s s' :
  s =[ updateGlobalStats ts ]=> s' ->
  players s' = players s /\ games s' = games s /\ answers s' = answers s /\
  dailies s' = dailies s /\ qstats s' = qstats s /\
  exists g, globals s' = <[GlobalStats.id g := g]> (globals s) /\
    let g0 := default new_global_stats (globals s !! GLOBAL_STATS_ID) in
    GlobalStats.id g = GlobalStats.id g0 /\
    GlobalStats.totalPlayers g = GlobalStats.totalPlayers g0 /\
    GlobalStats.totalGames g = GlobalStats.totalGames g0 + 1 /\
    GlobalStats.totalCarmenCaught g = GlobalStats.totalCarmenCaught g0 /\
    GlobalStats.totalCarmenEscaped g = GlobalStats.totalCarmenEscaped g0.
Proof.
  unfold updateGlobalStats. intros H. hfinish H.
  do 5 (split; [done |]). exists_inserted. done.
Qed.

(** [updateDailyStats] writes only one [DailyStats] record, and traps only
    on a timestamp outside the i32 range. It never changes the record's
    [uniquePlayers], [totalScore] or [averageScore]. *)
Lemma updateDailyStats_frame ts a b c s s' :
  s =[ updateDailyStats ts a b c ]=> s' ->
  players s' = players s /\ games s' = games s /\ answers s' = answers s /\
  globals s' = globals s /\ qstats s' = qstats s /\
  exists k d, dailies s' = <[DailyStats.id d := d]> (dailies s) /\
    let d0 := default (new_daily_stats k) (dailies s !! k) in
    DailyStats.id d = DailyStats.id d0 /\
    DailyStats.uniquePlayers d = DailyStats.uniquePlayers d0 /\
    DailyStats.totalScore d = DailyStats.totalScore d0 /\
    DailyStats.averageScore d = DailyStats.averageScore d0.
Proof.
  unfold updateDailyStats, toI32. intros H.
  destruct (_ && _); [| discriminate]. hfinish H.
  do 5 (split; [done |]). eexists. exists_inserted. done.
Qed.

Lemma updateDailyStats_total ts a b c s :
  I32_MIN <= ts <= I32_MAX -> is_Some (exec (updateDailyStats ts a b c) s).
Proof.
  intros Hts. unfold updateDailyStats. rewrite exec_toI32_bind by done.
  hrun. eauto.
Qed.

(** [updateQuestionStats] writes only one [QuestionStats] record, and keeps
    [timesAsked = timesAnsweredCorrectly + timesAnsweredWrong]. *)
Lemma updateQuestionStats_frame qid correct t s s' :
  s =[ updateQuestionStats qid correct t ]=> s' ->
  players s' = players s /\ games s' = games s /\ answers s' = answers s /\
  globals s' = globals s /\ dailies s' = dailies s /\
  exists q, qstats s' = <[QuestionStats.id q := q]> (qstats s) /\
    let q0 := default (new_question_stats qid) (qstats s !! pretty qid) in
    QuestionStats.id q = QuestionStats.id q0 /\
    QuestionStats.timesAsked q = QuestionStats.timesAsked q0 + 1 /\
    QuestionStats.timesAnsweredCorrectly q =
      QuestionStats.timesAnsweredCorrectly q0 + (if correct then 1 else 0) /\
    QuestionStats.timesAnsweredWrong q =
      QuestionStats.timesAnsweredWrong q0 + (if correct then 0 else 1) /\
    QuestionStats.averageAnswerTime q = QuestionStats.averageAnswerTime q0.
Proof.
  unfold updateQuestionStats. intros H. hfinish H.
  do 5 (split; [done |]). exists_inserted.
  simpl. unfold ONE_BI. destruct correct; simpl; repeat split; lia.
Qed.

(** Sequencing two handlers of type [M unit]. *)
Lemma exec_seq (m k : M unit) s :
  exec (m ;; k) s = match exec m s with Some s' => exec k s' | None => None end.
Proof. hunfold. by destruct (m s) as [[[] ?]|]. Qed.

Ltac hrun_in H :=
  repeat (cbv beta zeta in H; autorewrite with carmen_rw in H; tsimpl).

(** ** Growth of tables: saving never removes an id *)

Lemma is_Some_insert_grow {V} (m : gmap string V) i x k :
  is_Some (m !! k) -> is_Some (<[i:=x]> m !! k).
Proof. intros [v Hv]. rewrite lookup_insert. case_decide; eauto. Qed.

#[export] Hint Resolve is_Some_insert_grow : carmen.

(** ** Inverting the traps: a run that succeeds passed them *)

Lemma exec_toI32_bind_inv {B} (x : Z) (k : Z -> M B) s s' :
  s =[ toI32 x ≫= k ]=> s' -> I32_MIN <= x <= I32_MAX /\ s =[ k x ]=> s'.
Proof.
  destruct (decide (I32_MIN <= x <= I32_MAX)) as [Hx | Hx].
  - by rewrite exec_toI32_bind.
  - by rewrite exec_toI32_bind_trap.
Qed.

Lemma exec_array_get_bind_inv {A B} (l : list A) (i : Z) (k : A -> M B) s s' :
  s =[ array_get l i ≫= k ]=> s' ->
  exists a, 0 <= i /\ l !! Z.to_nat i = Some a /\ s =[ k a ]=> s'.
Proof.
  hunfold. unfold array_get. destruct (Z.leb_spec 0 i); [| done].
  destruct (l !! Z.to_nat i) eqn:Ha; [| done]. eauto.
Qed.

(** ** The record updates keep the entity's id *)

Lemma recordWin_id g p : Player.id (recordWin g p) = Player.id p.
Proof. reflexivity. Qed.
Lemma recordLoss_id g p : Player.id (recordLoss g p) = Player.id p.
Proof. reflexivity. Qed.
Lemma countAnswer_id c g : Game.id (countAnswer c g) = Game.id g.
Proof. reflexivity. Qed.
Lemma finishGame_id st c t g : Game.id (finishGame st c t g) = Game.id g.
Proof. reflexivity. Qed.
Lemma finishGame_player st c t g : Game.player (finishGame st c t g) = Game.player g.
Proof. reflexivity. Qed.

#[export] Hint Rewrite recordWin_id recordLoss_id countAnswer_id finishGame_id
  finishGame_player : carmen_rw.

(** [getOrCreatePlayer] in one equation: it continues with the stored
    player or a fresh one, and the table holds that record at the address
    afterwards (re-inserting a stored record changes nothing). *)
Lemma getOrCreatePlayer_run (address : string) (k : Player.t -> M unit) s :
  let p0 := default (new_player address) (players s !! toHex address) in
  exec (getOrCreatePlayer address ≫= k) s =
  exec (k p0) (mkStore (<[toHex address := p0]> (players s)) (games s)
                 (answers s) (globals s) (dailies s) (qstats s)).
Proof.
  simpl. destruct (players s !! toHex address) as [p|] eqn:Hp; simpl.
  - rewrite (getOrCreatePlayer_found _ p) by done. rewrite insert_id by done.
    by destruct s.
  - by rewrite getOrCreatePlayer_fresh.
Qed.

Lemma updateGlobalStats_total ts s : is_Some (exec (updateGlobalStats ts) s).
Proof. unfold updateGlobalStats. hrun. eauto. Qed.

Lemma updateQuestionStats_total qid c t s : is_Some (exec (updateQuestionStats qid c t) s).
Proof. unfold updateQuestionStats. hrun. eauto. Qed.

Lemma updateDailyStats_trap ts a b c s :
  ~ (I32_MIN <= ts <= I32_MAX) -> exec (updateDailyStats ts a b c) s = None.
Proof.
  intros Hts. unfold updateDailyStats. by rewrite exec_toI32_bind_trap.
Qed.

Lemma updateDailyStats_succeeds_iff ts a b c s :
  is_Some (exec (updateDailyStats ts a b c) s) <-> I32_MIN <= ts <= I32_MAX.
Proof.
  split; [| apply updateDailyStats_total].
  intros Hs. destruct (decide (I32_MIN <= ts <= I32_MAX)) as [|Hts]; [done |].
  rewrite updateDailyStats_trap in Hs by done. by destruct Hs.
Qed.
