(* ===== verification/AnswerIds.v ===== *)
(** * AnswerIds: the ids of [Answer] entities

    [handleAnswerSubmitted] saves each answer under
    [gameId.toString() + "-" + questionIndex.toString()] ([Mapping.answerId]).
    Two answers get the same id only if they answer the same question of
    the same game, so no answer overwrites another. Here that is a round
    trip: [parseAnswerId] reads both numbers back from the id.

    [read_decimal] reads the longest prefix of decimal digits;
    [toString] of a [BigInt] is stdpp's [pretty], whose digits are built
    from the last one by [pretty_N_go]. *)

From S2P Require Import Prelude Mapping.
From Stdlib Require Import Ascii.

(** The value of a decimal digit: characters 48 to 57 of ASCII. *)
Definition digit_value (c : ascii) : option N :=
  let n := N_of_ascii c in
  if (48 <=? n)%N && (n <=? 57)%N then Some (n - 48)%N else None.

(** Reads the digits at the front of [s] onto [acc]; returns the value and
    the rest of the string. *)
Fixpoint read_decimal (acc : N) (s : string) : N * string :=
  match s with
  | String c s' =>
      match digit_value c with
      | Some d => read_decimal (10 * acc + d) s'
      | None => (acc, s)
      end
  | EmptyString => (acc, EmptyString)
  end.

(** Decodes ["<gameId>-<questionIndex>"]. *)
Definition parseAnswerId (s : string) : option (Z * Z) :=
  let '(g, r) := read_decimal 0 s in
  match r with
  | String "-"%char r' =>
      let '(q, r'') := read_decimal 0 r' in
      if r'' is EmptyString then Some (Z.of_N g, Z.of_N q) else None
  | _ => None
  end.

(** ** Theorems *)

Lemma digit_value_char (x : N) : digit_value (pretty_N_char (x `mod` 10)) = Some (x `mod` 10)%N.
Proof.
  assert (Hx : (x `mod` 10 < 10)%N) by (apply N.mod_lt; lia).
  remember (x `mod` 10)%N as d eqn:Hd. clear Hd.
  assert (d = 0 ∨ d = 1 ∨ d = 2 ∨ d = 3 ∨ d = 4 ∨ d = 5 ∨ d = 6 ∨ d = 7 ∨ d = 8 ∨ d = 9)%N
    as Hcases by lia.
  destruct_or! Hcases; subst d; reflexivity.
Qed.

(** Reading the digits [pretty_N_go] writes in front of [s] gives back
    the number. *)
Lemma read_pretty_N_go (x : N) (s : string) : read_decimal 0 (pretty_N_go x s) = read_decimal x s.
Proof.
  revert s. induction x as [x IH] using (well_founded_induction N.lt_wf_0). intros s.
  destruct (decide (x = 0)%N) as [->|Hx]; [done |].
  rewrite pretty_N_go_step by lia. rewrite IH by (apply N.div_lt; lia).
  cbn [read_decimal]. rewrite digit_value_char. f_equal.
  rewrite (N.div_mod x 10) at 3 by lia. done.
Qed.

Lemma pretty_N_go_app (x : N) (s : string) : pretty_N_go x s = pretty_N_go x "" +:+ s.
Proof.
  revert s. induction x as [x IH] using (well_founded_induction N.lt_wf_0). intros s.
  destruct (decide (x = 0)%N) as [->|Hx]; [done |].
  assert (Hlt : (x `div` 10 < x)%N) by (apply N.div_lt; lia).
  rewrite (pretty_N_go_step x s), (pretty_N_go_step x "") by lia.
  rewrite (IH _ Hlt (String (pretty_N_char (x `mod` 10)) s)),
    (IH _ Hlt (String (pretty_N_char (x `mod` 10)) "")).
  by rewrite string_app_assoc.
Qed.

Lemma read_pretty_N (n : N) (s : string) : read_decimal 0 (pretty n +:+ s) = read_decimal n s.
Proof.
  unfold pretty, pretty_N. destruct (decide (n = 0)%N) as [->|Hn]; [done |].
  by rewrite <- pretty_N_go_app, read_pretty_N_go.
Qed.

(** The dash is not a digit: reading stops at it. *)
Lemma read_decimal_dash (n : N) (s : string) : read_decimal n (String "-" s) = (n, String "-" s).
Proof. reflexivity. Qed.

(** [toString] of a non-negative integer is that of its natural number. *)
Lemma pretty_Z_of_N (z : Z) : 0 <= z -> pretty z = pretty (Z.to_N z).
Proof. destruct z; [done | done | lia]. Qed.

(** [parseAnswerId] inverts [answerId] on non-negative numbers. *)
Lemma parseAnswerId_answerId (gameId questionIndex : Z) :
  0 <= gameId -> 0 <= questionIndex ->
  parseAnswerId (answerId gameId questionIndex) = Some (gameId, questionIndex).
Proof.
  intros Hg Hq. unfold parseAnswerId, answerId.
  rewrite (pretty_Z_of_N gameId Hg), (pretty_Z_of_N questionIndex Hq), read_pretty_N.
  change ("-" +:+ ?x) with (String "-" x). rewrite read_decimal_dash. cbn beta iota.
  rewrite <- (string_app_nil_r (pretty (Z.to_N questionIndex))), read_pretty_N.
  cbn [read_decimal].
  by rewrite !Z2N.id.
Qed.

(** C39: the id of an answer decodes to its game and question. For the
    non-negative numbers the events carry ([gameId] is a [uint256],
    [questionIndex] a [uint8]), [parseAnswerId] reads back both from
    [answerId]. So two answers share an id only if they answer the same
    question of the same game, and no [save] of an answer overwrites
    another one. *)
Theorem answerId_roundtrip (gameId questionIndex : Z) :
  0 <= gameId -> 0 <= questionIndex ->
  parseAnswerId (answerId gameId questionIndex) = Some (gameId, questionIndex) /\
  forall gameId' questionIndex', 0 <= gameId' -> 0 <= questionIndex' ->
    answerId gameId' questionIndex' = answerId gameId questionIndex ->
    gameId' = gameId /\ questionIndex' = questionIndex.
Proof.
  intros Hg Hq. split; [by apply parseAnswerId_answerId |].
  intros g' q' Hg' Hq' Heq.
  pose proof (parseAnswerId_answerId g' q' Hg' Hq') as H'.
  rewrite Heq, parseAnswerId_answerId in H' by done. by simplify_eq.
Qed.

Lemma answerId_roundtrip_witness :
  (0 <= 12 /\ 0 <= 7) /\ parseAnswerId (answerId 12 7) = Some (12, 7).
Proof. split; [lia |]. apply answerId_roundtrip; lia. Defined.
