(* ===== verification/Scenarios.v ===== *)
(** * Scenarios: concrete event logs

    Event logs of the kind the contract emits, from the scenarios of the
    specification. A player starts a game, answers, and the game ends in
    [GameCompleted] or [CarmenEscaped]. The stores they produce are
    computed once here. The witnesses of the theorems and the findings
    evaluate on them. *)

From S2P Require Import Prelude Schema Mapping.

Definition question_ids : list Z := [1; 2; 3; 4; 5; 6; 7; 8; 9; 10].

Definition ev_start (player : string) (gameId t : Z) : Event :=
  EvGameStarted (GameStarted.mk player gameId question_ids t).

Definition ev_answer (player : string) (gameId i : Z) (correct : bool) (t : Z) : Event :=
  EvAnswerSubmitted (AnswerSubmitted.mk player gameId i 0 correct t).

Definition ev_completed (player : string) (gameId t : Z) : Event :=
  EvGameCompleted (GameCompleted.mk player gameId true 10 t).

Definition ev_escaped (player : string) (gameId score t : Z) : Event :=
  EvCarmenEscaped (CarmenEscaped.mk player gameId score t).

(** A perfect game: ten correct answers, then [GameCompleted]. *)
Definition win_log (player : string) (gameId t : Z) : list Event :=
  ev_start player gameId t ::
  map (fun i => ev_answer player gameId i true (t + 10 * i)) (seqZ 0 10) ++
  [ev_completed player gameId (t + 100)].

(** A game lost at question [k]: [k] correct answers, one wrong one, then
    [CarmenEscaped]. *)
Definition loss_log (player : string) (gameId k t : Z) : list Event :=
  ev_start player gameId t ::
  map (fun i => ev_answer player gameId i true (t + 10 * i)) (seqZ 0 k) ++
  [ev_answer player gameId k false (t + 10 * k); ev_escaped player gameId k (t + 10 * k)].

Definition player_aa : string := "0xaa".

(** The spec's scenario: game 1 is won by [0xaa] at [t = 1000]. *)
Definition scenario_win : list Event := win_log player_aa 1 1000.

(** Three wins in a row, then game 2 lost at its fourth question. *)
Definition scenario_streak_then_loss : list Event :=
  win_log player_aa 11 100 ++ win_log player_aa 12 300 ++ win_log player_aa 13 500 ++
  loss_log player_aa 2 3 2000.

(** The same three wins, without the loss. *)
Definition scenario_streak : list Event :=
  win_log player_aa 11 100 ++ win_log player_aa 12 300 ++ win_log player_aa 13 500.

Definition run_log (log : list Event) : Store := default empty_store (replay log empty_store).

Definition store_win : Store := Eval vm_compute in run_log scenario_win.
Definition store_streak : Store := Eval vm_compute in run_log scenario_streak.

Lemma replay_scenario_win : replay scenario_win empty_store = Some store_win.
Proof. vm_compute. reflexivity. Qed.

Lemma replay_scenario_streak : replay scenario_streak empty_store = Some store_streak.
Proof. vm_compute. reflexivity. Qed.

(** The spec's loss scenario: after three wins, game 2 gets three correct
    answers and a wrong one; [CarmenEscaped] follows. *)
Definition scenario_pre_escape : list Event :=
  scenario_streak ++ ev_start player_aa 2 2000 ::
  map (fun i => ev_answer player_aa 2 i true (2000 + 10 * i)) (seqZ 0 3) ++
  [ev_answer player_aa 2 3 false 2030].

Definition escape_game_2 : CarmenEscaped.t := CarmenEscaped.mk player_aa 2 3 2030.

(** The spec's win scenario before its [GameCompleted]. *)
Definition scenario_pre_win : list Event :=
  ev_start player_aa 1 1000 ::
  map (fun i => ev_answer player_aa 1 i true (1000 + 10 * i)) (seqZ 0 10).

Definition complete_game_1 : GameCompleted.t := GameCompleted.mk player_aa 1 true 10 1100.

Definition store_pre_escape : Store := Eval vm_compute in run_log scenario_pre_escape.
Definition store_post_escape : Store :=
  Eval vm_compute in default empty_store (exec (handleCarmenEscaped escape_game_2) store_pre_escape).
Definition store_pre_win : Store := Eval vm_compute in run_log scenario_pre_win.
Definition store_post_win : Store :=
  Eval vm_compute in default empty_store (exec (handleGameCompleted complete_game_1) store_pre_win).

Definition start_game_1 : GameStarted.t := GameStarted.mk player_aa 1 question_ids 1000.
Definition store_after_start : Store :=
  Eval vm_compute in default empty_store (exec (handleGameStarted start_game_1) empty_store).

(** An answer for game 999, which was never started. *)
Definition answer_unknown_game : AnswerSubmitted.t := AnswerSubmitted.mk player_aa 999 0 0 true 1200.

(** The first answer of game 1, correct. *)
Definition answer_first : AnswerSubmitted.t := AnswerSubmitted.mk player_aa 1 0 2 true 1010.
Definition store_after_first_answer : Store :=
  Eval vm_compute in default empty_store (exec (handleAnswerSubmitted answer_first) store_after_start).
