(* ===== verification/Invariants.v ===== *)
(** * Invariants: what every reachable store of the subgraph satisfies

    [InvCore] holds after every single write of every handler:
    - each entity is stored under its own id;
    - a player's current win streak lies between 0 and the longest one;
    - a game's [totalAnswers] is [correctAnswers + wrongAnswers], and its
      [score] is [correctAnswers];
    - a game's player exists;
    - [timesAsked] of a question is the sum of its right and wrong answers;
    - the fields the source never updates keep their initial value: the
      global [totalPlayers], a day's [uniquePlayers], [totalScore] and
      [averageScore], a question's [averageAnswerTime].
    [Inv] adds that the global record exists once a game does. Inside
    [handleGameStarted] this second part is broken for a moment: the game is
    saved before [updateGlobalStats] runs. Both parts hold between events.
    Each handler preserves [Inv], so every store [replay] reaches from the
    empty store satisfies it. *)

From S2P Require Import Prelude Schema Mapping MappingFacts Scenarios.

Definition player_wf (k : string) (p : Player.t) : Prop :=
  Player.id p = k /\ 0 <= Player.currentWinStreak p <= Player.longestWinStreak p.

Definition game_wf (ps : gmap string Player.t) (k : string) (g : Game.t) : Prop :=
  Game.id g = k /\
  Game.totalAnswers g = Game.correctAnswers g + Game.wrongAnswers g /\
  Game.score g = Game.correctAnswers g /\
  is_Some (ps !! Game.player g).

Definition global_wf (k : string) (g : GlobalStats.t) : Prop :=
  GlobalStats.id g = k /\ GlobalStats.totalPlayers g = 0.

Definition question_wf (k : string) (q : QuestionStats.t) : Prop :=
  QuestionStats.id q = k /\
  QuestionStats.timesAsked q =
    QuestionStats.timesAnsweredCorrectly q + QuestionStats.timesAnsweredWrong q /\
  QuestionStats.averageAnswerTime q = ZERO_BD.

Definition daily_wf (k : string) (d : DailyStats.t) : Prop :=
  DailyStats.id d = k /\ DailyStats.uniquePlayers d = 0 /\
  DailyStats.totalScore d = 0 /\ DailyStats.averageScore d = ZERO_BD.

Definition keyed {E} `{Entity E} (m : gmap string E) : Prop :=
  map_Forall (fun k e => entity_id e = k) m.

Record InvCore (s : Store) : Prop := {
  inv_players : map_Forall player_wf (players s);
  inv_games : map_Forall (game_wf (players s)) (games s);
  inv_globals : map_Forall global_wf (globals s);
  inv_answers : keyed (answers s);
  inv_dailies : map_Forall daily_wf (dailies s);
  inv_qstats : map_Forall question_wf (qstats s)
}.

Definition global_exists (s : Store) : Prop := is_Some (globals s !! GLOBAL_STATS_ID).

Definition games_have_global (s : Store) : Prop :=
  forall k g, games s !! k = Some g -> global_exists s.

Definition Inv (s : Store) : Prop := InvCore s /\ games_have_global s.

(** ** Entity-level lemmas *)

Lemma game_wf_grow (ps ps' : gmap string Player.t) k g :
  (forall k, is_Some (ps !! k) -> is_Some (ps' !! k)) -> game_wf ps k g -> game_wf ps' k g.
Proof. intros Hgrow (? & ? & ? & ?). repeat split; auto. Qed.

Lemma games_wf_insert_player (ps : gmap string Player.t) (gs : gmap string Game.t) k p :
  map_Forall (game_wf ps) gs -> map_Forall (game_wf (<[k:=p]> ps)) gs.
Proof.
  intros Hgs. eapply map_Forall_impl; [exact Hgs |].
  intros ??. apply game_wf_grow. eauto with carmen.
Qed.

Lemma game_wf_insert_player ps k g k' p :
  game_wf ps k g -> game_wf (<[k':=p]> ps) k g.
Proof. apply game_wf_grow. eauto with carmen. Qed.

Lemma keyed_insert {E} `{Entity E} (m : gmap string E) (e : E) :
  keyed m -> keyed (<[entity_id e := e]> m).
Proof. intros Hm. by apply map_Forall_insert_keep. Qed.

Lemma keyed_lookup {E} `{Entity E} (m : gmap string E) k e :
  keyed m -> m !! k = Some e -> entity_id e = k.
Proof. intros Hm Hk. exact (Hm _ _ Hk). Qed.

Lemma player_wf_recordWin g p k : player_wf k p -> player_wf k (recordWin g p).
Proof.
  unfold player_wf, recordWin, ONE_BI. simpl. rewrite gtb_select_max.
  intros (? & ? & ?). split; [done | lia].
Qed.

Lemma player_wf_recordLoss g p k : player_wf k p -> player_wf k (recordLoss g p).
Proof. unfold player_wf, recordLoss, ZERO_BI. simpl. intros (? & ? & ?). split; [done | lia]. Qed.

Lemma game_wf_countAnswer ps c g k : game_wf ps k g -> game_wf ps k (countAnswer c g).
Proof. unfold game_wf, countAnswer, ONE_BI. destruct c; simpl; intuition lia. Qed.

Lemma game_wf_finishGame ps st c t g k : game_wf ps k g -> game_wf ps k (finishGame st c t g).
Proof. done. Qed.

#[export] Hint Resolve keyed_insert game_wf_insert_player player_wf_recordWin
  player_wf_recordLoss game_wf_countAnswer game_wf_finishGame : carmen.

(** A default record built from a lookup in an invariant table keeps the
    table's property at the looked-up key, when the fresh record has it too. *)
Lemma default_lookup_wf {V} (P : string -> V -> Prop) (m : gmap string V) k (d : V) :
  map_Forall P m -> P k d -> P k (default d (m !! k)).
Proof. intros Hm Hd. destruct (m !! k) eqn:E; simpl; [exact (Hm _ _ E) | exact Hd]. Qed.

(** ** The helpers preserve [InvCore] *)

Lemma updateGlobalStats_core ts s s' :
  InvCore s -> s =[ updateGlobalStats ts ]=> s' ->
  InvCore s' /\ global_exists s' /\ games s' = games s.
Proof.
  intros HI H.
  destruct (updateGlobalStats_frame _ _ _ H) as (Hp & Hg & Ha & Hd & Hq & g & Hgl & Hid & Htp & _).
  destruct (default_lookup_wf global_wf (globals s) GLOBAL_STATS_ID new_global_stats)
    as [Hid0 Htp0]; [by destruct HI | done |].
  split; [| split; [| done]].
  - constructor; rewrite ?Hp, ?Hg, ?Ha, ?Hd, ?Hq, ?Hgl;
    try solve [destruct HI; assumption].
    apply map_Forall_insert_keep; [by destruct HI |]. split; [done |]. lia.
  - unfold global_exists. rewrite Hgl, Hid, Hid0, lookup_insert_eq. eauto.
Qed.

Lemma updateDailyStats_core ts a b c s s' :
  InvCore s -> s =[ updateDailyStats ts a b c ]=> s' ->
  InvCore s' /\ globals s' = globals s /\ games s' = games s.
Proof.
  intros HI H.
  destruct (updateDailyStats_frame _ _ _ _ _ _ H)
    as (Hp & Hg & Ha & Hgl & Hq & k & d & Hd & Hid & Hu & Hts & Havg).
  destruct (default_lookup_wf daily_wf (dailies s) k (new_daily_stats k))
    as (Hid0 & Hu0 & Hts0 & Havg0); [by destruct HI | done |].
  split; [| done].
  constructor; rewrite ?Hp, ?Hg, ?Ha, ?Hd, ?Hq, ?Hgl;
    try solve [destruct HI; assumption].
  apply map_Forall_insert_keep; [by destruct HI |].
  repeat split; congruence.
Qed.

Lemma updateQuestionStats_core qid c t s s' :
  InvCore s -> s =[ updateQuestionStats qid c t ]=> s' ->
  InvCore s' /\ globals s' = globals s /\ games s' = games s.
Proof.
  intros HI H.
  destruct (updateQuestionStats_frame _ _ _ _ _ H)
    as (Hp & Hg & Ha & Hgl & Hd & q & Hq & Hid & Hasked & Hok & Hwrong & Havg).
  destruct (default_lookup_wf question_wf (qstats s) (pretty qid) (new_question_stats qid))
    as (Hid0 & Hsum0 & Havg0); [by destruct HI | done |].
  split; [| done].
  constructor; rewrite ?Hp, ?Hg, ?Ha, ?Hd, ?Hq, ?Hgl;
    try solve [destruct HI; assumption].
  apply map_Forall_insert_keep; [by destruct HI |]. split; [done |].
  split; [| congruence]. rewrite Hasked, Hok, Hwrong, Hsum0. destruct c; lia.
Qed.

(** ** The handlers preserve [Inv] *)

Lemma player_wf_new address : player_wf (toHex address) (new_player address).
Proof. unfold player_wf, new_player, ZERO_BI. simpl. split; [done | lia]. Qed.

(** [getOrCreatePlayer] leaves a well-formed players table in which the
    player it returns is stored under the address. *)
Lemma getOrCreatePlayer_wf address (k : Player.t -> M unit) s :
  InvCore s ->
  exists p ps,
    exec (getOrCreatePlayer address ≫= k) s =
      exec (k p) (mkStore ps (games s) (answers s) (globals s) (dailies s) (qstats s)) /\
    ps !! toHex address = Some p /\ Player.id p = toHex address /\
    InvCore (mkStore ps (games s) (answers s) (globals s) (dailies s) (qstats s)).
Proof.
  intros HI. destruct (players s !! toHex address) as [p|] eqn:Hp.
  - exists p, (players s). rewrite (getOrCreatePlayer_found _ p) by done.
    split; [by destruct s |]. split; [done |]. split; [exact (proj1 (inv_players _ HI _ _ Hp)) |].
    by destruct s.
  - exists (new_player address), (<[toHex address := new_player address]> (players s)).
    rewrite getOrCreatePlayer_fresh by done.
    split; [done |]. split; [by rewrite lookup_insert_eq |]. split; [done |].
    destruct HI; constructor; simpl; try assumption.
    + apply map_Forall_insert_keep; [done | apply player_wf_new].
    + by apply games_wf_insert_player.
Qed.

Lemma handleGameStarted_inv ev s s' :
  Inv s -> s =[ handleGameStarted ev ]=> s' -> Inv s'.
Proof.
  intros [HI _] H. unfold handleGameStarted in H.
  match type of H with context [getOrCreatePlayer ?a ≫= ?k] =>
    destruct (getOrCreatePlayer_wf a k s HI) as (p & ps & Hrun & Hps & Hid & HI1) end.
  rewrite Hrun in H. clear Hrun. hrun_in H.
  rewrite exec_seq in H. destruct (exec (updateGlobalStats _) _) as [s2|] eqn:H2; [| done].
  destruct HI1 as [HP HG HGl HA HD HQ]; simpl in *.
  destruct (proj2 (HP _ _ Hps)) as [Hcur Hlong].
  edestruct updateGlobalStats_core as (HI2 & Hglob & Hgames2); [| exact H2 |].
  { constructor; simpl; try assumption.
    - apply map_Forall_insert_keep; [done |]. split; simpl; [done | lia].
    - apply map_Forall_insert_keep; [by apply games_wf_insert_player |].
      repeat split. simpl. rewrite lookup_insert_eq. eauto. }
  destruct (updateDailyStats_core _ _ _ _ _ _ HI2 H) as (HI3 & Hgl3 & Hg3).
  split; [done |]. intros ???. unfold global_exists. by rewrite Hgl3.
Qed.

Lemma handleAnswerSubmitted_inv ev s s' :
  Inv s -> s =[ handleAnswerSubmitted ev ]=> s' -> Inv s'.
Proof.
  intros [HI HG] H. unfold handleAnswerSubmitted in H. hrun_in H.
  destruct (games s !! _) as [g|] eqn:Hg; [| by injection H as <-].
  apply exec_toI32_bind_inv in H as [_ H].
  apply exec_array_get_bind_inv in H as (qid & _ & _ & H). hrun_in H.
  pose proof (inv_games _ HI _ _ Hg) as Hgw.
  edestruct updateQuestionStats_core as (HI' & Hgl & Hgs); [| exact H |].
  { destruct HI as [HP HGm HGl HA HD HQ]. constructor; simpl; try assumption.
    - apply map_Forall_insert_keep; [done |]. destruct Hgw as [Hid Hgw'].
      rewrite ?Hid. apply game_wf_countAnswer. by split.
    - match goal with |- keyed (<[_ := ?a]> _) => exact (keyed_insert _ a HA) end. }
  split; [done |]. intros ???. unfold global_exists. rewrite Hgl. exact (HG _ _ Hg).
Qed.

Lemma player_wf_self k p : player_wf k p -> player_wf (Player.id p) p.
Proof. unfold player_wf. intros [_ ?]. by split. Qed.

Lemma game_wf_self ps k g : game_wf ps k g -> game_wf ps (Game.id g) g.
Proof. unfold game_wf. intros [_ ?]. by split. Qed.

Lemma global_wf_self k g : global_wf k g -> global_wf (GlobalStats.id g) g.
Proof. unfold global_wf. intros [_ ?]. by split. Qed.

#[export] Hint Resolve player_wf_self game_wf_self global_wf_self : carmen.

(** Turn each lookup in a table of an [InvCore] store into the entity's
    well-formedness at its own id. *)
Ltac wf_facts HI :=
  repeat match goal with
  | Hx : players _ !! _ = Some ?p |- _ =>
      pose proof (player_wf_self _ _ (inv_players _ HI _ _ Hx)); clear Hx
  | Hx : games _ !! _ = Some ?g |- _ =>
      pose proof (game_wf_self _ _ _ (inv_games _ HI _ _ Hx)); clear Hx
  | Hx : globals _ !! _ = Some ?g |- _ =>
      pose proof (global_wf_self _ _ (inv_globals _ HI _ _ Hx)); clear Hx
  end.

(** The two terminal handlers have the same shape: save the finished game,
    update its player if present, bump a global counter if the global
    record is present, update the day's record. *)
Ltac terminal_inv :=
  let HI := fresh "HI" in let HG := fresh "HG" in let H := fresh "H" in
  intros [HI HG] H; hrun_in H;
  destruct (games _ !! _) as [g|] eqn:Hg; [| by injection H as <-];
  pose proof (HG _ _ Hg) as Hglob; unfold global_exists in Hglob;
  hrun_in H;
  destruct (players _ !! Game.player g) as [p|] eqn:Hp; hrun_in H;
  destruct (globals _ !! GLOBAL_STATS_ID) as [gl|] eqn:Hgl;
  try (exfalso; destruct Hglob; congruence);
  hrun_in H;
  pose proof (inv_globals _ HI _ _ Hgl) as [Hglid _];
  edestruct updateDailyStats_core as (HI' & Hgl' & Hgs'); try exact H;
  match goal with
  | |- InvCore _ =>
      wf_facts HI; destruct HI as [HP HGm HGl HA HD HQ]; constructor; simpl;
      try assumption;
      repeat (apply map_Forall_insert_keep || apply games_wf_insert_player);
      try assumption; eauto with carmen;
      try (split; simpl; [done | lia])
  | |- Inv _ =>
      split; [done |]; intros ???; unfold global_exists; rewrite Hgl';
      simpl; rewrite Hglid, lookup_insert_eq; eauto
  end.

Lemma handleGameCompleted_inv ev s s' :
  Inv s -> s =[ handleGameCompleted ev ]=> s' -> Inv s'.
Proof. unfold handleGameCompleted. terminal_inv. Qed.

Lemma handleCarmenEscaped_inv ev s s' :
  Inv s -> s =[ handleCarmenEscaped ev ]=> s' -> Inv s'.
Proof. unfold handleCarmenEscaped. terminal_inv. Qed.

Lemma empty_store_inv : Inv empty_store.
Proof. split; [constructor; apply map_Forall_empty | intros ?? Hk; done]. Qed.

Lemma handleEvent_inv e s s' : Inv s -> s =[ handleEvent e ]=> s' -> Inv s'.
Proof.
  destruct e; simpl.
  - apply handleGameStarted_inv.
  - apply handleAnswerSubmitted_inv.
  - apply handleGameCompleted_inv.
  - apply handleCarmenEscaped_inv.
Qed.

Lemma replay_preserves_inv log s s' : Inv s -> replay log s = Some s' -> Inv s'.
Proof.
  revert s. induction log as [|e log IH]; simpl; intros s HI H.
  - by injection H as <-.
  - destruct (exec (handleEvent e) s) as [s1|] eqn:H1; [| done].
    eapply IH; [eapply handleEvent_inv |]; eauto.
Qed.

Lemma replay_inv log s : replay log empty_store = Some s -> Inv s.
Proof. apply replay_preserves_inv, empty_store_inv. Qed.

(** ** The invariant, property by property, on every reachable store *)

(** C1: after any log of events, every game's [totalAnswers] equals
    [correctAnswers + wrongAnswers], and its [score] equals
    [correctAnswers]. *)
Theorem replay_answer_counts log s k g :
  replay log empty_store = Some s -> games s !! k = Some g ->
  Game.totalAnswers g = Game.correctAnswers g + Game.wrongAnswers g /\
  Game.score g = Game.correctAnswers g.
Proof.
  intros Hr Hg. destruct (replay_inv _ _ Hr) as [HI _].
  destruct (inv_games _ HI _ _ Hg) as (_ & ? & ? & _). done.
Qed.

(** After the spec's won game: ten answers, all correct. *)
Lemma replay_answer_counts_witness :
  exists g, games store_win !! "1" = Some g /\ Game.totalAnswers g = 10 /\
    (Game.totalAnswers g = Game.correctAnswers g + Game.wrongAnswers g /\
     Game.score g = Game.correctAnswers g).
Proof.
  eexists. split; [reflexivity |]. split; [reflexivity |].
  apply (replay_answer_counts scenario_win store_win "1");
    [exact replay_scenario_win | reflexivity].
Defined.

(** C2: after any log of events, every player's [currentWinStreak] is
    non-negative and at most its [longestWinStreak]. *)
Theorem replay_streak_bounded log s k p :
  replay log empty_store = Some s -> players s !! k = Some p ->
  0 <= Player.currentWinStreak p <= Player.longestWinStreak p.
Proof.
  intros Hr Hp. destruct (replay_inv _ _ Hr) as [HI _].
  exact (proj2 (inv_players _ HI _ _ Hp)).
Qed.

(** After three wins in a row. *)
Lemma replay_streak_bounded_witness :
  exists p, players store_streak !! player_aa = Some p /\ Player.currentWinStreak p = 3 /\
    0 <= Player.currentWinStreak p <= Player.longestWinStreak p.
Proof.
  eexists. split; [reflexivity |]. split; [reflexivity |].
  apply (replay_streak_bounded scenario_streak store_streak player_aa);
    [exact replay_scenario_streak | reflexivity].
Defined.

(** C13: after any log of events, every game's player record exists and the
    global record exists. So the [if (player)] and [if (globalStats)]
    guards of the terminal handlers are always taken. *)
Theorem replay_game_references log s k g :
  replay log empty_store = Some s -> games s !! k = Some g ->
  is_Some (players s !! Game.player g) /\ is_Some (globals s !! GLOBAL_STATS_ID).
Proof.
  intros Hr Hg. destruct (replay_inv _ _ Hr) as [HI HG].
  split; [exact (proj2 (proj2 (proj2 (inv_games _ HI _ _ Hg)))) | exact (HG _ _ Hg)].
Qed.

(** In the spec's won game, game 1 refers to [0xaa] and the global record. *)
Lemma replay_game_references_witness :
  exists g, games store_win !! "1" = Some g /\ Game.player g = player_aa /\
    (is_Some (players store_win !! Game.player g) /\ is_Some (globals store_win !! GLOBAL_STATS_ID)).
Proof.
  eexists. split; [reflexivity |]. split; [reflexivity |].
  apply (replay_game_references scenario_win store_win "1");
    [exact replay_scenario_win | reflexivity].
Defined.

(** The fields the source never updates keep their initial value after
    any log: [GlobalStats.totalPlayers], a day's [uniquePlayers],
    [totalScore] and [averageScore], and a question's [averageAnswerTime]
    (the [answerTime] argument of [updateQuestionStats] is unused). *)
Theorem replay_unmaintained_fields log s :
  replay log empty_store = Some s ->
  map_Forall (fun _ g => GlobalStats.totalPlayers g = 0) (globals s) /\
  map_Forall (fun _ d => DailyStats.uniquePlayers d = 0 /\ DailyStats.totalScore d = 0 /\
                         DailyStats.averageScore d = ZERO_BD) (dailies s) /\
  map_Forall (fun _ q => QuestionStats.averageAnswerTime q = ZERO_BD) (qstats s).
Proof.
  intros Hr. destruct (replay_inv _ _ Hr) as [HI _]. split; [| split].
  - eapply map_Forall_impl; [apply HI |]. by intros ?? [_ ?].
  - eapply map_Forall_impl; [apply HI |]. by intros ?? [_ ?].
  - eapply map_Forall_impl; [apply HI |]. by intros ?? (_ & _ & ?).
Qed.

(** After three wins, one player and three games exist, and the global
    [totalPlayers] is still 0. *)
Lemma replay_unmaintained_fields_witness :
  map_size (players store_streak) = 1%nat /\
  map_Forall (fun _ g => GlobalStats.totalPlayers g = 0) (globals store_streak).
Proof.
  split; [vm_compute; reflexivity |].
  exact (proj1 (replay_unmaintained_fields scenario_streak store_streak replay_scenario_streak)).
Defined.
