(* ===== verification/Behaviour.v ===== *)
(** * Behaviour: what each handler of [mapping.ts] does, branch by branch

    For each handler: what it writes to each table when the game it names
    is known, that it leaves the store unchanged when the game is unknown,
    and when it traps. A handler returns a store whenever its inputs are in
    range. The theorems are stated on stores that satisfy [Inv], which are
    the stores [replay] reaches. *)

From S2P Require Import Prelude Schema Mapping MappingFacts Scenarios Invariants.

(** ** The terminal handlers *)

(** The run of a terminal handler on a known game whose player exists:
    the finished game, the updated player and the global record it
    writes. *)
Ltac terminal_effect Hg Hp :=
  let HI := fresh "HI" in let H := fresh "H" in
  intros HI Hg Hp H; hrun_in H; rewrite Hg in H; hrun_in H; rewrite Hp in H; hrun_in H;
  destruct (inv_players _ HI _ _ Hp) as [Hpid _];
  destruct (inv_games _ HI _ _ Hg) as [Hgid _];
  destruct (globals _ !! GLOBAL_STATS_ID) as [gl|] eqn:Hgl; hrun_in H;
  apply updateDailyStats_frame in H as (Hps & Hgs & _ & Hgls & _);
  rewrite Hps, Hgs, Hgls; simpl; rewrite Hpid, Hgid;
  (split; [done |]); (split; [done |]);
  intros gl' Hgl'; simplify_eq;
  pose proof (inv_globals _ HI _ _ Hgl) as [Hglid _]; rewrite Hglid;
  eexists; split; [reflexivity | simpl; unfold ONE_BI; repeat split; lia].

Lemma handleGameCompleted_effect ev s s' g p :
  InvCore s ->
  games s !! pretty (GameCompleted.gameId ev) = Some g ->
  players s !! Game.player g = Some p ->
  s =[ handleGameCompleted ev ]=> s' ->
  let g' := finishGame COMPLETED_WIN true (GameCompleted.timestamp ev) g in
  players s' = <[Game.player g := recordWin g' p]> (players s) /\
  games s' = <[pretty (GameCompleted.gameId ev) := g']> (games s) /\
  forall gl, globals s !! GLOBAL_STATS_ID = Some gl ->
    exists gl', globals s' = <[GLOBAL_STATS_ID := gl']> (globals s) /\
      GlobalStats.totalCarmenCaught gl' = GlobalStats.totalCarmenCaught gl + 1 /\
      GlobalStats.totalCarmenEscaped gl' = GlobalStats.totalCarmenEscaped gl /\
      GlobalStats.totalGames gl' = GlobalStats.totalGames gl /\
      GlobalStats.globalWinRate gl' = GlobalStats.globalWinRate gl.
Proof. unfold handleGameCompleted. terminal_effect Hg Hp. Qed.

Lemma handleCarmenEscaped_effect ev s s' g p :
  InvCore s ->
  games s !! pretty (CarmenEscaped.gameId ev) = Some g ->
  players s !! Game.player g = Some p ->
  s =[ handleCarmenEscaped ev ]=> s' ->
  let g' := finishGame COMPLETED_LOSS false (CarmenEscaped.timestamp ev) g in
  players s' = <[Game.player g := recordLoss g' p]> (players s) /\
  games s' = <[pretty (CarmenEscaped.gameId ev) := g']> (games s) /\
  forall gl, globals s !! GLOBAL_STATS_ID = Some gl ->
    exists gl', globals s' = <[GLOBAL_STATS_ID := gl']> (globals s) /\
      GlobalStats.totalCarmenEscaped gl' = GlobalStats.totalCarmenEscaped gl + 1 /\
      GlobalStats.totalCarmenCaught gl' = GlobalStats.totalCarmenCaught gl /\
      GlobalStats.totalGames gl' = GlobalStats.totalGames gl /\
      GlobalStats.globalWinRate gl' = GlobalStats.globalWinRate gl.
Proof. unfold handleCarmenEscaped. terminal_effect Hg Hp. Qed.

(** C3: on a reachable store, [CarmenEscaped] for a known game resets its
    player's current win streak to 0. It adds one loss and the game's score
    to the total, and leaves wins, games played, best score and longest
    streak alone. When the player has played, [winRate] and [averageScore]
    are recomputed from the updated counts. *)
Theorem handleCarmenEscaped_records_loss ev s s' g p :
  Inv s ->
  games s !! pretty (CarmenEscaped.gameId ev) = Some g ->
  players s !! Game.player g = Some p ->
  s =[ handleCarmenEscaped ev ]=> s' ->
  exists p', players s' !! Game.player g = Some p' /\
    Player.currentWinStreak p' = 0 /\
    Player.longestWinStreak p' = Player.longestWinStreak p /\
    Player.gamesLost p' = Player.gamesLost p + 1 /\
    Player.gamesWon p' = Player.gamesWon p /\
    Player.gamesPlayed p' = Player.gamesPlayed p /\
    Player.bestScore p' = Player.bestScore p /\
    Player.totalScore p' = Player.totalScore p + Game.score g /\
    (0 < Player.gamesPlayed p ->
       Player.winRate p' = bd_percent (Player.gamesWon p') (Player.gamesPlayed p') /\
       Player.averageScore p' = bd_ratio (Player.totalScore p') (Player.gamesPlayed p')).
Proof.
  intros [HI _] Hg Hp H.
  destruct (handleCarmenEscaped_effect _ _ _ _ _ HI Hg Hp H) as (Hp' & _ & _).
  rewrite Hp', lookup_insert_eq. eexists; split; [reflexivity |]. unfold recordLoss, ONE_BI, ZERO_BI; simpl.
  do 7 (split; [done |]). intros Hpos. by rewrite gtb_pos.
Qed.

(** The spec's scenario: a player on a streak of 3 loses game 2. *)
Lemma handleCarmenEscaped_records_loss_witness :
  exists p', players store_post_escape !! player_aa = Some p' /\
    Player.currentWinStreak p' = 0 /\ Player.longestWinStreak p' = 3 /\
    Player.gamesLost p' = 1.
Proof.
  destruct (handleCarmenEscaped_records_loss escape_game_2 store_pre_escape store_post_escape
              (default (Game.mk "" 0 "" [] ACTIVE 0 false 0 None None 0 0 0)
                 (games store_pre_escape !! "2"))
              (default (new_player "") (players store_pre_escape !! player_aa)))
    as (p' & Hp' & Hcur & Hlong & Hlost & _).
  - apply (replay_inv scenario_pre_escape). vm_compute. reflexivity.
  - vm_compute. reflexivity.
  - vm_compute. reflexivity.
  - vm_compute. reflexivity.
  - exists p'. split; [exact Hp' |]. rewrite Hcur, Hlong, Hlost. vm_compute. auto.
Defined.

(** C4: on a reachable store, [GameCompleted] for a known game adds one win
    to its player. The current streak grows by one. The best score becomes
    the larger of itself and the game's score, and the longest streak the
    larger of itself and the new current streak. The game's score is added
    to the total, losses and games played stay unchanged. When the player
    has played, [winRate] and [averageScore] are recomputed from the updated
    counts. *)
Theorem handleGameCompleted_records_win ev s s' g p :
  Inv s ->
  games s !! pretty (GameCompleted.gameId ev) = Some g ->
  players s !! Game.player g = Some p ->
  s =[ handleGameCompleted ev ]=> s' ->
  exists p', players s' !! Game.player g = Some p' /\
    Player.gamesWon p' = Player.gamesWon p + 1 /\
    Player.currentWinStreak p' = Player.currentWinStreak p + 1 /\
    Player.bestScore p' = Z.max (Game.score g) (Player.bestScore p) /\
    Player.longestWinStreak p' =
      Z.max (Player.currentWinStreak p + 1) (Player.longestWinStreak p) /\
    Player.totalScore p' = Player.totalScore p + Game.score g /\
    Player.gamesLost p' = Player.gamesLost p /\
    Player.gamesPlayed p' = Player.gamesPlayed p /\
    (0 < Player.gamesPlayed p ->
       Player.winRate p' = bd_percent (Player.gamesWon p') (Player.gamesPlayed p') /\
       Player.averageScore p' = bd_ratio (Player.totalScore p') (Player.gamesPlayed p')).
Proof.
  intros [HI _] Hg Hp H.
  destruct (handleGameCompleted_effect _ _ _ _ _ HI Hg Hp H) as (Hp' & _ & _).
  rewrite Hp', lookup_insert_eq. eexists; split; [reflexivity |]. unfold recordWin, ONE_BI, ZERO_BI; simpl.
  rewrite !gtb_select_max. do 7 (split; [done |]). intros Hpos. by rewrite gtb_pos.
Qed.

(** The spec's scenario: game 1 of [0xaa] is won with ten correct answers. *)
Lemma handleGameCompleted_records_win_witness :
  exists p', players store_post_win !! player_aa = Some p' /\
    Player.gamesWon p' = 1 /\ Player.bestScore p' = 10 /\ Player.currentWinStreak p' = 1.
Proof.
  destruct (handleGameCompleted_records_win complete_game_1 store_pre_win store_post_win
              (default (Game.mk "" 0 "" [] ACTIVE 0 false 0 None None 0 0 0)
                 (games store_pre_win !! "1"))
              (default (new_player "") (players store_pre_win !! player_aa)))
    as (p' & Hp' & Hwon & Hcur & Hbest & _).
  - apply (replay_inv scenario_pre_win). vm_compute. reflexivity.
  - vm_compute. reflexivity.
  - vm_compute. reflexivity.
  - vm_compute. reflexivity.
  - exists p'. split; [exact Hp' |]. rewrite Hwon, Hbest, Hcur. vm_compute. auto.
Defined.

(** ** [handleGameStarted] *)

Lemma player_id_default a s :
  InvCore s -> Player.id (default (new_player a) (players s !! toHex a)) = toHex a.
Proof.
  intros HI. destruct (players s !! toHex a) eqn:Hp; simpl; [| done].
  exact (proj1 (inv_players _ HI _ _ Hp)).
Qed.

Lemma global_id_default s :
  InvCore s -> GlobalStats.id (default new_global_stats (globals s !! GLOBAL_STATS_ID)) = GLOBAL_STATS_ID.
Proof.
  intros HI. destruct (globals s !! GLOBAL_STATS_ID) eqn:Hg; simpl; [| done].
  exact (proj1 (inv_globals _ HI _ _ Hg)).
Qed.

(** What [GameStarted] writes, table by table. *)
Lemma handleGameStarted_tables ev s s' :
  InvCore s -> s =[ handleGameStarted ev ]=> s' ->
  let pid := toHex (GameStarted.player ev) in
  let p0 := default (new_player (GameStarted.player ev)) (players s !! pid) in
  let gl0 := default new_global_stats (globals s !! GLOBAL_STATS_ID) in
  let t := GameStarted.timestamp ev in
  (exists p', players s' = <[pid := p']> (players s) /\
     Player.gamesPlayed p' = Player.gamesPlayed p0 + 1 /\
     Player.lastGameAt p' = t /\
     Player.firstGameAt p' =
       (if Player.firstGameAt p0 =? 0 then t else Player.firstGameAt p0) /\
     Player.gamesWon p' = Player.gamesWon p0 /\ Player.gamesLost p' = Player.gamesLost p0 /\
     Player.currentWinStreak p' = Player.currentWinStreak p0 /\
     Player.winRate p' = Player.winRate p0) /\
  (exists g', games s' = <[pretty (GameStarted.gameId ev) := g']> (games s) /\
     Game.status g' = ACTIVE /\ Game.player g' = pid /\ Game.score g' = 0 /\
     Game.totalAnswers g' = 0 /\ Game.startTime g' = t /\ Game.endTime g' = None /\
     Game.questionIds g' = GameStarted.questionIds ev) /\
  (exists gl', globals s' = <[GLOBAL_STATS_ID := gl']> (globals s) /\
     GlobalStats.totalGames gl' = GlobalStats.totalGames gl0 + 1 /\
     GlobalStats.totalCarmenCaught gl' = GlobalStats.totalCarmenCaught gl0).
Proof.
  intros HI H. cbv zeta. unfold handleGameStarted in H.
  rewrite getOrCreatePlayer_run in H. hrun_in H.
  rewrite exec_seq in H. destruct (exec (updateGlobalStats _) _) as [s2|] eqn:H2; [| done].
  apply updateGlobalStats_frame in H2 as (Hp2 & Hg2 & _ & _ & _ & gl & Hgl2 & Hid & _ & Htg & Hc & _).
  apply updateDailyStats_frame in H as (Hp3 & Hg3 & _ & Hgl3 & _). tsimpl.
  rewrite player_id_default in Hp2 by done. rewrite insert_insert_eq in Hp2.
  rewrite Hp3, Hp2, Hg3, Hg2, Hgl3, Hgl2, Hid, global_id_default by done.
  split; [| split]; eexists; (split; [reflexivity |]); simpl; unfold ONE_BI, ZERO_BI;
    rewrite ?player_id_default by done; repeat split; lia.
Qed.

(** C5: on a reachable store, [GameStarted] creates the game as [ACTIVE]
    with zero counters, owned by the player. The player (created if new)
    gets one more game played and [lastGameAt = timestamp]. Its
    [firstGameAt] is set only while it is still 0, and its results are
    unchanged. The global [totalGames] grows by one. *)
Theorem handleGameStarted_effect ev s s' :
  Inv s -> s =[ handleGameStarted ev ]=> s' ->
  let pid := toHex (GameStarted.player ev) in
  let p0 := default (new_player (GameStarted.player ev)) (players s !! pid) in
  let t := GameStarted.timestamp ev in
  (exists p', players s' !! pid = Some p' /\
     Player.gamesPlayed p' = Player.gamesPlayed p0 + 1 /\
     Player.lastGameAt p' = t /\
     Player.firstGameAt p' =
       (if Player.firstGameAt p0 =? 0 then t else Player.firstGameAt p0) /\
     Player.gamesWon p' = Player.gamesWon p0 /\ Player.gamesLost p' = Player.gamesLost p0 /\
     Player.currentWinStreak p' = Player.currentWinStreak p0) /\
  (exists g', games s' !! pretty (GameStarted.gameId ev) = Some g' /\
     Game.status g' = ACTIVE /\ Game.player g' = pid /\ Game.score g' = 0 /\
     Game.totalAnswers g' = 0 /\ Game.startTime g' = t /\ Game.endTime g' = None /\
     Game.questionIds g' = GameStarted.questionIds ev) /\
  (exists gl', globals s' !! GLOBAL_STATS_ID = Some gl' /\
     GlobalStats.totalGames gl' =
       GlobalStats.totalGames (default new_global_stats (globals s !! GLOBAL_STATS_ID)) + 1).
Proof.
  intros [HI _] H. cbv zeta.
  destruct (handleGameStarted_tables _ _ _ HI H) as
    ((p' & Hp & Hp1 & Hp2 & Hp3 & Hp4 & Hp5 & Hp6 & _) & (g' & Hg & Hgs) & (gl' & Hgl & Hgl1 & _)).
  rewrite Hp, Hg, Hgl, !lookup_insert_eq.
  split; [| split]; eexists; (split; [reflexivity |]); done.
Qed.

(** The spec's scenario: the first game of [0xaa]. *)
Lemma handleGameStarted_effect_witness :
  exists p', players store_after_start !! player_aa = Some p' /\ Player.gamesPlayed p' = 1.
Proof.
  destruct (handleGameStarted_effect start_game_1 empty_store store_after_start) as
    ((p' & Hp' & Hgp & _) & _ & _).
  - apply empty_store_inv.
  - vm_compute. reflexivity.
  - exists p'. split; [exact Hp' |]. rewrite Hgp. reflexivity.
Defined.

(** ** Events for unknown games *)

(** The game an event refers to, for the three events that load one. *)
Definition event_game (e : Event) : option Z :=
  match e with
  | EvGameStarted _ => None
  | EvAnswerSubmitted ev => Some (AnswerSubmitted.gameId ev)
  | EvGameCompleted ev => Some (GameCompleted.gameId ev)
  | EvCarmenEscaped ev => Some (CarmenEscaped.gameId ev)
  end.

(** C6: an [AnswerSubmitted], [GameCompleted] or [CarmenEscaped] event for a
    game id that was never started leaves the store unchanged. It creates
    no entity, changes no counter and does not trap. *)
Theorem unknown_game_ignored e s gid :
  event_game e = Some gid -> games s !! pretty gid = None ->
  exec (handleEvent e) s = Some s.
Proof.
  destruct e as [ev|ev|ev|ev]; simpl; intros Hgid Hg; simplify_eq;
    [unfold handleAnswerSubmitted | unfold handleGameCompleted | unfold handleCarmenEscaped];
    hrun; by rewrite Hg.
Qed.

(** The spec's scenario: an answer for game 999 after game 1 was won. *)
Lemma unknown_game_ignored_witness :
  exec (handleEvent (EvAnswerSubmitted answer_unknown_game)) store_win = Some store_win.
Proof. apply (unknown_game_ignored _ _ 999); vm_compute; reflexivity. Defined.

(** ** When a handler traps *)

(** The inputs on which a handler does not trap: the timestamp fits an i32
    whenever [updateDailyStats] is reached, and an answer's index lies in
    the game's question list (and fits an i32). *)
Definition event_in_range (s : Store) (e : Event) : Prop :=
  match e with
  | EvGameStarted ev => I32_MIN <= GameStarted.timestamp ev <= I32_MAX
  | EvAnswerSubmitted ev =>
      forall g, games s !! pretty (AnswerSubmitted.gameId ev) = Some g ->
        0 <= AnswerSubmitted.questionIndex ev <= I32_MAX /\
        AnswerSubmitted.questionIndex ev < Z.of_nat (length (Game.questionIds g))
  | EvGameCompleted ev =>
      forall g, games s !! pretty (GameCompleted.gameId ev) = Some g ->
        I32_MIN <= GameCompleted.timestamp ev <= I32_MAX
  | EvCarmenEscaped ev =>
      forall g, games s !! pretty (CarmenEscaped.gameId ev) = Some g ->
        I32_MIN <= CarmenEscaped.timestamp ev <= I32_MAX
  end.

Lemma forall_some_eq {A} (o : A) (P : A -> Prop) : (forall g, Some o = Some g -> P g) <-> P o.
Proof. split; [eauto | by intros ? ? [= <-]]. Qed.

Ltac terminal_total :=
  hrun; destruct (games _ !! _) as [g|]; simpl;
  [rewrite forall_some_eq | split; [done | eauto]];
  hrun; destruct (players _ !! _); hrun; destruct (globals _ !! _); hrun;
  apply updateDailyStats_succeeds_iff.

(** C7: a handler returns a store exactly when its inputs are in range.
    [GameStarted] needs a timestamp that fits an i32 ([BigInt.toI32] in
    [updateDailyStats]). So do the terminal events of known games. An
    answer for a known game needs [0 <= questionIndex < 10] for the
    game's ten question ids, or the array read [game.questionIds[i]]
    traps. Events for unknown games never trap. *)
Theorem handleEvent_succeeds_iff e s :
  is_Some (exec (handleEvent e) s) <-> event_in_range s e.
Proof.
  destruct e as [ev|ev|ev|ev]; simpl.
  - unfold handleGameStarted. rewrite getOrCreatePlayer_run. hrun. rewrite exec_seq.
    match goal with |- context [exec (updateGlobalStats ?t) ?s1] =>
      destruct (updateGlobalStats_total t s1) as [s2 Hs2]; rewrite Hs2 end.
    apply updateDailyStats_succeeds_iff.
  - unfold handleAnswerSubmitted. hrun.
    destruct (games s !! _) as [g|]; simpl; [rewrite forall_some_eq | split; [done | eauto]].
    destruct (decide (I32_MIN <= AnswerSubmitted.questionIndex ev <= I32_MAX)) as [Hr|Hr];
      [rewrite exec_toI32_bind by done | rewrite exec_toI32_bind_trap by done;
       split; [by intros [] | unfold I32_MIN, I32_MAX in *; lia]].
    destruct (decide (0 <= AnswerSubmitted.questionIndex ev <
                      Z.of_nat (length (Game.questionIds g)))) as [Hi|Hi].
    + destruct (array_get_in_range (Game.questionIds g) _ s Hi) as (a & Ha & _).
      rewrite (exec_array_get_bind _ _ a) by (done || lia). hrun.
      split; [intros _; unfold I32_MIN in *; lia | intros _; apply updateQuestionStats_total].
    + split; [| lia]. intros Hs. exfalso.
      destruct (Z.le_gt_cases 0 (AnswerSubmitted.questionIndex ev)).
      * rewrite exec_array_get_bind_trap in Hs by lia. by destruct Hs.
      * hunfold. unfold array_get in Hs.
        destruct (Z.leb_spec 0 (AnswerSubmitted.questionIndex ev)); [lia |]. by destruct Hs.
  - unfold handleGameCompleted. terminal_total.
  - unfold handleCarmenEscaped. terminal_total.
Qed.

(** ** [handleAnswerSubmitted] *)

Lemma question_id_default qid s :
  InvCore s ->
  QuestionStats.id (default (new_question_stats qid) (qstats s !! pretty qid)) = pretty qid.
Proof.
  intros HI. destruct (qstats s !! pretty qid) eqn:Hq; simpl; [| done].
  exact (proj1 (inv_qstats _ HI _ _ Hq)).
Qed.

(** C8: on a reachable store, an answer to a known game reads the question
    id at [questionIndex] of the game's list. It stores the [Answer]
    under ["gameId-questionIndex"], with [timeFromStart] measured from
    the game's start. It adds one to the game's [totalAnswers] and to
    either [correctAnswers] and [score] or [wrongAnswers]. It adds one to
    [timesAsked] of that question. *)
Theorem handleAnswerSubmitted_effect ev s s' g :
  Inv s ->
  games s !! pretty (AnswerSubmitted.gameId ev) = Some g ->
  s =[ handleAnswerSubmitted ev ]=> s' ->
  let c := AnswerSubmitted.correct ev in
  let i := AnswerSubmitted.questionIndex ev in
  let t := AnswerSubmitted.timestamp ev in
  exists qid, 0 <= i /\ Game.questionIds g !! Z.to_nat i = Some qid /\
  (exists g', games s' !! pretty (AnswerSubmitted.gameId ev) = Some g' /\
     Game.totalAnswers g' = Game.totalAnswers g + 1 /\
     Game.correctAnswers g' = Game.correctAnswers g + (if c then 1 else 0) /\
     Game.wrongAnswers g' = Game.wrongAnswers g + (if c then 0 else 1) /\
     Game.score g' = Game.score g + (if c then 1 else 0) /\
     Game.status g' = Game.status g) /\
  answers s' !! answerId (AnswerSubmitted.gameId ev) i =
    Some (Answer.mk (answerId (AnswerSubmitted.gameId ev) i) (Game.id g) i qid
            (AnswerSubmitted.answer ev) c t (t - Game.startTime g)) /\
  (exists q, qstats s' !! pretty qid = Some q /\
     QuestionStats.timesAsked q =
       QuestionStats.timesAsked (default (new_question_stats qid) (qstats s !! pretty qid)) + 1).
Proof.
  intros [HI _] Hg H. cbv zeta. unfold handleAnswerSubmitted in H. hrun_in H.
  rewrite Hg in H. apply exec_toI32_bind_inv in H as [_ H].
  apply exec_array_get_bind_inv in H as (qid & Hi & Hq & H). hrun_in H.
  apply updateQuestionStats_frame in H as (_ & Hgs & Ha & _ & _ & q & Hqs & Hid & Hasked & _).
  tsimpl. destruct (inv_games _ HI _ _ Hg) as [Hgid _].
  exists qid. split; [done |]. split; [done |].
  rewrite Hgs, Ha, Hqs, Hid, question_id_default, Hgid, !lookup_insert_eq by done.
  split; [| split; [done |]]; eexists; (split; [reflexivity |]); [| done].
  unfold countAnswer, ONE_BI; simpl. destruct (AnswerSubmitted.correct ev); simpl;
    repeat split; lia.
Qed.

(** The first answer of game 1 ([0xaa]): question id 1, counted correct. *)
Lemma handleAnswerSubmitted_effect_witness :
  exists qid g', qid = 1 /\ games store_after_first_answer !! "1" = Some g' /\
    Game.totalAnswers g' = 1 /\ Game.score g' = 1.
Proof.
  destruct (handleAnswerSubmitted_effect answer_first store_after_start store_after_first_answer
              (default (Game.mk "" 0 "" [] ACTIVE 0 false 0 None None 0 0 0)
                 (games store_after_start !! "1")))
    as (qid & _ & Hq & (g' & Hg' & Htot & _ & _ & Hscore & _) & _).
  - apply (replay_inv [EvGameStarted start_game_1]). vm_compute. reflexivity.
  - vm_compute. reflexivity.
  - vm_compute. reflexivity.
  - vm_compute in Hq. injection Hq as <-.
    exists 1, g'. split; [done |]. split; [exact Hg' |].
    rewrite Htot, Hscore. vm_compute. auto.
Defined.
