(* ===== verification/Counts.v ===== *)
(** * Counts: the counters refine counts over the event log

    The abstract specification of two aggregates is a count over the log
    of events. A player's [gamesPlayed] is the number of [GameStarted]
    events of that player. The global [totalGames] is the number of
    [GameStarted] events. The theorem [replay_counts_refine] shows that
    the stores [replay] computes implement this specification. It is
    proved by one step lemma per handler, over stores satisfying [Inv]. *)

From S2P Require Import Prelude Schema Mapping MappingFacts Scenarios Invariants Behaviour.

(** ** The abstract specification *)

Definition started_by (pid : string) (e : Event) : bool :=
  match e with
  | EvGameStarted ev => bool_decide (toHex (GameStarted.player ev) = pid)
  | _ => false
  end.

Definition is_start (e : Event) : bool :=
  match e with EvGameStarted _ => true | _ => false end.

(** ** What the store shows of the two aggregates (0 when absent) *)

Definition games_played (s : Store) (pid : string) : Z :=
  default 0 (Player.gamesPlayed <$> players s !! pid).

Definition total_games (s : Store) : Z :=
  default 0 (GlobalStats.totalGames <$> globals s !! GLOBAL_STATS_ID).

Lemma games_played_default a s :
  Player.gamesPlayed (default (new_player a) (players s !! toHex a)) = games_played s (toHex a).
Proof. unfold games_played. by destruct (players s !! toHex a). Qed.

Lemma total_games_default s :
  GlobalStats.totalGames (default new_global_stats (globals s !! GLOBAL_STATS_ID)) = total_games s.
Proof. unfold total_games. by destruct (globals s !! GLOBAL_STATS_ID). Qed.

(** Replacing a player by one with the same [gamesPlayed] changes no count. *)
Lemma games_played_insert_same s k p p' pid :
  players s !! k = Some p -> Player.gamesPlayed p' = Player.gamesPlayed p ->
  default 0 (Player.gamesPlayed <$> <[k := p']> (players s) !! pid) = games_played s pid.
Proof.
  intros Hk Hgp. unfold games_played. rewrite lookup_insert.
  case_decide; subst; [by rewrite Hk | done].
Qed.

(** ** One step per handler *)

Lemma handleAnswerSubmitted_frame ev s s' :
  s =[ handleAnswerSubmitted ev ]=> s' -> players s' = players s /\ globals s' = globals s.
Proof.
  unfold handleAnswerSubmitted. intros H. hrun_in H.
  destruct (games s !! _); [| by injection H as <-].
  apply exec_toI32_bind_inv in H as [_ H].
  apply exec_array_get_bind_inv in H as (qid & _ & _ & H). hrun_in H.
  by apply updateQuestionStats_frame in H as (? & _ & _ & ? & _).
Qed.

(** The counts after a terminal event, given what it wrote: an unknown
    game changes nothing, a known game rewrites its player with the same
    [gamesPlayed] and its global record with the same [totalGames]. *)
Ltac terminal_counts ev_ctor key effect :=
  let HI := fresh "HI" in let HG := fresh "HG" in let H := fresh "H" in
  intros [HI HG] H;
  let s := match type of H with exec _ ?s = _ => constr:(s) end in
  destruct (games s !! key) as [g|] eqn:Hg;
  [| let Hs := fresh in
     pose proof (unknown_game_ignored (ev_ctor _) _ _ eq_refl Hg) as Hs; simpl in Hs;
     rewrite Hs in H; by injection H as <-];
  destruct (proj2 (proj2 (proj2 (inv_games _ HI _ _ Hg)))) as [p Hp];
  destruct (HG _ _ Hg) as [gl Hgl];
  destruct (effect _ _ _ _ _ HI Hg Hp H) as (Hps & _ & Hgls);
  destruct (Hgls _ Hgl) as (gl' & Hgl' & _ & _ & Htg & _);
  split; [intros pid; unfold games_played; rewrite Hps;
          by apply games_played_insert_same with (p := p) |];
  unfold total_games; rewrite Hgl', lookup_insert_eq, Hgl; simpl; lia.

Lemma handleGameCompleted_counts ev s s' :
  Inv s -> s =[ handleGameCompleted ev ]=> s' ->
  (forall pid, games_played s' pid = games_played s pid) /\ total_games s' = total_games s.
Proof.
  terminal_counts EvGameCompleted (pretty (GameCompleted.gameId ev)) handleGameCompleted_effect.
Qed.

Lemma handleCarmenEscaped_counts ev s s' :
  Inv s -> s =[ handleCarmenEscaped ev ]=> s' ->
  (forall pid, games_played s' pid = games_played s pid) /\ total_games s' = total_games s.
Proof.
  terminal_counts EvCarmenEscaped (pretty (CarmenEscaped.gameId ev)) handleCarmenEscaped_effect.
Qed.

Lemma handleGameStarted_counts ev s s' :
  Inv s -> s =[ handleGameStarted ev ]=> s' ->
  (forall pid, games_played s' pid =
     games_played s pid + (if bool_decide (toHex (GameStarted.player ev) = pid) then 1 else 0)) /\
  total_games s' = total_games s + 1.
Proof.
  intros [HI _] H.
  destruct (handleGameStarted_tables _ _ _ HI H) as
    ((p' & Hp & Hgp & _) & _ & (gl' & Hgl & Htg & _)).
  rewrite games_played_default in Hgp. rewrite total_games_default in Htg.
  split.
  - intros pid. unfold games_played at 1. rewrite Hp, lookup_insert.
    case_decide as Heq;
      [subst; rewrite bool_decide_eq_true_2 by done | rewrite bool_decide_eq_false_2 by done];
      unfold games_played in *; simpl; lia.
  - unfold total_games at 1. rewrite Hgl, lookup_insert_eq. simpl. lia.
Qed.

Lemma handleEvent_counts e s s' :
  Inv s -> s =[ handleEvent e ]=> s' ->
  (forall pid, games_played s' pid = games_played s pid + (if started_by pid e then 1 else 0)) /\
  total_games s' = total_games s + (if is_start e then 1 else 0).
Proof.
  intros HI H. destruct e as [ev|ev|ev|ev]; cbn [handleEvent started_by is_start] in *.
  - by apply handleGameStarted_counts.
  - apply handleAnswerSubmitted_frame in H as [Hp Hgl].
    unfold games_played, total_games. rewrite Hp, Hgl. split; [intros pid |]; simpl; lia.
  - destruct (handleGameCompleted_counts _ _ _ HI H) as [Hp ->].
    split; [intros pid; rewrite Hp |]; lia.
  - destruct (handleCarmenEscaped_counts _ _ _ HI H) as [Hp ->].
    split; [intros pid; rewrite Hp |]; lia.
Qed.

Lemma replay_counts log s0 s :
  Inv s0 -> replay log s0 = Some s ->
  (forall pid, games_played s pid = games_played s0 pid + countb (started_by pid) log) /\
  total_games s = total_games s0 + countb is_start log.
Proof.
  revert s0. induction log as [|e log IH]; simpl; intros s0 HI H.
  - injection H as <-. split; [intros pid |]; rewrite countb_nil; lia.
  - destruct (exec (handleEvent e) s0) as [s1|] eqn:H1; [| done].
    destruct (handleEvent_counts _ _ _ HI H1) as [Hp Ht].
    destruct (IH s1 (handleEvent_inv _ _ _ HI H1) H) as [Hp' Ht'].
    split; [intros pid; rewrite Hp', Hp, countb_cons | rewrite Ht', Ht, countb_cons]; lia.
Qed.

(** C9: the two counters refine their abstract specification. After any
    log of events, a player's [gamesPlayed] is the number of
    [GameStarted] events of that player. The global [totalGames] is the
    number of [GameStarted] events. *)
Theorem replay_counts_refine log s :
  replay log empty_store = Some s ->
  (forall pid, games_played s pid = countb (started_by pid) log) /\
  total_games s = countb is_start log.
Proof.
  intros H. destruct (replay_counts _ _ _ empty_store_inv H) as [Hp Ht].
  split; [intros pid; rewrite Hp |]; rewrite ?Ht; reflexivity.
Qed.

(** Three games played by [0xaa], counted from the log. *)
Lemma replay_counts_refine_witness :
  games_played store_streak player_aa = 3 /\ total_games store_streak = 3.
Proof.
  destruct (replay_counts_refine scenario_streak store_streak replay_scenario_streak)
    as [Hp Ht].
  rewrite Hp, Ht. split; vm_compute; reflexivity.
Defined.
