(* ===== verification/Findings.v ===== *)
(** * Findings: where [mapping.ts] departs from its specification

    The specification says that [Player.winRate] equals
    [gamesWon / gamesPlayed * 100] at every observation point, and that
    [globalWinRate] equals [totalCarmenCaught / totalGames * 100]. It also
    says that a transition event for a game already in a terminal state is
    ignored. The theorems below show that the code does none of the three:
    - [handleGameStarted] increments [gamesPlayed] without recomputing
      [winRate];
    - [handleGameCompleted] increments [totalCarmenCaught] without
      recomputing [globalWinRate] (only [updateGlobalStats], run at game
      start, recomputes it);
    - the terminal handlers never read [Game.status], so a redelivered
      [GameCompleted] counts a second win. *)

From S2P Require Import Prelude Schema Mapping MappingFacts Scenarios Invariants Behaviour.

(** [bd_percent a b] for [b > 0], as the fraction [100 a / b]. *)
Lemma bd_percent_qeq a b : 0 < b -> Qeq (bd_percent a b) (Qmake (a * 100) (Z.to_pos b)).
Proof.
  intros Hb. destruct b as [|pb|pb]; try lia.
  unfold bd_percent, HUNDRED_BD, Qeq, Qdiv, Qmult, Qinv. simpl. lia.
Qed.

(** Two percentages with positive denominators are equal exactly when the
    cross products are. *)
Lemma bd_percent_qeq_iff a b c d :
  0 < b -> 0 < d -> Qeq (bd_percent a b) (bd_percent c d) <-> a * d = c * b.
Proof.
  intros Hb Hd. rewrite (bd_percent_qeq a b Hb), (bd_percent_qeq c d Hd).
  unfold Qeq. simpl. rewrite !Z2Pos.id by lia. split; nia.
Qed.

(** C10: [winRate] is not recomputed when a game starts. On a reachable
    store, take a player with at least one win whose [winRate] matches its
    counts. When that player starts another game, the stored [winRate] no
    longer equals [gamesWon / gamesPlayed * 100]. The spec says it must. *)
Theorem winRate_stale_after_start ev s s' p :
  Inv s ->
  players s !! toHex (GameStarted.player ev) = Some p ->
  0 < Player.gamesWon p -> 0 < Player.gamesPlayed p ->
  Qeq (Player.winRate p) (bd_percent (Player.gamesWon p) (Player.gamesPlayed p)) ->
  s =[ handleGameStarted ev ]=> s' ->
  exists p', players s' !! toHex (GameStarted.player ev) = Some p' /\
    Player.gamesPlayed p' = Player.gamesPlayed p + 1 /\
    ~ Qeq (Player.winRate p') (bd_percent (Player.gamesWon p') (Player.gamesPlayed p')).
Proof.
  intros [HI _] Hp Hw Hn Hrate H.
  destruct (handleGameStarted_tables _ _ _ HI H)
    as ((p' & Hps & Hgp & _ & _ & Hwon & _ & _ & Hwr) & _ & _).
  cbv zeta in *. rewrite Hp in Hgp, Hwon, Hwr. simpl in Hgp, Hwon, Hwr.
  rewrite Hps, lookup_insert_eq. eexists; split; [reflexivity |]. split; [done |].
  rewrite Hwr, Hwon, Hgp. intros Heq.
  assert (Hbad : Qeq (bd_percent (Player.gamesWon p) (Player.gamesPlayed p))
                     (bd_percent (Player.gamesWon p) (Player.gamesPlayed p + 1))).
  { by rewrite <- Hrate. }
  rewrite bd_percent_qeq_iff in Hbad by lia. nia.
Qed.

Definition start_game_5 : GameStarted.t := GameStarted.mk player_aa 5 question_ids 2000.

(** After the spec's won game, [0xaa] starts game 5: its [winRate] stays
    at 100 while its counts give 50. *)
Lemma winRate_stale_after_start_witness :
  exists p', players (default empty_store (exec (handleGameStarted start_game_5) store_win))
               !! player_aa = Some p' /\
    Player.gamesPlayed p' = 2 /\
    ~ Qeq (Player.winRate p') (bd_percent (Player.gamesWon p') (Player.gamesPlayed p')).
Proof.
  destruct (winRate_stale_after_start start_game_5 store_win
              (default empty_store (exec (handleGameStarted start_game_5) store_win))
              (default (new_player "") (players store_win !! player_aa)))
    as (p' & Hp' & Hgp & Hne).
  - apply (replay_inv scenario_win). vm_compute. reflexivity.
  - vm_compute. reflexivity.
  - vm_compute. reflexivity.
  - vm_compute. reflexivity.
  - vm_compute. reflexivity.
  - vm_compute. reflexivity.
  - exists p'. split; [exact Hp' |]. split; [rewrite Hgp; vm_compute; reflexivity | exact Hne].
Defined.

(** C11: [globalWinRate] is not recomputed when Carmen is caught. On a
    reachable store whose [globalWinRate] matches its counts, a
    [GameCompleted] for a known game adds one to [totalCarmenCaught]. The
    stored [globalWinRate] then no longer equals
    [totalCarmenCaught / totalGames * 100]. *)
Theorem globalWinRate_stale_after_win ev s s' g gl :
  Inv s ->
  games s !! pretty (GameCompleted.gameId ev) = Some g ->
  globals s !! GLOBAL_STATS_ID = Some gl ->
  0 < GlobalStats.totalGames gl ->
  Qeq (GlobalStats.globalWinRate gl)
      (bd_percent (GlobalStats.totalCarmenCaught gl) (GlobalStats.totalGames gl)) ->
  s =[ handleGameCompleted ev ]=> s' ->
  exists gl', globals s' !! GLOBAL_STATS_ID = Some gl' /\
    GlobalStats.totalCarmenCaught gl' = GlobalStats.totalCarmenCaught gl + 1 /\
    ~ Qeq (GlobalStats.globalWinRate gl')
          (bd_percent (GlobalStats.totalCarmenCaught gl') (GlobalStats.totalGames gl')).
Proof.
  intros [HI HG] Hg Hgl Ht Hrate H.
  destruct (proj2 (proj2 (proj2 (inv_games _ HI _ _ Hg)))) as [p Hp].
  destruct (handleGameCompleted_effect _ _ _ _ _ HI Hg Hp H) as (_ & _ & Hgls).
  destruct (Hgls _ Hgl) as (gl' & Hgl' & Hc & _ & Htg & Hwr).
  rewrite Hgl', lookup_insert_eq. eexists; split; [reflexivity |]. split; [done |].
  rewrite Hwr, Hc, Htg. intros Heq.
  assert (Hbad : Qeq (bd_percent (GlobalStats.totalCarmenCaught gl) (GlobalStats.totalGames gl))
                     (bd_percent (GlobalStats.totalCarmenCaught gl + 1)
                                 (GlobalStats.totalGames gl))).
  { by rewrite <- Hrate. }
  rewrite bd_percent_qeq_iff in Hbad by lia. nia.
Qed.

(** In the spec's win scenario the global rate stays at 0 after the win. *)
Lemma globalWinRate_stale_after_win_witness :
  exists gl', globals store_post_win !! GLOBAL_STATS_ID = Some gl' /\
    GlobalStats.totalCarmenCaught gl' = 1 /\
    ~ Qeq (GlobalStats.globalWinRate gl')
          (bd_percent (GlobalStats.totalCarmenCaught gl') (GlobalStats.totalGames gl')).
Proof.
  destruct (globalWinRate_stale_after_win complete_game_1 store_pre_win store_post_win
              (default (Game.mk "" 0 "" [] ACTIVE 0 false 0 None None 0 0 0)
                 (games store_pre_win !! "1"))
              (default new_global_stats (globals store_pre_win !! GLOBAL_STATS_ID)))
    as (gl' & Hgl' & Hc & Hne).
  - apply (replay_inv scenario_pre_win). vm_compute. reflexivity.
  - vm_compute. reflexivity.
  - vm_compute. reflexivity.
  - vm_compute. reflexivity.
  - vm_compute. reflexivity.
  - vm_compute. reflexivity.
  - exists gl'. split; [exact Hgl' |]. split; [rewrite Hc; vm_compute; reflexivity | exact Hne].
Defined.

(** C12: a terminal event for a game that is already finished is not
    ignored. On every store [replay] reaches, a [GameCompleted] for a game
    whose status is already terminal counts one more win for its player,
    with [gamesPlayed] unchanged. When the player's counts met the spec's
    [gamesWon + gamesLost <= gamesPlayed] with equality before, they
    break it after. *)
Theorem duplicate_completion_counted_twice log s ev s' g p :
  replay log empty_store = Some s ->
  games s !! pretty (GameCompleted.gameId ev) = Some g -> Game.status g <> ACTIVE ->
  players s !! Game.player g = Some p ->
  Player.gamesWon p + Player.gamesLost p = Player.gamesPlayed p ->
  s =[ handleEvent (EvGameCompleted ev) ]=> s' ->
  exists p', players s' !! Game.player g = Some p' /\
    Player.gamesWon p' = Player.gamesWon p + 1 /\ Player.gamesPlayed p' = Player.gamesPlayed p /\
    Player.gamesWon p' + Player.gamesLost p' > Player.gamesPlayed p'.
Proof.
  intros Hr Hg _ Hp Hcnt H. destruct (replay_inv _ _ Hr) as [HI _].
  destruct (handleGameCompleted_effect _ _ _ _ _ HI Hg Hp H) as (Hps & _).
  eexists. rewrite Hps, lookup_insert_eq. split; [done |].
  unfold recordWin, ONE_BI. cbn. lia.
Qed.

(** The spec's won game 1, whose [GameCompleted] is delivered a second
    time. *)
Lemma duplicate_completion_counted_twice_witness :
  replay (scenario_pre_win ++ [EvGameCompleted complete_game_1]) empty_store = Some store_post_win /\
  exists p', players (default empty_store (exec (handleEvent (EvGameCompleted complete_game_1))
                                              store_post_win)) !! player_aa = Some p' /\
    Player.gamesWon p' = 2 /\ Player.gamesPlayed p' = 1.
Proof.
  assert (Hr : replay (scenario_pre_win ++ [EvGameCompleted complete_game_1]) empty_store =
               Some store_post_win) by (vm_compute; reflexivity).
  split; [exact Hr |].
  destruct (duplicate_completion_counted_twice _ _ complete_game_1
              (default empty_store (exec (handleEvent (EvGameCompleted complete_game_1))
                                      store_post_win))
              (default (Game.mk "" 0 "" [] ACTIVE 0 false 0 None None 0 0 0)
                 (games store_post_win !! "1"))
              (default (new_player "") (players store_post_win !! player_aa)) Hr)
    as (p' & Hp' & Hwon & Hplayed & _).
  - vm_compute. reflexivity.
  - vm_compute. discriminate.
  - vm_compute. reflexivity.
  - vm_compute. reflexivity.
  - vm_compute. reflexivity.
  - exists p'. split; [exact Hp' |]. rewrite Hwon, Hplayed. vm_compute. auto.
Defined.
