(* ===== verification/GameStatus.v ===== *)
(** * GameStatus: the life cycle of a [Game] against the specification

    The specification gives each game a state machine (section "State
    machine (per Game)"): [GameStarted] creates it [ACTIVE];
    [GameCompleted] takes an [ACTIVE] game to [COMPLETED_WIN] and
    [CarmenEscaped] to [COMPLETED_LOSS], both terminal; an answer leaves
    the status alone; a transition event for a terminal game is ignored;
    an event for an unknown game is a no-op. [spec_status_step] is that
    machine on the status of the game an event names, [None] for a game
    not in the store.

    [status_refines] shows that [Mapping.handleEvent] follows the machine
    on every reachable store, and touches the status of no other game,
    wherever the machine says what happens and the code does not read a
    terminal status. The two other cases are departures:
    [terminal_status_overwritten] shows a lost game turned into a won one
    by a late [GameCompleted], which the machine forbids; and a
    [GameStarted] for an existing id replaces the game. *)

From S2P Require Import Prelude Schema Mapping MappingFacts Scenarios Invariants Behaviour.

(** The status of the game stored under [k]. *)
Definition status_of (s : Store) (k : string) : option GameStatus := Game.status <$> games s !! k.

(** The key of the game an event names. *)
Definition event_key (e : Event) : string :=
  pretty match e with
         | EvGameStarted ev => GameStarted.gameId ev
         | EvAnswerSubmitted ev => AnswerSubmitted.gameId ev
         | EvGameCompleted ev => GameCompleted.gameId ev
         | EvCarmenEscaped ev => CarmenEscaped.gameId ev
         end.

Definition is_transition (e : Event) : bool :=
  match e with EvGameCompleted _ | EvCarmenEscaped _ => true | _ => false end.

(** The specification's machine, on the status of the event's game. *)
Inductive spec_status_step : option GameStatus -> Event -> option GameStatus -> Prop :=
  | spec_start ev : spec_status_step None (EvGameStarted ev) (Some ACTIVE)
  | spec_answer st ev : spec_status_step (Some st) (EvAnswerSubmitted ev) (Some st)
  | spec_win ev : spec_status_step (Some ACTIVE) (EvGameCompleted ev) (Some COMPLETED_WIN)
  | spec_loss ev : spec_status_step (Some ACTIVE) (EvCarmenEscaped ev) (Some COMPLETED_LOSS)
  | spec_terminal st e :
      st <> ACTIVE -> is_transition e = true -> spec_status_step (Some st) e (Some st)
  | spec_unknown e :
      (if e is EvGameStarted _ then False else True) -> spec_status_step None e None.

(** The cases where the code does not read what the machine depends on:
    a start for a game already stored, and a transition of a terminal
    game. *)
Definition code_reads_status (st : option GameStatus) (e : Event) : bool :=
  match e, st with
  | EvGameStarted _, Some _ => true
  | _, Some COMPLETED_WIN | _, Some COMPLETED_LOSS => is_transition e
  | _, _ => false
  end.

(** ** Theorems *)

Lemma handleAnswerSubmitted_games ev s s' g :
  InvCore s ->
  games s !! pretty (AnswerSubmitted.gameId ev) = Some g ->
  s =[ handleAnswerSubmitted ev ]=> s' ->
  games s' = <[pretty (AnswerSubmitted.gameId ev) := countAnswer (AnswerSubmitted.correct ev) g]>
               (games s).
Proof.
  intros HI Hg H. unfold handleAnswerSubmitted in H. hrun_in H.
  rewrite Hg in H. apply exec_toI32_bind_inv in H as [_ H].
  apply exec_array_get_bind_inv in H as (qid & _ & _ & H). hrun_in H.
  apply updateQuestionStats_frame in H as (_ & Hgs & _). tsimpl.
  destruct (inv_games _ HI _ _ Hg) as [Hgid _]. by rewrite Hgs, Hgid.
Qed.

(** The player of a stored game is stored. *)
Lemma game_player_stored s k g :
  InvCore s -> games s !! k = Some g -> exists p, players s !! Game.player g = Some p.
Proof. intros HI Hg. destruct (inv_games _ HI _ _ Hg) as (_ & _ & _ & [p Hp]). by exists p. Qed.

(** Inserting under [k] changes the status under [k] only. *)
Lemma status_of_insert s s' k g :
  games s' = <[k := g]> (games s) ->
  status_of s' k = Some (Game.status g) /\ forall k', k' <> k -> status_of s' k' = status_of s k'.
Proof.
  intros Hgs. unfold status_of. rewrite Hgs, lookup_insert_eq. split; [done |].
  intros k' Hk. by rewrite lookup_insert_ne.
Qed.

(** C14: the subgraph follows the specification's life cycle of a game.
    On every store [replay] reaches, an event takes the status of the
    game it names along [spec_status_step], and leaves the status of
    every other game as it was, in every case where the code does not
    meet a start for a stored id or a transition of a terminal game. *)
Theorem status_refines log s e s' :
  replay log empty_store = Some s -> s =[ handleEvent e ]=> s' ->
  code_reads_status (status_of s (event_key e)) e = false ->
  spec_status_step (status_of s (event_key e)) e (status_of s' (event_key e)) /\
  forall k', k' <> event_key e -> status_of s' k' = status_of s k'.
Proof.
  intros Hr H Hread. pose proof (replay_inv _ _ Hr) as [HI HG].
  remember (event_key e) as k eqn:Hk.
  destruct (games s !! k) as [g|] eqn:Hg;
    [assert (Hs : status_of s k = Some (Game.status g)) by (unfold status_of; by rewrite Hg)
    |assert (Hs : status_of s k = None) by (unfold status_of; by rewrite Hg)];
    rewrite Hs in Hread |- *;
    destruct e as [ev|ev|ev|ev]; subst k; unfold event_key in *; cbn [handleEvent] in *.
  - done.
  - destruct (status_of_insert _ _ _ _ (handleAnswerSubmitted_games _ _ _ _ HI Hg H))
      as [-> Hother].
    split; [constructor | exact Hother].
  - destruct (game_player_stored _ _ _ HI Hg) as [p Hp].
    destruct (handleGameCompleted_effect _ _ _ _ _ HI Hg Hp H) as (_ & Hgs & _).
    destruct (status_of_insert _ _ _ _ Hgs) as [-> Hother]. cbn in Hread |- *.
    destruct (Game.status g); try done. split; [constructor | exact Hother].
  - destruct (game_player_stored _ _ _ HI Hg) as [p Hp].
    destruct (handleCarmenEscaped_effect _ _ _ _ _ HI Hg Hp H) as (_ & Hgs & _).
    destruct (status_of_insert _ _ _ _ Hgs) as [-> Hother]. cbn in Hread |- *.
    destruct (Game.status g); try done. split; [constructor | exact Hother].
  - destruct (handleGameStarted_tables _ _ _ HI H) as (_ & (g' & Hgs & Hst & _) & _).
    destruct (status_of_insert _ _ _ _ Hgs) as [-> Hother]. rewrite Hst.
    split; [constructor | exact Hother].
  - pose proof (unknown_game_ignored (EvAnswerSubmitted ev) s _ eq_refl Hg) as Hu. cbn [handleEvent] in Hu.
    rewrite Hu in H. simplify_eq.
    rewrite Hs. split; [by constructor | done].
  - pose proof (unknown_game_ignored (EvGameCompleted ev) s _ eq_refl Hg) as Hu. cbn [handleEvent] in Hu.
    rewrite Hu in H. simplify_eq.
    rewrite Hs. split; [by constructor | done].
  - pose proof (unknown_game_ignored (EvCarmenEscaped ev) s _ eq_refl Hg) as Hu. cbn [handleEvent] in Hu.
    rewrite Hu in H. simplify_eq.
    rewrite Hs. split; [by constructor | done].
Qed.

(** The spec's win scenario: game 1 goes from [ACTIVE] to [COMPLETED_WIN]. *)
Lemma status_refines_witness :
  replay scenario_pre_win empty_store = Some store_pre_win /\
  exec (handleEvent (EvGameCompleted complete_game_1)) store_pre_win = Some store_post_win /\
  status_of store_post_win "1" = Some COMPLETED_WIN /\
  spec_status_step (status_of store_pre_win "1") (EvGameCompleted complete_game_1)
    (status_of store_post_win "1").
Proof.
  assert (Hr : replay scenario_pre_win empty_store = Some store_pre_win)
    by (vm_compute; reflexivity).
  assert (He : exec (handleEvent (EvGameCompleted complete_game_1)) store_pre_win =
               Some store_post_win) by (vm_compute; reflexivity).
  split; [exact Hr | split; [exact He | split; [vm_compute; reflexivity |]]].
  exact (proj1 (status_refines _ _ _ _ Hr He ltac:(vm_compute; reflexivity))).
Defined.

(** A [GameCompleted] that arrives for a game Carmen escaped from turns
    the lost game into a won one. The machine keeps a terminal game as
    it is; [handleGameCompleted] never reads [Game.status]. *)
Lemma terminal_status_overwritten :
  exists s s',
    replay (scenario_pre_escape ++ [EvCarmenEscaped escape_game_2]) empty_store = Some s /\
    exec (handleEvent (EvGameCompleted (GameCompleted.mk player_aa 2 true 3 2040))) s = Some s' /\
    status_of s "2" = Some COMPLETED_LOSS /\ status_of s' "2" = Some COMPLETED_WIN /\
    ~ spec_status_step (status_of s "2") (EvGameCompleted (GameCompleted.mk player_aa 2 true 3 2040))
        (status_of s' "2").
Proof.
  eexists _, _. split; [vm_compute; reflexivity |]. split; [vm_compute; reflexivity |].
  split; [vm_compute; reflexivity |]. split; [vm_compute; reflexivity |].
  vm_compute. intros Hstep. inversion Hstep.
Qed.
