(* ===== verification/Js.v ===== *)
(** * Js: the JavaScript runtime the frontend relies on

    The React handlers of the frontend are [async] functions. Each await
    yields to the browser, and every call that can fail throws. Here they
    are modelled as computations in a state-and-exception monad [Js S A]:
    - [S] is the state the handler updates (React state, refs, timers);
    - an exception is a value of [Exn], with the [name], [message] and
      [code] fields the source reads;
    - [try_catch] and [try_finally] are the source's [try]/[catch]/[finally].

    An awaited call to the outside world (a contract, the network, the
    wallet) is a value of [Exn + A] given to the handler as input. So one
    handler run is a function of the state and of the outcomes of its
    calls. Numbers are [Z], except where a value can become [NaN]; there
    [JsNum] is used. *)

From S2P Require Import Prelude.

Record Exn := mkExn { exn_name : string; exn_message : string; exn_code : option Z }.

#[export] Instance Exn_eq_dec : EqDecision Exn.
Proof. solve_decision. Defined.

(** Whether an awaited call resolved. *)
Definition is_ok {A} (r : Exn + A) : bool := match r with inr _ => true | inl _ => false end.

(** [new Error(msg)] and the [TypeError] the engine throws. *)
Definition Error (msg : string) : Exn := mkExn "Error" msg None.
Definition TypeError (msg : string) : Exn := mkExn "TypeError" msg None.
Definition ReferenceError (msg : string) : Exn := mkExn "ReferenceError" msg None.

Definition Js (S A : Type) : Type := S -> (Exn + A) * S.

#[export] Instance js_ret {S} : MRet (Js S) := fun A a s => (inr a, s).
#[export] Instance js_bind {S} : MBind (Js S) :=
  fun A B k m s => match m s with (inr a, s') => k a s' | (inl e, s') => (inl e, s') end.

Definition throw {S A} (e : Exn) : Js S A := fun s => (inl e, s).

(** An awaited external call whose outcome is [r]. *)
Definition await_ {S A} (r : Exn + A) : Js S A := fun s => (r, s).

Definition modify {S} (f : S -> S) : Js S unit := fun s => (inr tt, f s).
Definition gets {S A} (f : S -> A) : Js S A := fun s => (inr (f s), s).

Definition try_catch {S A} (m : Js S A) (h : Exn -> Js S A) : Js S A :=
  fun s => match m s with (inl e, s') => h e s' | r => r end.

Definition try_finally {S A} (m : Js S A) (fin : Js S unit) : Js S A :=
  fun s => match m s with
           | (r, s') => match fin s' with (inl e, s'') => (inl e, s'') | (inr _, s'') => (r, s'') end
           end.

(** A call whose promise nobody awaits: its effects happen, its
    exception is dropped. *)
Definition detach {S} (m : Js S unit) : Js S unit := fun s => (inr tt, snd (m s)).

(** The state a handler leaves, whether it returned or threw. *)
Definition run {S A} (m : Js S A) (s : S) : S := snd (m s).

(** ** Numbers that can be [NaN] *)

Inductive JsNum := Num (z : Z) | NaN.

#[export] Instance JsNum_eq_dec : EqDecision JsNum.
Proof. solve_decision. Defined.

(** [a + 1]. *)
Definition js_incr (a : JsNum) : JsNum :=
  match a with Num z => Num (z + 1) | NaN => NaN end.

(** [x || d] on an optional string: [undefined] and [""] are falsy. *)
Definition or_default (x : option string) (d : string) : string :=
  match x with Some v => if bool_decide (v = "") then d else v | None => d end.

(** [s.replace(/pat/g, rep)] for a literal, non-empty [pat]: the matches
    are taken left to right and do not overlap. Each step consumes at
    least one character, so [fuel] steps are enough for a string shorter
    than [fuel]; [None] is running out of fuel. *)
Fixpoint replace_go (fuel : nat) (pat rep s : string) : option string :=
  match fuel with
  | O => None
  | S fuel =>
      match s with
      | EmptyString => Some EmptyString
      | String c s' =>
          if String.prefix pat s then
            r ← replace_go fuel pat rep
                  (String.substring (String.length pat) (String.length s - String.length pat) s);
            Some (rep +:+ r)
          else r ← replace_go fuel pat rep s'; Some (String c r)
      end
  end.

Definition replace_all (pat rep s : string) : string :=
  default s (replace_go (S (String.length s)) pat rep s).

(** ** Invariants of handlers

    [preserves P m]: whatever its outcome, [m] run from a state in [P]
    leaves a state in [P]. A handler is built from the combinators
    above, so [preserves] follows its structure. The tactic [preserve]
    does that walk and leaves the primitive updates to the caller. *)

Definition preserves {S A} (P : S -> Prop) (m : Js S A) : Prop :=
  forall s, P s -> P (run m s).

(** [l.forEach(f)] for a callback [f] that returns nothing. *)
Fixpoint forEach {S A} (f : A -> Js S unit) (l : list A) : Js S unit :=
  match l with
  | [] => mret tt
  | x :: l' => f x ;; forEach f l'
  end.

(** ** Laws of the monad that the handler proofs use *)

Lemma run_bind {S A B} (m : Js S A) (k : A -> Js S B) s :
  run (m ≫= k) s = match m s with (inr a, s') => run (k a) s' | (inl _, s') => s' end.
Proof. unfold run, mbind, js_bind. by destruct (m s) as [[?|?] ?]. Qed.

Lemma js_bind_ret {S A B} (a : A) (k : A -> Js S B) : (mret a ≫= k) = k a.
Proof. reflexivity. Qed.

Lemma js_incr_NaN n : js_incr n = NaN <-> n = NaN.
Proof. destruct n; simpl; split; congruence. Qed.

(** [x || d] is [d] exactly when [x] is falsy. *)
Lemma or_default_falsy x d : or_default x "" = "" -> or_default x d = d.
Proof. destruct x as [v|]; [| done]. cbn. case_bool_decide; [done | intros ->; done]. Qed.

Lemma or_default_truthy v d : v <> "" -> or_default (Some v) d = v.
Proof. intros Hv. cbn. by case_bool_decide. Qed.

#[export] Hint Rewrite @js_bind_ret : carmen_rw.

(** [replace_go] with a string shorter than its fuel returns. *)
Lemma replace_go_some pat rep s fuel :
  pat <> "" -> (String.length s < fuel)%nat -> is_Some (replace_go fuel pat rep s).
Proof.
  intros Hpat. revert s. induction fuel as [|fuel IH]; intros [|c s'] Hs;
    cbn [replace_go String.length] in *; try lia; [by eexists |].
  assert (Hp : (1 <= String.length pat)%nat) by (destruct pat; cbn; [done | lia]).
  destruct (String.prefix pat (String c s')).
  - destruct (IH (String.substring (String.length pat) (S (String.length s') - String.length pat)
                    (String c s'))) as [r ->]; [| by eexists].
    pose proof (substring_length_le (String c s') (String.length pat)
                  (S (String.length s') - String.length pat)). lia.
  - destruct (IH s') as [r ->]; [lia | by eexists].
Qed.

(** One step of [replace_go] on a non-empty string. *)
Lemma replace_go_cons fuel pat rep c s' :
  replace_go (S fuel) pat rep (String c s') =
  if String.prefix pat (String c s') then
    r ← replace_go fuel pat rep (String.substring (String.length pat)
                                   (String.length (String c s') - String.length pat) (String c s'));
    Some (rep +:+ r)
  else r ← replace_go fuel pat rep s'; Some (String c r).
Proof. reflexivity. Qed.

(** More fuel does not change a result. *)
Lemma replace_go_mono pat rep s fuel r :
  replace_go fuel pat rep s = Some r -> replace_go (S fuel) pat rep s = Some r.
Proof.
  revert s r. induction fuel as [|fuel IH]; intros [|c s'] r; try done.
  rewrite !replace_go_cons. destruct (String.prefix pat (String c s')).
  all: destruct (replace_go fuel pat rep _) as [r'|] eqn:E; [| discriminate];
    rewrite (IH _ _ E); done.
Qed.

Lemma replace_go_mono_le pat rep s fuel fuel' r :
  (fuel <= fuel')%nat -> replace_go fuel pat rep s = Some r -> replace_go fuel' pat rep s = Some r.
Proof. induction 1 as [|m _ IH]; [done |]. intros Hr. by apply replace_go_mono, IH. Qed.

Section Preserves.
Context {S : Type} (P : S -> Prop).

Lemma preserves_ret {A} (a : A) : preserves P (mret a).
Proof. by intros s. Qed.

Lemma preserves_throw {A} (e : Exn) : preserves P (throw (A:=A) e).
Proof. by intros s. Qed.

Lemma preserves_await {A} (r : Exn + A) : preserves P (await_ r).
Proof. by intros s. Qed.

Lemma preserves_gets {A} (f : S -> A) : preserves P (gets f).
Proof. by intros s. Qed.

Lemma preserves_modify (f : S -> S) : (forall s, P s -> P (f s)) -> preserves P (modify f).
Proof. intros Hf s. apply Hf. Qed.

Lemma preserves_bind {A B} (m : Js S A) (k : A -> Js S B) :
  preserves P m -> (forall a, preserves P (k a)) -> preserves P (m ≫= k).
Proof.
  intros Hm Hk s Hs. rewrite run_bind.
  pose proof (Hm s Hs) as Hs'. unfold run in Hs'.
  destruct (m s) as [[e|a] s']; [done | by apply Hk].
Qed.

Lemma preserves_try_catch {A} (m : Js S A) (h : Exn -> Js S A) :
  preserves P m -> (forall e, preserves P (h e)) -> preserves P (try_catch m h).
Proof.
  intros Hm Hh s Hs. pose proof (Hm s Hs) as Hs'. unfold run, try_catch in *.
  destruct (m s) as [[e|a] s']; [by apply Hh | done].
Qed.

Lemma preserves_try_finally {A} (m : Js S A) (f : Js S unit) :
  preserves P m -> preserves P f -> preserves P (try_finally m f).
Proof.
  intros Hm Hf s Hs. pose proof (Hm s Hs) as Hs'. unfold run, try_finally in *.
  destruct (m s) as [r s']. pose proof (Hf s' Hs') as Hs''. unfold run in Hs''.
  by destruct (f s') as [[e|u] s''].
Qed.

Lemma preserves_detach (m : Js S unit) : preserves P m -> preserves P (detach m).
Proof. intros Hm s Hs. exact (Hm s Hs). Qed.

Lemma preserves_forEach {A} (f : A -> Js S unit) (l : list A) :
  (forall x, preserves P (f x)) -> preserves P (forEach f l).
Proof.
  intros Hf. induction l as [|x l IH]; cbn; [apply preserves_ret |].
  apply preserves_bind; [apply Hf | intros _; exact IH].
Qed.

End Preserves.

(** One step of the walk over a handler's structure. *)
Ltac preserve_step :=
  lazymatch goal with
  | |- preserves _ (mbind _ _) => apply preserves_bind; [| intros ?]
  | |- preserves _ (try_catch _ _) => apply preserves_try_catch; [| intros ?]
  | |- preserves _ (try_finally _ _) => apply preserves_try_finally
  | |- preserves _ (mret _) => apply preserves_ret
  | |- preserves _ (throw _) => apply preserves_throw
  | |- preserves _ (await_ _) => apply preserves_await
  | |- preserves _ (gets _) => apply preserves_gets
  | |- preserves _ (forEach _ _) => apply preserves_forEach; intros ?
  | |- preserves _ (match ?x with _ => _ end) => destruct x
  end.

Ltac preserve := repeat (cbv beta zeta; preserve_step).

(** [s.replace(/pat/g, rep)] terminates. For a non-empty pattern, the
    loop returns within any fuel larger than the length of the string,
    and its result is the one [replace_all] gives: the default of
    [replace_all] is never used. *)
Lemma replace_all_total pat rep s fuel :
  pat <> "" -> (String.length s < fuel)%nat ->
  replace_go fuel pat rep s = Some (replace_all pat rep s).
Proof.
  intros Hpat Hs. unfold replace_all.
  destruct (replace_go_some pat rep s (S (String.length s)) Hpat) as [r Hr]; [lia |].
  rewrite Hr. cbn. apply (replace_go_mono_le _ _ _ (S (String.length s))); [lia | exact Hr].
Qed.


