(* ===== verification/Leaderboard.v ===== *)
(** * Leaderboard: the leaderboard screen of [Leaderboard.jsx]

    The screen sends one GraphQL query to the subgraph. The query asks for
    the first 50 [players] with [gamesPlayed >= 3], ordered by [winRate]
    descending, and for the [globalStats] record. The screen shows the
    players it gets back in that order.

    [players_query] is the query run on the store that [Mapping.replay]
    builds. That ties the screen to the indexer. The ordering is stdpp's
    stable [merge_sort] over the store's enumeration. The Graph breaks
    ties between equal [winRate]s by id; the theorems below do not depend
    on how ties are broken.

    [fetchLeaderboard] is modelled in the [Js] monad over the screen's
    state, with the HTTP round trip as an input. The row helpers
    [formatAddress], [getRankEmoji] and [getStreakColor] follow the source.
    [formatWinRate] ([toFixed(1)]) is the value rounded to tenths, half
    up; the decimal printing is not modelled. *)

From S2P Require Import Prelude Schema Mapping Scenarios Js.
From stdpp Require Import sorting.
From Stdlib Require Import Qround.
Open Scope Z_scope.

Definition SUBGRAPH_URL : string :=
  "https://api.thegraph.com/subgraphs/name/your-username/carmen-sandiego-web3".

(** ** The query, run on the subgraph's store *)

(** [orderBy: winRate, orderDirection: desc]. *)
Definition winRate_desc (p q : Player.t) : Prop := (Player.winRate q <= Player.winRate p)%Q.

#[export] Instance winRate_desc_dec p q : Decision (winRate_desc p q).
Proof.
  unfold winRate_desc. destruct (Qlt_le_dec (Player.winRate p) (Player.winRate q)) as [H|H].
  - right. by apply Qlt_not_le.
  - by left.
Defined.

(** [where: { gamesPlayed_gte: 3 }]. *)
Definition qualifies (p : Player.t) : Prop := (3 <= Player.gamesPlayed p)%Z.

(** [players(first: $first, orderBy: winRate, orderDirection: desc,
    where: { gamesPlayed_gte: 3 })]. *)
Definition players_query (first : nat) (s : Store) : list Player.t :=
  take first (merge_sort winRate_desc (filter qualifies (snd <$> map_to_list (players s)))).

(** The query's [variables: { first: 50 }]. *)
Definition LEADERBOARD_FIRST : nat := 50.

(** The server's answer: the data, or the [errors] array. *)
Inductive GraphResponse :=
  | GraphData (players : option (list Player.t)) (globalStats : option GlobalStats.t)
  | GraphErrors (messages : list string).

(** A subgraph that serves [s]: it answers the query with its data. *)
Definition serve (s : Store) : GraphResponse :=
  GraphData (Some (players_query LEADERBOARD_FIRST s)) (globals s !! GLOBAL_STATS_ID).

(** ** The screen *)

Record LState := mkLState {
  leaderboard : list Player.t;
  lb_loading : bool;
  lb_error : option string;
  selectedTimeframe : string
}.

Definition initialLState : LState := mkLState [] true None "all".

Definition setLeaderboard (l : list Player.t) : Js LState unit :=
  modify (fun s => mkLState l (lb_loading s) (lb_error s) (selectedTimeframe s)).
Definition setLbLoading (b : bool) : Js LState unit :=
  modify (fun s => mkLState (leaderboard s) b (lb_error s) (selectedTimeframe s)).
Definition setLbError (e : option string) : Js LState unit :=
  modify (fun s => mkLState (leaderboard s) (lb_loading s) e (selectedTimeframe s)).
Definition setSelectedTimeframe (t : string) : Js LState unit :=
  modify (fun s => mkLState (leaderboard s) (lb_loading s) (lb_error s) t).

(** What [fetchLeaderboard] does with the parsed body (lines 62-67):
    [errors] throws its first message, [data.data.players || []] replaces
    the list. An empty [errors] array is truthy and has no [[0]]. *)
Definition apply_response (data : GraphResponse) : Js LState unit :=
  match data with
  | GraphErrors (m :: _) => throw (Error m)
  | GraphErrors [] =>
      throw (TypeError "Cannot read properties of undefined (reading 'message')")
  | GraphData ps _ => setLeaderboard (default [] ps)
  end.

(** [fetchLeaderboard(timeframe)] (lines 12-74). [post] is the outcome
    of the [fetch] and of [response.json()]. The request sent does not
    depend on [timeframe]. *)
Definition fetchLeaderboard (timeframe : string) (post : Exn + GraphResponse) : Js LState unit :=
  try_finally
    (try_catch
       (setLbLoading true ;; setLbError None ;;
        data ← await_ post;
        apply_response data)
       (fun e => setLbError (Some (exn_message e))))
    (setLbLoading false).

(** [formatAddress]: [address.slice(0, 6) + '...' + address.slice(-4)]. *)
Definition formatAddress (address : string) : string :=
  let n := String.length address in
  String.substring 0 6 address +:+ "..." +:+
  (if (4 <=? n)%nat then String.substring (n - 4) 4 address else address).

(** [parseFloat(winRate).toFixed(1)], as a number of tenths. *)
Definition formatWinRate (winRate : Q) : Z := Qfloor (winRate * inject_Z 10 + (1 # 2))%Q.

Definition getRankEmoji (index : nat) : string :=
  match index with
  | O => "🥇" | S O => "🥈" | S (S O) => "🥉"
  | _ => pretty (Z.of_nat index + 1)
  end.

Definition getStreakColor (streak : Z) : string :=
  if 10 <=? streak then "#10b981"
  else if 5 <=? streak then "#f59e0b"
  else if 3 <=? streak then "#3b82f6"
  else "#6b7280".

(** One card of the list (lines 180-226). *)
Record Row := mkRow {
  row_rank : string; row_address : string; row_winRate : Z; row_games : Z; row_wins : Z;
  row_best : Z; row_streak : Z; row_streakColor : string
}.

Definition row_of (index : nat) (p : Player.t) : Row :=
  mkRow (getRankEmoji index) (formatAddress (Player.address p))
    (formatWinRate (Player.winRate p)) (Player.gamesPlayed p) (Player.gamesWon p)
    (Player.bestScore p) (Player.currentWinStreak p)
    (getStreakColor (Player.currentWinStreak p)).

Inductive LView :=
  | LLoading
  | LError (message : string)
  | LEmpty
  | LRows (rows : list Row).

(** The render (lines 100-240). [if (error)] reads the message as a
    JavaScript condition: an empty message is falsy and the list is
    shown. An error that mentions [fetch] is shown as the subgraph not
    being deployed yet. *)
Definition lrender (s : LState) : LView :=
  if lb_loading s then LLoading
  else
    let rows := match leaderboard s with
                | [] => LEmpty
                | ps => LRows (imap row_of ps)
                end in
    match lb_error s with
    | Some e =>
        if bool_decide (e = "") then rows
        else if String.index 0 "fetch" e is Some _ then
          LError "Subgraph not yet deployed. Deploy the subgraph first to see leaderboard data."
        else LError ("Error: " +:+ e)
    | None => rows
    end.

(** A log where the ranking is wrong. [0xaa] wins games 11 to 13, then
    starts games 14 and 15 and does not finish them. [0xbb] wins games 21
    to 23 and loses game 24 at its first question. *)
Definition stale_ranking_log : list Event :=
  scenario_streak ++ [ev_start player_aa 14 700; ev_start player_aa 15 800] ++
  win_log "0xbb" 21 100 ++ win_log "0xbb" 22 300 ++ win_log "0xbb" 23 500 ++
  loss_log "0xbb" 24 0 900.

(** ** Theorems *)

#[export] Instance winRate_desc_trans : Transitive winRate_desc.
Proof. intros p q r Hpq Hqr. unfold winRate_desc in *. eapply Qle_trans; eauto. Qed.

#[export] Instance winRate_desc_total : Total winRate_desc.
Proof.
  intros p q. unfold winRate_desc.
  destruct (Qlt_le_dec (Player.winRate p) (Player.winRate q)) as [H|H].
  - right. by apply Qlt_le_weak.
  - by left.
Qed.

(** C27: the leaderboard query returns a top selection. Its entries are
    players of the store with [gamesPlayed >= 3], in descending [winRate]
    order. There are [min first n] of them, where [n] is the number of
    players with [gamesPlayed >= 3]. Every such player is shown or left
    out, and one left out has a [winRate] no greater than that of any
    player shown. *)
Theorem players_query_top s first :
  let cand := filter qualifies (snd <$> map_to_list (players s)) in
  let r := players_query first s in
  (forall p, p ∈ r -> (3 <= Player.gamesPlayed p)%Z /\ exists k, players s !! k = Some p) /\
  Sorted winRate_desc r /\ length r = Nat.min first (length cand) /\
  exists rest, r ++ rest ≡ₚ cand /\
    (forall k p, players s !! k = Some p -> (3 <= Player.gamesPlayed p)%Z -> p ∈ r ++ rest) /\
    (forall q, q ∈ rest -> (3 <= Player.gamesPlayed q)%Z) /\
    forall p q, p ∈ r -> q ∈ rest -> (Player.winRate q <= Player.winRate p)%Q.
Proof.
  intros cand r. unfold r, players_query. fold cand.
  pose proof (merge_sort_Permutation winRate_desc cand) as Hperm.
  pose proof (StronglySorted_merge_sort winRate_desc cand) as Hsorted.
  assert (Hcand : forall p, p ∈ cand <-> qualifies p /\ exists k, players s !! k = Some p).
  { intros p. unfold cand. rewrite list_elem_of_filter, list_elem_of_fmap.
    split; [intros [Hq ([k p'] & -> & Hkp)]; apply elem_of_map_to_list in Hkp; eauto |].
    intros [Hq [k Hk]]. split; [done |]. exists (k, p). split; [done |].
    by apply elem_of_map_to_list. }
  rewrite <- (take_drop first (merge_sort winRate_desc cand)) in Hperm, Hsorted.
  split; [| split; [| split]].
  - intros p Hp. apply Hcand. rewrite <- Hperm. set_solver.
  - apply StronglySorted_Sorted. by eapply StronglySorted_app_1_l.
  - pose proof (Permutation_length Hperm) as Hl.
    rewrite length_app, length_take, length_drop in Hl. rewrite length_take. lia.
  - exists (drop first (merge_sort winRate_desc cand)). split; [done |].
    split; [intros k p Hk Hq; rewrite Hperm; apply Hcand; eauto |].
    split; [intros q Hq; apply Hcand; rewrite <- Hperm; set_solver |].
    intros p q Hp Hq. exact (StronglySorted_app_1_elem_of _ _ _ _ _ Hsorted Hp Hq).
Qed.

(** The leaderboard ranks players by a stale [winRate]. After
    [stale_ranking_log], [0xaa] has won 3 of 5 games and [0xbb] 3 of 4.
    The screen lists [0xaa] first: its stored [winRate] is still the 100
    computed before its last two starts, while [0xbb]'s is 75. *)
Theorem leaderboard_ranks_by_stale_winRate :
  exists s a b,
    replay stale_ranking_log empty_store = Some s /\
    players_query LEADERBOARD_FIRST s = [a; b] /\
    Player.address a = "0xaa" /\ Player.address b = "0xbb" /\
    Player.gamesWon a * Player.gamesPlayed b < Player.gamesWon b * Player.gamesPlayed a.
Proof.
  eexists _, _, _. split; [vm_compute; reflexivity |].
  split; [vm_compute; reflexivity |]. vm_compute. repeat split.
Qed.

(** C28: [fetchLeaderboard] on every outcome of its request. Data
    replaces the list, with [players: null] read as empty. An [errors]
    array, or a failed request, keeps the list and records the message.
    The loading flag always ends cleared. The request, and so the
    outcome, is the same for every timeframe. *)
Theorem fetchLeaderboard_outcome (timeframe : string) post st :
  let st' := run (fetchLeaderboard timeframe post) st in
  lb_loading st' = false /\ selectedTimeframe st' = selectedTimeframe st /\
  match post with
  | inr (GraphData ps _) => leaderboard st' = default [] ps /\ lb_error st' = None
  | inr (GraphErrors (m :: _)) => leaderboard st' = leaderboard st /\ lb_error st' = Some m
  | inr (GraphErrors []) => leaderboard st' = leaderboard st /\ lb_error st' <> None
  | inl e => leaderboard st' = leaderboard st /\ lb_error st' = Some (exn_message e)
  end.
Proof.
  destruct post as [e|[ps g|[|m ms]]]; cbn; repeat split; discriminate.
Qed.
