(* ===== verification/LeaderboardRace.v ===== *)
(** * LeaderboardRace: the requests of [Leaderboard.jsx] over time

    [fetchLeaderboard] awaits the subgraph between its first two setters
    and its last ones. While it waits, the screen renders and can take
    clicks. Three things start a fetch:
    - the effect on [[selectedTimeframe]] when the screen mounts
      (lines 75-77);
    - the same effect when a timeframe button changes
      [selectedTimeframe] (lines 149-167);
    - the Retry button of the error view (line 125).

    A response can come back at any later point. [LWorld] is the screen's
    state with the number of requests in flight. [lhandle] is one event:
    a mount, a click, or the arrival of one response with any outcome.
    [lstep] is any enabled event.

    The theorems show that no two requests are ever in flight. Every
    button that starts a fetch is hidden by the loading view, which
    [fetch_start] turns on. So the responses cannot arrive out of order,
    and the spinner shows exactly while a request is pending. Then
    [refines_atomic]: every world the split model reaches is one that
    the model with [fetchLeaderboard] as one step reaches.

    The effect of a click is flushed before the next click, as React does
    for discrete events. So a click and its effect are one step. *)

From S2P Require Import Prelude Js Leaderboard.
Local Open Scope nat_scope.

(** ** The split handler *)

(** The part of [fetchLeaderboard] before its first [await] (lines 14-15). *)
Definition fetch_start : Js LState unit := setLbLoading true ;; setLbError None.

(** The part after it (lines 50-73), resumed with the outcome [post]. *)
Definition fetch_finish (post : Exn + GraphResponse) : Js LState unit :=
  try_finally
    (try_catch (data ← await_ post; apply_response data)
       (fun e => setLbError (Some (exn_message e))))
    (setLbLoading false).

(** ** The screen and its events *)

Record LWorld := mkLWorld { lw : LState; lmounted : bool; inflight : nat }.

Definition initialLWorld : LWorld := mkLWorld initialLState false 0.

Inductive LEvent :=
  | LMount
  | LRetry
  | LTimeframe (t : string)
  | LResponse (post : Exn + GraphResponse).

(** The timeframes of the three filter buttons. *)
Definition TIMEFRAMES : list string := ["all"; "week"; "month"].

(** A fetch starts: its first setters run and one more request waits. *)
Definition lstart (w : LWorld) : LWorld :=
  mkLWorld (run fetch_start (lw w)) (lmounted w) (S (inflight w)).

(** [useEffect(() => { fetchLeaderboard(selectedTimeframe); },
    [selectedTimeframe])] (lines 75-77). [prev] is the dependency of the
    last run, [None] before the first. The effect runs when it changed. *)
Definition leaderboard_effect (prev : option string) (w : LWorld) : LWorld :=
  if bool_decide (prev = Some (selectedTimeframe (lw w))) then w else lstart w.

(** Whether the render shows the main view, with its filter buttons. *)
Definition main_view (s : LState) : bool :=
  match lrender s with LEmpty | LRows _ => true | _ => false end.

Definition error_view (s : LState) : bool :=
  match lrender s with LError _ => true | _ => false end.

(** One event, if the screen offers it. *)
Definition lhandle (w : LWorld) (e : LEvent) : option LWorld :=
  match e with
  | LMount =>
      if lmounted w then None
      else Some (leaderboard_effect None (mkLWorld (lw w) true (inflight w)))
  | LRetry =>
      (* [onClick={() => fetchLeaderboard(selectedTimeframe)}] *)
      if lmounted w && error_view (lw w) then Some (lstart w) else None
  | LTimeframe t =>
      (* [onClick={() => setSelectedTimeframe(t)}], then the effect *)
      if lmounted w && main_view (lw w) && bool_decide (t ∈ TIMEFRAMES) then
        Some (leaderboard_effect (Some (selectedTimeframe (lw w)))
                (mkLWorld (run (setSelectedTimeframe t) (lw w)) true (inflight w)))
      else None
  | LResponse post =>
      match inflight w with
      | O => None
      | S n => Some (mkLWorld (run (fetch_finish post) (lw w)) (lmounted w) n)
      end
  end.

Inductive lstep : LWorld -> LWorld -> Prop :=
  | lstep_event w e w' : lhandle w e = Some w' -> lstep w w'.

Definition lreachable (w : LWorld) : Prop := rtc lstep initialLWorld w.

(** ** The same screen with [fetchLeaderboard] as one step *)

Inductive astep : LState * bool -> LState * bool -> Prop :=
  | astep_mount s post :
      astep (s, false) (run (fetchLeaderboard (selectedTimeframe s) post) s, true)
  | astep_retry s post :
      error_view s = true ->
      astep (s, true) (run (fetchLeaderboard (selectedTimeframe s) post) s, true)
  | astep_timeframe s t post :
      main_view s = true -> t ∈ TIMEFRAMES -> t <> selectedTimeframe s ->
      astep (s, true) (run (setSelectedTimeframe t ;; fetchLeaderboard t post) s, true).

Definition areachable (a : LState * bool) : Prop := rtc astep (initialLState, false) a.

(** What holds of every world: the spinner shows exactly while one
    request is pending; before the mount, nothing has run. *)
Definition fetch_inv (w : LWorld) : Prop :=
  if lmounted w then
    (inflight w = 0 /\ lb_loading (lw w) = false) \/ (inflight w = 1 /\ lb_loading (lw w) = true)
  else inflight w = 0 /\ lw w = initialLState.

(** And what the split model owes the atomic one: with no request
    pending the state is reached atomically; with one pending, its
    response with any outcome completes an atomic step. *)
Definition refines (w : LWorld) : Prop :=
  match inflight w with
  | O => areachable (lw w, lmounted w)
  | S _ => exists a, areachable a /\
             forall post, astep a (run (fetch_finish post) (lw w), true)
  end.

(** ** Theorems *)

(** [fetchLeaderboard] is [fetch_start] then [fetch_finish]: the start
    cannot throw, so its place inside the [try] does not matter. *)
Lemma fetchLeaderboard_split t post s :
  run (fetchLeaderboard t post) s = run (fetch_finish post) (run fetch_start s).
Proof. by destruct post as [e|[ps g|[|m ms]]]. Qed.

Lemma astep_split a s t post :
  astep a (run (fetchLeaderboard t post) s, true) ->
  astep a (run (fetch_finish post) (run fetch_start s), true).
Proof. by rewrite fetchLeaderboard_split. Qed.

Lemma fetch_start_loading s : lb_loading (run fetch_start s) = true.
Proof. reflexivity. Qed.

Lemma fetch_finish_loading post s : lb_loading (run (fetch_finish post) s) = false.
Proof. by destruct post as [e|[ps g|[|m ms]]]. Qed.

(** The loading view hides the Retry and the filter buttons. *)
Lemma loading_hides_buttons s :
  lb_loading s = true -> main_view s = false /\ error_view s = false.
Proof. intros H. unfold main_view, error_view, lrender. by rewrite H. Qed.

#[local] Hint Resolve fetch_start_loading fetch_finish_loading : carmen.

Ltac loading_contra :=
  match goal with
  | Hl : lb_loading ?s = true, Hv : _ ?s = true |- _ =>
      destruct (loading_hides_buttons s Hl); congruence
  end.

(** One event keeps both the invariant and the refinement. *)
Lemma lhandle_inv w e w' :
  lhandle w e = Some w' -> fetch_inv w /\ refines w -> fetch_inv w' /\ refines w'.
Proof.
  unfold fetch_inv, refines. intros Hh [Hinv Href].
  destruct e as [| |t|post]; cbn in Hh.
  - destruct (lmounted w); [done |]. destruct Hinv as [H0 Hs].
    unfold leaderboard_effect in Hh. rewrite bool_decide_false in Hh by done.
    simplify_eq/=. rewrite H0. split; [by right |].
    exists (lw w, false). rewrite Hs. split; [constructor |].
    intros post. eapply astep_split, astep_mount.
  - destruct (lmounted w) eqn:Hm, (error_view (lw w)) eqn:Hv; try done.
    simplify_eq/=. cbn in Hinv. rewrite Hm.
    destruct Hinv as [[H0 Hl] | [_ Hl]]; [| loading_contra].
    rewrite H0 in Href |- *. split; [by right |].
    exists (lw w, true). split; [done |]. intros post. eapply astep_split. by apply astep_retry.
  - destruct (lmounted w) eqn:Hm, (main_view (lw w)) eqn:Hv,
      (bool_decide (t ∈ TIMEFRAMES)) eqn:Ht; try done.
    cbn in Hinv.
    apply bool_decide_eq_true in Ht.
    destruct Hinv as [[H0 Hl] | [_ Hl]]; [| loading_contra].
    unfold leaderboard_effect in Hh.
    destruct (decide (t = selectedTimeframe (lw w))) as [-> | Hne].
    + rewrite bool_decide_true in Hh by done. injection Hh as <-. cbn [lw lmounted inflight].
      rewrite H0 in Href |- *. destruct (lw w). by split; [left |].
    + rewrite bool_decide_false in Hh by (cbn; congruence). simplify_eq/=.
      rewrite H0 in Href |- *. split; [by right |].
      exists (lw w, true). split; [done |]. intros post.
      apply (astep_split _ _ t). by apply (astep_timeframe _ t).
  - destruct (inflight w) as [|n] eqn:Hi; [done |]. simplify_eq/=.
    destruct (lmounted w) eqn:Hm; [| lia].
    destruct Hinv as [[? ?] | [Hn _]]; [lia |]. injection Hn as ->.
    split; [by left; auto with carmen |].
    destruct Href as (a & Ha & Hstep). by eapply rtc_r.
Qed.

Lemma lreachable_inv w : lreachable w -> fetch_inv w /\ refines w.
Proof.
  apply (rtc_invariant lstep (fun w => fetch_inv w /\ refines w)).
  - intros a b [a' e b' Hh]. by apply lhandle_inv with e.
  - split; [done |]. constructor.
Qed.

(** C32: no two requests of the leaderboard are ever in flight. In every
    world the screen reaches, at most one [fetchLeaderboard] waits for
    its response. Once mounted, the spinner shows exactly while one
    does. The loading view that [fetch_start] turns on hides the Retry
    and filter buttons, so no response can overtake another and leave a
    stale list on screen. *)
Theorem leaderboard_one_request (w : LWorld) :
  lreachable w ->
  inflight w <= 1 /\ (lmounted w = true -> (lb_loading (lw w) = true <-> inflight w = 1)).
Proof.
  intros Hr. destruct (lreachable_inv w Hr) as [Hinv _]. unfold fetch_inv in Hinv.
  destruct (lmounted w); [| lia].
  destruct Hinv as [[-> ->] | [-> ->]]; split; try lia; intros _; split; congruence.
Qed.

Lemma leaderboard_one_request_witness :
  lreachable (mkLWorld (run fetch_start initialLState) true 1) /\
  inflight (mkLWorld (run fetch_start initialLState) true 1) <= 1.
Proof.
  assert (Hr : lreachable (mkLWorld (run fetch_start initialLState) true 1)).
  { apply rtc_once. apply (lstep_event _ LMount). reflexivity. }
  split; [exact Hr |]. apply (leaderboard_one_request _ Hr).
Defined.

(** C35: the screen with its requests in flight refines the screen with
    [fetchLeaderboard] as one atomic step. Every world it reaches with no
    request pending has a state that the atomic screen reaches by
    mounts, retries and timeframe changes. With one request pending, its
    response, whatever its outcome, completes one such step. *)
Theorem leaderboard_refines_atomic (w : LWorld) :
  lreachable w ->
  (inflight w = 0 -> areachable (lw w, lmounted w)) /\
  (inflight w = 1 -> exists a, areachable a /\
     forall post, astep a (run (fetch_finish post) (lw w), true)).
Proof.
  intros Hr. destruct (lreachable_inv w Hr) as [_ Href]. unfold refines in Href.
  split; intros Hi; rewrite Hi in Href; done.
Qed.

Lemma leaderboard_refines_atomic_witness :
  lreachable (mkLWorld (run fetch_start initialLState) true 1) /\
  inflight (mkLWorld (run fetch_start initialLState) true 1) = 1 /\
  exists a, areachable a /\ forall post,
    astep a (run (fetch_finish post) (run fetch_start initialLState), true).
Proof.
  assert (Hr : lreachable (mkLWorld (run fetch_start initialLState) true 1)).
  { apply rtc_once. apply (lstep_event _ LMount). reflexivity. }
  split; [exact Hr | split; [reflexivity |]].
  apply (proj2 (leaderboard_refines_atomic _ Hr) eq_refl).
Defined.
