(* ===== verification/Client.v ===== *)
(** * Client: the contract client of [src/frontend/src/contracts/CarmenGame.js]

    - [Abi]: the human-readable ABI [CONTRACT_ABI] and [getContract]. Also
      [dispatch], the rule by which ethers v6's [Contract] proxy resolves
      [contract.f(args)] against the ABI. This rule is library behaviour,
      not repository code.
    - [Ipfs]: [IPFS_CONFIG] and [fetchQuestions], the ordered fallback
      over IPFS gateways.
    - [Wallet]: [BASE_SEPOLIA] and [connectWallet], the account request and
      the chain switch with its fallback to [wallet_addEthereumChain] on
      error 4902.
    - [Selection]: [selectRandomQuestions]. [Math.random] is an input, the
      stream [rand i] of the values of its successive calls. *)

From S2P Require Import Prelude Js.
From Stdlib Require Import Qround.

(** ** The contract's ABI and the ethers dispatch rule *)
Module Abi.

Inductive Fragment :=
  | FnFrag (name : string) (inputs : list string) (outputs : list string)
  | EventFrag (name : string) (params : list string).

Definition CONTRACT_ADDRESS : string := "0x3DE93A310c4626Da956eA074846EA587cB10e27f".

Definition CONTRACT_ABI : list Fragment := [
  FnFrag "startGame" ["uint256[10]"] [];
  FnFrag "submitAnswer" ["uint256"; "uint256"] [];
  FnFrag "getGameState" ["address"]
    ["questionIds"; "playerAnswers"; "correctAnswers"; "currentQuestion"; "correctCount";
     "isActive"; "carmenCaught"; "startTime"; "endTime"];
  FnFrag "getCurrentQuestion" ["address"] ["questionId"; "questionIndex"];
  FnFrag "getPlayerStats" ["address"] ["gamesPlayed"; "wins"; "winRate"];
  FnFrag "getGlobalStats" [] ["totalGames"; "totalWins"; "globalWinRate"];
  FnFrag "hasActiveGame" ["address"] [""];
  EventFrag "GameStarted" ["player"; "gameId"; "questionIds"; "timestamp"];
  EventFrag "AnswerSubmitted" ["player"; "gameId"; "questionIndex"; "answer"; "correct"; "timestamp"];
  EventFrag "GameCompleted" ["player"; "gameId"; "carmenCaught"; "score"; "timestamp"];
  EventFrag "CarmenEscaped" ["player"; "gameId"; "finalScore"; "timestamp"]
].

Record Contract := mkContract { target : string; interface : list Fragment; runner : string }.

(** [new ethers.Contract(CONTRACT_ADDRESS, CONTRACT_ABI, signer)]. *)
Definition getContract (signer : string) : Contract :=
  mkContract CONTRACT_ADDRESS CONTRACT_ABI signer.

(** The input lists of the functions named [name]. *)
Definition functions_named (abi : list Fragment) (name : string) : list (list string) :=
  omap (fun f => match f with
                 | FnFrag n ins _ => if bool_decide (n = name) then Some ins else None
                 | EventFrag _ _ => None
                 end) abi.

(** The outputs of the function named [name]. *)
Definition outputs_of (abi : list Fragment) (name : string) : list string :=
  match omap (fun f => match f with
                       | FnFrag n _ outs => if bool_decide (n = name) then Some outs else None
                       | EventFrag _ _ => None
                       end) abi with
  | outs :: _ => outs
  | [] => []
  end.

(** [contract.name(...args)] with [nargs] arguments. The proxy gives
    [undefined] for a name with no function fragment, so the call throws
    a [TypeError]. A fragment matches when it takes [nargs] inputs, or one
    fewer (the last argument is then the overrides). When none matches,
    ethers throws an [UNSUPPORTED_OPERATION] error. The model keeps its
    [shortMessage], "no matching fragment"; the [message] a handler shows
    goes on with ethers' details (the operation, the call's key and
    arguments, the code and the ethers version), which depend on the
    installed ethers release, not part of the repository. *)
Definition dispatch (c : Contract) (name : string) (nargs : nat) : Exn + unit :=
  match functions_named (interface c) name with
  | [] => inl (TypeError ("contract." +:+ name +:+ " is not a function"))
  | fs => if existsb (fun ins => (length ins =? nargs)%nat || (S (length ins) =? nargs)%nat) fs
          then inr tt else inl (Error "no matching fragment")
  end.

End Abi.

(** ** Fetching the question set from IPFS *)
Module Ipfs.

(** A question of the IPFS file, as the game screen reads it. *)
Record Question := mkQuestion {
  id : Z; question : string; options : list string; correctAnswer : Z
}.

(** The JSON document, in the shapes the screen distinguishes: an array,
    an object with a [questions] array, or anything else. *)
Inductive QuestionsData :=
  | QArray (qs : list Question)
  | QObject (questions : option (list Question))
  | QOther.

(** The build-time environment ([import.meta.env]). *)
Record BuildEnv := mkBuildEnv {
  VITE_QUESTIONS_IPFS_HASH : option string;
  VITE_USE_LOCAL_IPFS : option string;
  VITE_LOCAL_IPFS_GATEWAY : option string
}.

Definition QUESTIONS_IPFS_HASH (env : BuildEnv) : string :=
  or_default (VITE_QUESTIONS_IPFS_HASH env)
    "bafkreign6k76liptbhl3vhzyapl2pccb5lw73cix3rdvxymdghoxzagh7u".

Record IpfsConfig := mkIpfsConfig {
  USE_LOCAL_NODE : bool; LOCAL_GATEWAY : string; PUBLIC_GATEWAYS : list string
}.

Definition IPFS_CONFIG (env : BuildEnv) : IpfsConfig := {|
  USE_LOCAL_NODE := bool_decide (VITE_USE_LOCAL_IPFS env = Some "true");
  LOCAL_GATEWAY := or_default (VITE_LOCAL_IPFS_GATEWAY env) "http://localhost:8080";
  PUBLIC_GATEWAYS := ["https://ipfs.io"; "https://cloudflare-ipfs.com"; "https://dweb.link";
                      "https://gateway.pinata.cloud"]
|}.

(** A resolved [fetch]: [response.ok], [response.status] and the outcome
    of [response.json()]. *)
Record Response := mkResponse { ok : bool; status : Z; json : Exn + QuestionsData }.

(** The network: the outcome of [fetch(url)] (a rejection is a network
    error or the 10 s [TimeoutError]). *)
Definition Network := string -> Exn + Response.

Definition gateway_url (gateway hash : string) : string := gateway +:+ "/ipfs/" +:+ hash.

(** The gateways in the order they are tried. *)
Definition gateways (cfg : IpfsConfig) : list string :=
  (if USE_LOCAL_NODE cfg then [LOCAL_GATEWAY cfg] else []) ++ PUBLIC_GATEWAYS cfg.

(** One iteration of the loop: the data, when the gateway returns it.
    Otherwise the loop goes on to the next gateway (a failing status, or a
    rejection caught by the [catch]). *)
Definition try_gateway (fetch : Network) (hash gateway : string) : option QuestionsData :=
  match fetch (gateway_url gateway hash) with
  | inr r => if ok r then match json r with inr d => Some d | inl _ => None end else None
  | inl _ => None
  end.

Fixpoint first_gateway (fetch : Network) (hash : string) (gs : list string) : option QuestionsData :=
  match gs with
  | [] => None
  | g :: gs' =>
      match try_gateway fetch hash g with
      | Some d => Some d
      | None => first_gateway fetch hash gs'
      end
  end.

(** [JSON.stringify] of a string: the string between double quotes.
    The strings it is applied to here hold no character JSON escapes. *)
Definition dquote : string := String (Ascii.Ascii false true false false false true false false) "".
Definition json_string (s : string) : string := dquote +:+ s +:+ dquote.

(** [JSON.stringify(IPFS_CONFIG)]: its three keys in the order of the
    object literal. *)
Definition stringify_config (cfg : IpfsConfig) : string :=
  "{" +:+ json_string "USE_LOCAL_NODE" +:+ ":" +:+ (if USE_LOCAL_NODE cfg then "true" else "false") +:+
  "," +:+ json_string "LOCAL_GATEWAY" +:+ ":" +:+ json_string (LOCAL_GATEWAY cfg) +:+
  "," +:+ json_string "PUBLIC_GATEWAYS" +:+ ":[" +:+
  String.concat "," (map json_string (PUBLIC_GATEWAYS cfg)) +:+ "]}".

Definition fetchQuestions (env : BuildEnv) (fetch : Network) : Exn + QuestionsData :=
  let cfg := IPFS_CONFIG env in
  match first_gateway fetch (QUESTIONS_IPFS_HASH env) (gateways cfg) with
  | Some d => inr d
  | None => inl (Error ("Failed to fetch questions from all IPFS gateways. Config: " +:+
                        stringify_config cfg))
  end.

End Ipfs.

(** ** Connecting the injected wallet *)
Module Wallet.

Record ChainConfig := mkChainConfig {
  chainId : string; chainName : string;
  currency_name : string; currency_symbol : string; currency_decimals : Z;
  rpcUrls : list string; blockExplorerUrls : list string
}.

(** [BASE_SEPOLIA]: chain id [0x14a34], that is 84532. *)
Definition BASE_SEPOLIA : ChainConfig :=
  mkChainConfig "0x14a34" "Base Sepolia" "ETH" "ETH" 18
    ["https://sepolia.base.org"] ["https://sepolia.basescan.org"].

Inductive Request :=
  | eth_requestAccounts
  | wallet_switchEthereumChain (chainId : string)
  | wallet_addEthereumChain (chain : ChainConfig).

(** [window.ethereum]: the outcome of each request, and of
    [signer.getAddress()]. *)
Record Ethereum := mkEthereum { request : Request -> Exn + unit; getAddress : Exn + string }.

(** [connectWallet()]: the requests it sends, in order, and its outcome
    (the address, or the exception it throws). *)
Definition connectWallet (ethereum : option Ethereum) : list Request * (Exn + string) :=
  match ethereum with
  | None => ([], inl (Error "Web3 wallet is not installed"))
  | Some eth =>
      match request eth eth_requestAccounts with
      | inl e => ([eth_requestAccounts], inl e)
      | inr _ =>
          let switch := wallet_switchEthereumChain (chainId BASE_SEPOLIA) in
          match request eth switch with
          | inr _ => ([eth_requestAccounts; switch], getAddress eth)
          | inl switchError =>
              if bool_decide (exn_code switchError = Some 4902) then
                let add := wallet_addEthereumChain BASE_SEPOLIA in
                match request eth add with
                | inr _ => ([eth_requestAccounts; switch; add], getAddress eth)
                | inl e => ([eth_requestAccounts; switch; add], inl e)
                end
              else ([eth_requestAccounts; switch], inl switchError)
          end
      end
  end.

End Wallet.

(** ** Drawing the question ids of a game *)
Module Selection.

(** [Math.floor(Math.random() * questions.length)], the random value
    being [r]. *)
Definition random_index (r : Q) (len : nat) : Z := Qfloor (r * inject_Z (Z.of_nat len)).

(** [questions[k]] on a JS array: [undefined] outside it. *)
Definition js_index {A} (l : list A) (k : Z) : option A :=
  if 0 <=? k then l !! Z.to_nat k else None.

(** The [for] loop. [i] counts the iterations so far, [count] the ones
    left; [questions.splice(k, 1)] is [delete]. *)
Fixpoint select_loop (rand : nat -> Q) (i count : nat) (questions : list Z) : list (option Z) :=
  match count with
  | O => []
  | S c =>
      let k := random_index (rand i) (length questions) in
      js_index questions k :: select_loop rand (S i) c (delete (Z.to_nat k) questions)
  end.

Definition selectRandomQuestions (rand : nat -> Q) (totalQuestions count : nat) : list (option Z) :=
  select_loop rand 0 count (map (fun i => Z.of_nat i + 1) (seq 0 totalQuestions)).

End Selection.

(** ** Theorems *)

Import Abi Ipfs Wallet Selection.

Lemma random_index_bounds (r : Q) (len : nat) :
  (0 <= r < 1)%Q -> (0 < len)%nat -> 0 <= random_index r len < Z.of_nat len.
Proof.
  intros [Hr0 Hr1] Hn. unfold random_index.
  assert (Hpos : (0 < inject_Z (Z.of_nat len))%Q) by (rewrite <- (Zlt_Qlt 0); lia).
  split.
  - change 0 with (Qfloor 0). apply Qfloor_resp_le.
    apply Qmult_le_0_compat; [done | by apply Qlt_le_weak].
  - rewrite Zlt_Qlt. eapply Qle_lt_trans; [apply Qfloor_le |].
    apply Qlt_le_trans with (1 * inject_Z (Z.of_nat len))%Q.
    + by apply Qmult_lt_r.
    + rewrite Qmult_1_l. apply Qle_refl.
Qed.

Lemma random_index_empty (r : Q) : random_index r 0 = 0.
Proof. destruct r as [n d]. unfold random_index, Qfloor. simpl. by rewrite Z.mul_0_r. Qed.

(** The loop draws distinct elements of the array, as long as there are
    some left, and [undefined] afterwards. *)
Lemma select_loop_spec (rand : nat -> Q) :
  (forall j, 0 <= rand j < 1)%Q ->
  forall count i qs, NoDup qs ->
  exists ids, select_loop rand i count qs = map Some ids ++ replicate (count - length qs) None /\
    length ids = Nat.min count (length qs) /\ NoDup ids /\ (forall x, x ∈ ids -> x ∈ qs).
Proof.
  intros Hr count. induction count as [|c IH]; intros i qs Hnd.
  { exists []. simpl. repeat split; [constructor | set_solver]. }
  destruct qs as [|q0 qs0] eqn:Hqs.
  - destruct (IH (S i) [] Hnd) as (ids & Heq & Hlen & _). simpl in Hlen.
    destruct ids; [| simpl in Hlen; lia]. simpl in *.
    rewrite random_index_empty. change (delete (Z.to_nat 0) (@nil Z)) with (@nil Z). rewrite Heq, Nat.sub_0_r. exists []. split; [reflexivity |]. simpl.
    repeat split; [constructor | set_solver].
  - rewrite <- Hqs in *. simpl.
    assert (Hlen0 : (0 < length qs)%nat) by (rewrite Hqs; simpl; lia).
    pose proof (random_index_bounds (rand i) (length qs) (Hr i) Hlen0) as Hk.
    destruct (lookup_lt_is_Some_2 qs (Z.to_nat (random_index (rand i) (length qs))))
      as [x Hx]; [lia |].
    pose proof (delete_Permutation _ _ _ Hx) as Hperm.
    assert (Hnd' : NoDup (x :: delete (Z.to_nat (random_index (rand i) (length qs))) qs))
      by (by rewrite <- Hperm).
    apply NoDup_cons in Hnd' as [Hnotin Hnd'].
    destruct (IH (S i) _ Hnd') as (ids & Heq & Hlen & Hnds & Hsub).
    rewrite length_delete in Heq, Hlen by (by exists x).
    unfold js_index. rewrite (proj2 (Z.leb_le _ _) (proj1 Hk)), Hx, Heq.
    exists (x :: ids). simpl.
    replace (S c - length qs)%nat with (c - (length qs - 1))%nat by lia.
    split; [done |]. split; [rewrite Hlen; destruct (length qs) as [|n]; [lia |]; simpl; by rewrite Nat.sub_0_r |]. split.
    + constructor; [| done]. intros Hin. by apply Hnotin, Hsub.
    + intros y Hy. rewrite Hperm.
      apply elem_of_cons in Hy as [-> | Hy]; [left | right; by apply Hsub].
Qed.

(** C15: [selectRandomQuestions(total, count)] returns [count] entries.
    The first [min count total] of them are distinct ids in [1..total].
    The rest, once the pool is exhausted, are [undefined]. This holds
    whatever values [Math.random] returns in [0, 1). *)
Theorem selectRandomQuestions_spec (rand : nat -> Q) (total count : nat) :
  (forall j, 0 <= rand j < 1)%Q ->
  exists ids, selectRandomQuestions rand total count =
                map Some ids ++ replicate (count - total) None /\
    length ids = Nat.min count total /\ NoDup ids /\
    (forall x, x ∈ ids -> 1 <= x <= Z.of_nat total).
Proof.
  intros Hr. unfold selectRandomQuestions.
  destruct (select_loop_spec rand Hr count 0 (map (fun i => Z.of_nat i + 1) (seq 0 total)))
    as (ids & Heq & Hlen & Hnd & Hsub).
  { apply NoDup_fmap_2; [intros a b ?; lia | apply NoDup_seq]. }
  rewrite length_map, length_seq in Heq, Hlen.
  exists ids. split; [done |]. split; [done |]. split; [done |].
  intros x Hx. apply Hsub, list_elem_of_fmap in Hx as (j & -> & Hj).
  apply elem_of_seq in Hj. lia.
Qed.

(** The game's draw, 10 ids out of 30, with [Math.random] returning 1/2. *)
Lemma selectRandomQuestions_spec_witness :
  exists ids, selectRandomQuestions (fun _ => 1 # 2)%Q 30 10 = map Some ids /\
    length ids = 10%nat /\ NoDup ids /\ (forall x, x ∈ ids -> 1 <= x <= 30).
Proof.
  destruct (selectRandomQuestions_spec (fun _ => 1 # 2)%Q 30 10) as (ids & Heq & Hlen & Hnd & Hr).
  - intros j. split; vm_compute; congruence.
  - exists ids. rewrite Heq, app_nil_r. split; [reflexivity |]. split; [exact Hlen |].
    split; [exact Hnd | exact Hr].
Defined.

Lemma first_gateway_Some fetch hash gs d :
  first_gateway fetch hash gs = Some d <->
  exists pre g post, gs = pre ++ g :: post /\
    Forall (fun g' => try_gateway fetch hash g' = None) pre /\ try_gateway fetch hash g = Some d.
Proof.
  induction gs as [|g0 gs IH]; simpl.
  - split; [done |]. intros ([|??] & ? & ? & ? & _); discriminate.
  - destruct (try_gateway fetch hash g0) as [d0|] eqn:Hg0.
    + split.
      * intros [= <-]. exists [], g0, gs. auto.
      * intros ([|g1 pre] & g & post & Heq & Hpre & Hg); injection Heq as Hh Ht; subst;
          [congruence | apply Forall_cons in Hpre as [? _]; congruence].
    + rewrite IH. split.
      * intros (pre & g & post & -> & Hpre & Hg). exists (g0 :: pre), g, post. auto.
      * intros ([|g1 pre] & g & post & Heq & Hpre & Hg); injection Heq as Hh Ht; subst;
          [congruence | apply Forall_cons in Hpre as [_ ?]; exists pre, g, post; auto].
Qed.

Lemma first_gateway_None fetch hash gs :
  first_gateway fetch hash gs = None <-> Forall (fun g => try_gateway fetch hash g = None) gs.
Proof.
  induction gs as [|g gs IH]; simpl; [split; intros _; [constructor | reflexivity] |].
  rewrite Forall_cons, <- IH. destruct (try_gateway fetch hash g); [| tauto].
  split; [discriminate | intros [? _]; discriminate].
Qed.

(** One gateway gives the data exactly when its response is [ok] and its
    body is JSON. *)
Lemma try_gateway_Some fetch hash g d :
  try_gateway fetch hash g = Some d <->
  exists r, fetch (g +:+ "/ipfs/" +:+ hash) = inr r /\ ok r = true /\ json r = inr d.
Proof.
  unfold try_gateway, gateway_url. split.
  - destruct (fetch _) as [e|r]; [done |].
    destruct (ok r) eqn:Hok, (json r) eqn:Hj; intros H; simplify_eq; eauto.
  - intros (r & -> & Hok & Hj). by rewrite Hok, Hj.
Qed.

Lemma try_gateway_None fetch hash g :
  try_gateway fetch hash g = None <->
  forall r, fetch (g +:+ "/ipfs/" +:+ hash) = inr r -> ok r = true -> exists e, json r = inl e.
Proof.
  unfold try_gateway, gateway_url. split.
  - destruct (fetch _) as [e|r]; intros H r' Hr' Hok; simplify_eq.
    rewrite Hok in H. destruct (json r'); [eauto | done].
  - intros H. destruct (fetch _) as [e|r]; [done |].
    destruct (ok r) eqn:Hok; [| done]. destruct (H r eq_refl Hok) as [e ->]. done.
Qed.

(** C16: [fetchQuestions] tries the local gateway first when
    [VITE_USE_LOCAL_IPFS] is ["true"], then [ipfs.io], [cloudflare-ipfs.com],
    [dweb.link] and [gateway.pinata.cloud], each at
    [<gateway>/ipfs/<hash>]. It returns the data of the first whose
    response is [ok] with a JSON body. Every gateway before it failed: a
    rejected fetch, a status that is not [ok], or a body that is not JSON.
    When all fail it throws its message with [JSON.stringify(IPFS_CONFIG)]. *)
Theorem fetchQuestions_first_success env fetch :
  let hash := QUESTIONS_IPFS_HASH env in
  let fails g := forall r, fetch (g +:+ "/ipfs/" +:+ hash) = inr r -> ok r = true ->
                           exists e, json r = inl e in
  let gs := (if bool_decide (VITE_USE_LOCAL_IPFS env = Some "true")
             then [or_default (VITE_LOCAL_IPFS_GATEWAY env) "http://localhost:8080"] else []) ++
            ["https://ipfs.io"; "https://cloudflare-ipfs.com"; "https://dweb.link";
             "https://gateway.pinata.cloud"] in
  (forall d, fetchQuestions env fetch = inr d <->
   exists pre g post r, gs = pre ++ g :: post /\ Forall fails pre /\
     fetch (g +:+ "/ipfs/" +:+ hash) = inr r /\ ok r = true /\ json r = inr d) /\
  (forall e, fetchQuestions env fetch = inl e <->
   Forall fails gs /\
   e = Error ("Failed to fetch questions from all IPFS gateways. Config: " +:+
              stringify_config (IPFS_CONFIG env))).
Proof.
  intros hash fails gs.
  assert (Hf : forall l, Forall (fun g => try_gateway fetch hash g = None) l <-> Forall fails l).
  { intros l. apply Forall_iff. intros g. apply try_gateway_None. }
  unfold fetchQuestions. split.
  - intros d. transitivity (first_gateway fetch hash gs = Some d);
      [destruct (first_gateway _ _ _); naive_solver |].
    rewrite first_gateway_Some. setoid_rewrite try_gateway_Some. setoid_rewrite Hf. naive_solver.
  - intros e. transitivity (first_gateway fetch hash gs = None /\
      e = Error ("Failed to fetch questions from all IPFS gateways. Config: " +:+
                 stringify_config (IPFS_CONFIG env)));
      [destruct (first_gateway _ _ _); naive_solver |].
    by rewrite first_gateway_None, Hf.
Qed.

(** The build of the page, without [.env]: all four public gateways
    fail but [dweb.link], which answers. *)
Lemma fetchQuestions_first_success_witness :
  let net := fun url => if bool_decide (url = "https://dweb.link/ipfs/" +:+ QUESTIONS_IPFS_HASH (mkBuildEnv None None None))
                        then inr (mkResponse true 200 (inr (QArray [])))
                        else inr (mkResponse false 404 (inr (QArray []))) in
  fetchQuestions (mkBuildEnv None None None) net = inr (QArray []).
Proof.
  intros net. apply (proj1 (fetchQuestions_first_success (mkBuildEnv None None None) net) (QArray [])).
  exists ["https://ipfs.io"; "https://cloudflare-ipfs.com"], "https://dweb.link",
    ["https://gateway.pinata.cloud"], (mkResponse true 200 (inr (QArray []))).
  split; [reflexivity |]. split; [| split; [vm_compute; reflexivity | split; reflexivity]].
  repeat constructor; intros r Hr Hok; vm_compute in Hr; injection Hr as <-; discriminate.
Defined.

(** C17: [connectWallet] returns the signer's address exactly when three
    things hold. The account request succeeds. The switch to Base Sepolia
    ([0x14a34]) either succeeds, or fails with code 4902 and the request
    to add the chain then succeeds. [getAddress] succeeds. Every other
    failure is rethrown. *)
Theorem connectWallet_succeeds_iff eth a :
  snd (connectWallet (Some eth)) = inr a <->
  request eth eth_requestAccounts = inr tt /\
  (request eth (wallet_switchEthereumChain "0x14a34") = inr tt \/
   exists e, request eth (wallet_switchEthereumChain "0x14a34") = inl e /\
     exn_code e = Some 4902 /\ request eth (wallet_addEthereumChain BASE_SEPOLIA) = inr tt) /\
  getAddress eth = inr a.
Proof.
  unfold connectWallet. cbn [chainId BASE_SEPOLIA].
  destruct (request eth eth_requestAccounts) as [e|[]];
    [simpl; split; [discriminate | intros (? & _); discriminate] |].
  destruct (request eth (wallet_switchEthereumChain "0x14a34")) as [e|[]]; simpl.
  - case_decide as Hc; [destruct (request eth (wallet_addEthereumChain BASE_SEPOLIA)) as [e'|[]] |];
      simpl; split; try naive_solver.
  - naive_solver.
Qed.

(** A wallet whose chain list lacks Base Sepolia: the switch fails with
    4902 and the chain is added. *)
Definition wallet_without_chain : Ethereum :=
  mkEthereum (fun r => match r with
                       | wallet_switchEthereumChain _ => inl (mkExn "Error" "Unrecognized chain" (Some 4902))
                       | _ => inr tt
                       end) (inr "0xaa").

(** The request to add the chain is sent only after the switch failed
    with 4902. *)
Lemma connectWallet_adds_chain_after_4902 w c :
  wallet_addEthereumChain c ∈ fst (connectWallet w) ->
  c = BASE_SEPOLIA /\ exists eth e, w = Some eth /\
    request eth (wallet_switchEthereumChain "0x14a34") = inl e /\ exn_code e = Some 4902.
Proof.
  destruct w as [eth|]; [| simpl; set_solver]. unfold connectWallet. cbn [chainId BASE_SEPOLIA].
  destruct (request eth eth_requestAccounts); [simpl; set_solver |].
  destruct (request eth (wallet_switchEthereumChain "0x14a34")) as [e|] eqn:Hsw; [| simpl; set_solver].
  case_decide; [| simpl; set_solver].
  intros Hin. assert (c = BASE_SEPOLIA).
  { destruct (request eth (wallet_addEthereumChain BASE_SEPOLIA)); simpl in Hin;
      repeat (apply elem_of_cons in Hin as [Hin | Hin]; [congruence |]); set_solver. }
  split; [done |]. eauto.
Qed.
