(* ===== verification/Screen.v ===== *)
(** * Screen: the state of the [CarmenGame] component

    The [useState] variables and [useRef] cells of
    [src/frontend/src/components/CarmenGame.jsx] (lines 12-37). The
    browser state they drive is explicit:
    - the timers that [setTimeout] has scheduled and not yet fired, each
      holding its callback as a [Task];
    - the tones started on an oscillator, in order.

    A callback is a closure created during a render. It keeps the values
    of that render. So a [Task] records the [musicEnabled] it saw, not the
    current one.

    [backgroundMusicRef], [successSoundRef], [failSoundRef] and
    [audioContextRef] are assigned only in code that is commented out
    (lines 103-114). They stay [null] and are left out; the branches of
    [stopBackgroundMusic] that test them never run. *)

From S2P Require Import Prelude Js Client.
Import Abi Ipfs.

Record GameState := mkGameState {
  isActive : bool;
  currentQuestion : Z;
  score : JsNum;
  selectedQuestions : list (option Z);
  gameQuestions : list Question;
  gameOver : bool;
  wrongAnswer : bool;
  lastAnswerCorrect : option bool;   (** [null] is [None] *)
  carmenCaught : option bool         (** absent from the object is [None] *)
}.

Definition initialGameState : GameState :=
  mkGameState false 0 (Num 0) [] [] false false None None.

Inductive Wave := Square | Triangle.

Record Tone := mkTone { frequency : Z; duration : Q; wave : Wave; peakGain : Q }.

(** The callbacks given to [setTimeout], with the values they closed over. *)
Inductive Task :=
  | TStartMusic (musicEnabled : bool)                  (** [() => startSimpleBackgroundMusic()] *)
  | TPlayNextNote (musicEnabled : bool) (noteIndex : nat)   (** [playNextNote] *)
  | TClearError.                                       (** [() => setError('')] *)

Record Timer := mkTimer { timer_id : nat; delay : Z; task : Task }.

Record UI := mkUI {
  contract : option Contract;
  questions : list Question;
  gameState : GameState;
  loading : bool;
  error : string;
  musicEnabled : bool;
  audioLoaded : bool;
  musicIntervalRef : option nat;
  timers : list Timer;
  next_timer : nat;
  tones : list Tone
}.

(** The state at mount. Browser timer ids are positive, so the first is 1. *)
Definition initialUI : UI :=
  mkUI None [] initialGameState false "" false false None [] 1 [].

(** What the Privy hooks give the component. *)
Record Privy := mkPrivy { ready : bool; authenticated : bool; wallets : list string }.

(** ** The setters *)

Definition setGameState (f : GameState -> GameState) : Js UI unit :=
  modify (fun s => mkUI (contract s) (questions s) (f (gameState s)) (loading s) (error s)
                        (musicEnabled s) (audioLoaded s) (musicIntervalRef s) (timers s)
                        (next_timer s) (tones s)).

Definition setLoading (b : bool) : Js UI unit :=
  modify (fun s => mkUI (contract s) (questions s) (gameState s) b (error s)
                        (musicEnabled s) (audioLoaded s) (musicIntervalRef s) (timers s)
                        (next_timer s) (tones s)).

Definition setError (e : string) : Js UI unit :=
  modify (fun s => mkUI (contract s) (questions s) (gameState s) (loading s) e
                        (musicEnabled s) (audioLoaded s) (musicIntervalRef s) (timers s)
                        (next_timer s) (tones s)).

Definition setContract (c : Contract) : Js UI unit :=
  modify (fun s => mkUI (Some c) (questions s) (gameState s) (loading s) (error s)
                        (musicEnabled s) (audioLoaded s) (musicIntervalRef s) (timers s)
                        (next_timer s) (tones s)).

Definition setQuestions (qs : list Question) : Js UI unit :=
  modify (fun s => mkUI (contract s) qs (gameState s) (loading s) (error s)
                        (musicEnabled s) (audioLoaded s) (musicIntervalRef s) (timers s)
                        (next_timer s) (tones s)).

Definition setMusicEnabled (b : bool) : Js UI unit :=
  modify (fun s => mkUI (contract s) (questions s) (gameState s) (loading s) (error s)
                        b (audioLoaded s) (musicIntervalRef s) (timers s)
                        (next_timer s) (tones s)).

Definition setAudioLoaded (b : bool) : Js UI unit :=
  modify (fun s => mkUI (contract s) (questions s) (gameState s) (loading s) (error s)
                        (musicEnabled s) b (musicIntervalRef s) (timers s)
                        (next_timer s) (tones s)).

Definition setMusicIntervalRef (r : option nat) : Js UI unit :=
  modify (fun s => mkUI (contract s) (questions s) (gameState s) (loading s) (error s)
                        (musicEnabled s) (audioLoaded s) r (timers s)
                        (next_timer s) (tones s)).

(** [setTimeout(callback, ms)]: schedules the callback and returns its id. *)
Definition setTimeout (t : Task) (ms : Z) : Js UI nat :=
  fun s => (inr (next_timer s),
            mkUI (contract s) (questions s) (gameState s) (loading s) (error s)
                 (musicEnabled s) (audioLoaded s) (musicIntervalRef s)
                 (timers s ++ [mkTimer (next_timer s) ms t]) (S (next_timer s)) (tones s)).

(** [clearTimeout(id)]: the callback will not run. *)
Definition clearTimeout (id : nat) : Js UI unit :=
  modify (fun s => mkUI (contract s) (questions s) (gameState s) (loading s) (error s)
                        (musicEnabled s) (audioLoaded s) (musicIntervalRef s)
                        (filter (fun t => timer_id t ≠ id) (timers s))
                        (next_timer s) (tones s)).

(** [oscillator.start()]: the tone is heard. *)
Definition play_tone (t : Tone) : Js UI unit :=
  modify (fun s => mkUI (contract s) (questions s) (gameState s) (loading s) (error s)
                        (musicEnabled s) (audioLoaded s) (musicIntervalRef s) (timers s)
                        (next_timer s) (tones s ++ [t])).

(** ** Invariants of the game state

    [on_game Q] holds of a component state whose [gameState] satisfies
    [Q]. Every setter but [setGameState] leaves the game state as it is. *)

Definition on_game (Q : GameState -> Prop) (s : UI) : Prop := Q (gameState s).

Lemma preserves_setGameState (Q : GameState -> Prop) (f : GameState -> GameState) :
  (forall gs, Q gs -> Q (f gs)) -> preserves (on_game Q) (setGameState f).
Proof. intros Hf s. apply Hf. Qed.

(** The primitive steps of a handler: a [setGameState] whose update
    keeps [Q] is left to the caller; any other setter keeps it. *)
Ltac preserve_leaf :=
  lazymatch goal with
  | |- preserves (on_game _) (setGameState _) => apply preserves_setGameState; intros ?gs ?Hgs
  | |- preserves (on_game _) _ => let s := fresh "s" in let Hs := fresh "Hs" in
                                  intros s Hs; exact Hs
  end.
