(* ===== verification/Audio.v ===== *)
(** * Audio: the sound code of [CarmenGame.jsx] (lines 46-301)

    Sound is made with Web Audio oscillators. Each handler is a closure of
    one render. It reads the [musicEnabled] of that render, the argument
    [me] below, and not the state at the time it runs. The timer callbacks
    in [Screen.Task] keep the same value.

    The browser is a Section variable [audio_ctx]. It is the outcome of
    creating an [AudioContext] and resuming it when suspended, the same
    for every call. When it fails, the exception is the one the browser
    throws ([NotAllowedError], [NotSupportedError], ...).

    An [async] function called without [await] ([playBeep] in
    [playSuccessSound], [playMusicNote] in [playNextNote]) runs to its end
    at the call. A rejection of its promise is not observed ([detach]). *)

From S2P Require Import Prelude Js Client Screen.

Section Audio.

Variable audio_ctx : Exn + unit.

(** [playBeep(frequency, duration)] (lines 138-171): a square wave with a
    0.3 peak gain. An audio failure is rethrown. *)
Definition playBeep (me : bool) (frequency : Z) (duration : Q) : Js UI unit :=
  if negb me then mret tt else
  await_ audio_ctx ;; play_tone (mkTone frequency duration Square (3 # 10)).

Definition playSuccessSound (me : bool) : Js UI unit :=
  if negb me then mret tt else detach (playBeep me 800 (2 # 10)).

Definition playFailSound (me : bool) : Js UI unit :=
  if negb me then mret tt else detach (playBeep me 200 (5 # 10)).

(** The melody: frequency in Hz, duration in ms. *)
Definition notes : list (Z * Z) :=
  [(392, 600); (440, 600); (523, 600); (587, 800); (523, 400); (440, 400); (392, 800)].

(** [playMusicNote(frequency, duration)] (lines 210-240): a triangle wave
    with a 0.05 peak gain. An audio failure is logged and dropped. *)
Definition playMusicNote (me : bool) (frequency : Z) (duration : Q) : Js UI unit :=
  if negb me then mret tt else
  try_catch (await_ audio_ctx ;; play_tone (mkTone frequency duration Triangle (5 # 100)))
            (fun _ => mret tt).

(** [playNextNote] (lines 191-204): play [notes[noteIndex]], advance the
    index modulo 7, and schedule the next call [duration + 200] ms later
    in [musicIntervalRef]. *)
Definition playNextNote (me : bool) (noteIndex : nat) : Js UI unit :=
  if negb me then mret tt else
  match notes !! noteIndex with
  | None => throw (TypeError "Cannot read properties of undefined (reading 'freq')")
  | Some (freq, dur) =>
      detach (playMusicNote me freq (inject_Z dur / inject_Z 1000)%Q) ;;
      id ← setTimeout (TPlayNextNote me ((noteIndex + 1) mod length notes)%nat) (dur + 200);
      setMusicIntervalRef (Some id)
  end.

Definition startSimpleBackgroundMusic (me : bool) : Js UI unit :=
  if negb me then mret tt else playNextNote me 0.

(** [stopBackgroundMusic] (lines 242-263). The two other refs it tests are
    always [null]. *)
Definition stopBackgroundMusic : Js UI unit :=
  r ← gets musicIntervalRef;
  match r with
  | Some id => clearTimeout id ;; setMusicIntervalRef None
  | None => mret tt
  end.

Definition audio_error_message (e : Exn) : string :=
  if bool_decide (exn_name e = "NotAllowedError") then
    "🔊 Audio blocked by browser. Please allow audio and try again."
  else if bool_decide (exn_name e = "NotSupportedError") then
    "🔊 Audio not supported in this browser."
  else "🔊 Audio error: " +:+ exn_message e +:+ ". Try clicking anywhere on the page first.".

(** [toggleMusic] (lines 46-93), as created by a render where
    [audioLoaded] was [al] and [musicEnabled] was [me]. *)
Definition toggleMusic (al me : bool) : Js UI unit :=
  if negb al then mret tt else
  try_catch
    (if me then stopBackgroundMusic ;; setMusicEnabled false
     else
       await_ audio_ctx ;;
       playBeep me 440 (1 # 10) ;;
       _ ← setTimeout (TStartMusic me) 200;
       setMusicEnabled true)
    (fun e => setError (audio_error_message e) ;; _ ← setTimeout TClearError 5000; mret tt).

(** [setupAudio] (lines 95-120): nothing in its [try] can throw. *)
Definition setupAudio : Js UI unit := setAudioLoaded true.

(** [testAudio] (lines 266-301): an 800 Hz square tone, not gated by
    [musicEnabled]. *)
Definition testAudio : Js UI unit :=
  try_catch
    (await_ audio_ctx ;;
     play_tone (mkTone 800 (3 # 10) Square (2 # 10)) ;;
     setError "✅ Audio test successful! Try enabling sound effects now." ;;
     _ ← setTimeout TClearError 3000; mret tt)
    (fun e => setError ("❌ Audio test failed: " +:+ exn_message e) ;;
              _ ← setTimeout TClearError 5000; mret tt).

(** The browser runs a due callback: it leaves the pending list and runs. *)
Definition run_task (t : Task) : Js UI unit :=
  match t with
  | TStartMusic me => startSimpleBackgroundMusic me
  | TPlayNextNote me i => playNextNote me i
  | TClearError => setError ""
  end.

Definition fire (id : nat) : Js UI unit :=
  ts ← gets timers;
  match list_find (fun t => timer_id t = id) ts with
  | Some (_, t) => clearTimeout id ;; run_task (task t)
  | None => mret tt
  end.

(** The browser fires the timer held in [musicIntervalRef]. *)
Definition fire_music : Js UI unit :=
  r ← gets musicIntervalRef;
  match r with Some id => fire id | None => mret tt end.

Fixpoint music_steps (n : nat) : Js UI unit :=
  match n with O => mret tt | S n => fire_music ;; music_steps n end.

End Audio.

(** The tone of the [k]-th note of the melody. *)
Definition note_tone (k : nat) : Tone :=
  let '(f, d) := nth k notes (0, 0) in mkTone f (inject_Z d / inject_Z 1000)%Q Triangle (5 # 100).

(** Pending timers have ids below the next one. *)
Definition timers_fresh (s : UI) : Prop :=
  Forall (fun t => (timer_id t < next_timer s)%nat) (timers s).

(** ** Theorems *)

Lemma timers_fresh_ne s : timers_fresh s -> Forall (fun t => timer_id t ≠ next_timer s) (timers s).
Proof. intros Hf. eapply Forall_impl; [exact Hf |]. simpl. lia. Qed.

(** Firing the last timer scheduled, whose id no other pending timer has,
    runs its callback on the state without it. *)
Lemma fire_last ctx s ts id d t :
  Forall (fun t' => timer_id t' ≠ id) ts -> timers s = ts ++ [mkTimer id d t] ->
  fire ctx id s = run_task ctx t (snd (clearTimeout id s)) /\ timers (snd (clearTimeout id s)) = ts.
Proof.
  intros Hts Hs. destruct (find_last_fresh timer_id ts (mkTimer id d t) Hts) as [Hfind Hfilter].
  unfold fire, gets, mbind, js_bind. rewrite Hs. cbn [timer_id] in Hfind, Hfilter.
  rewrite Hfind. split; [reflexivity |]. cbn. by rewrite Hs, Hfilter.
Qed.

(** One note of the melody, when the audio works. *)
Lemma playNextNote_step s i :
  (i < 7)%nat ->
  exists s', playNextNote (inr tt) true i s = (inr tt, s') /\
    tones s' = tones s ++ [note_tone i] /\
    timers s' = timers s ++ [mkTimer (next_timer s) (snd (nth i notes (0, 0)) + 200)
                                     (TPlayNextNote true ((i + 1) mod 7))] /\
    next_timer s' = S (next_timer s) /\ musicIntervalRef s' = Some (next_timer s) /\
    musicEnabled s' = musicEnabled s.
Proof.
  intros Hi. do 7 (destruct i as [|i]; [eexists; split; [reflexivity |]; repeat split |]). lia.
Qed.

Lemma music_loop n i s :
  (i < 7)%nat -> timers_fresh s ->
  tones (run (playNextNote (inr tt) true i ;; music_steps (inr tt) n) s) =
  tones s ++ map (fun k => note_tone ((i + k) mod 7)) (seq 0 (S n)).
Proof.
  revert i s. induction n as [|n IH]; intros i s Hi Hf;
    destruct (playNextNote_step s i Hi) as (s' & Hrun & Htn & Hts & Hnx & Href & _);
    rewrite run_bind, Hrun.
  - cbn [seq map]. rewrite Nat.add_0_r, Nat.mod_small by done. exact Htn.
  - cbn [music_steps]. rewrite run_bind.
    destruct (fire_last (inr tt) s' (timers s) _ _ _ (timers_fresh_ne s Hf) Hts) as [Hfire Hts'].
    unfold fire_music at 1, gets, mbind at 1, js_bind at 1. rewrite Href.
    change (fire (inr tt) (next_timer s) s') with ((fire (inr tt) (next_timer s)) s').
    rewrite Hfire. cbn [run_task].
    fold (run (playNextNote (inr tt) true ((i + 1) mod 7) ;; music_steps (inr tt) n)
            (snd (clearTimeout (next_timer s) s'))).
    rewrite <- run_bind.
    rewrite IH; [| apply Nat.mod_upper_bound; lia |].
    2: { unfold timers_fresh. rewrite Hts'. cbn. rewrite Hnx.
         eapply Forall_impl; [exact Hf |]. intros x Hx; simpl in *; lia. }
    cbn [clearTimeout modify snd tones]. rewrite Htn, <- app_assoc. f_equal.
    change (seq 0%nat (S (S n))) with (0%nat :: seq 1%nat (S n)). rewrite <- seq_shift.
    cbn [map app]. rewrite map_map, Nat.add_0_r, (Nat.mod_small i 7) by done. f_equal.
    apply map_ext. intros k. rewrite Nat.Div0.add_mod_idemp_l. do 2 f_equal. lia.
Qed.

(** C18: once started by a render where sound is on, the background
    music plays forever, in a cycle. With working audio and [n] firings
    of the timer held in [musicIntervalRef], the notes heard are notes
    [0, 1, ..., n] of the melody, taken modulo 7. *)
Theorem background_music_cycles s n :
  timers_fresh s ->
  tones (run (startSimpleBackgroundMusic (inr tt) true ;; music_steps (inr tt) n) s) =
  tones s ++ map (fun k => note_tone (k mod 7)) (seq 0 (S n)).
Proof. intros Hf. exact (music_loop n 0 s ltac:(lia) Hf). Qed.

(** Twelve notes from the mount state: the melody, then its first five
    notes again. *)
Lemma background_music_cycles_witness :
  timers_fresh initialUI /\
  tones (run (startSimpleBackgroundMusic (inr tt) true ;; music_steps (inr tt) 11) initialUI) =
  map note_tone [0; 1; 2; 3; 4; 5; 6; 0; 1; 2; 3; 4]%nat.
Proof.
  split; [constructor |].
  rewrite (background_music_cycles initialUI 11); [reflexivity | constructor].
Defined.

(** C19: turning sound on never starts the music. [toggleMusic] is the
    closure of a render where [musicEnabled] is [false]. The test beep it
    awaits and the [startSimpleBackgroundMusic] it schedules 200 ms later
    both read that [false] and return at once. The audio may work: sound
    shows as on, no tone is played, and no music timer is left pending. *)
Theorem toggleMusic_enable_never_plays s :
  timers_fresh s ->
  let s1 := run (toggleMusic (inr tt) true false) s in
  let s2 := run (fire (inr tt) (next_timer s)) s1 in
  musicEnabled s1 = true /\ tones s1 = tones s /\
  timers s1 = timers s ++ [mkTimer (next_timer s) 200 (TStartMusic false)] /\
  musicEnabled s2 = true /\ tones s2 = tones s /\ timers s2 = timers s /\
  musicIntervalRef s2 = musicIntervalRef s.
Proof.
  intros Hf s1 s2.
  assert (Hs1 : timers s1 = timers s ++ [mkTimer (next_timer s) 200 (TStartMusic false)])
    by reflexivity.
  destruct (fire_last (inr tt) s1 _ _ _ _ (timers_fresh_ne s Hf) Hs1) as [Hfire Hts].
  unfold s2, run. rewrite Hfire. cbn [run_task startSimpleBackgroundMusic negb].
  repeat split; try reflexivity. exact Hts.
Qed.

(** The component at mount, once [setupAudio] has run: clicking "SOUND
    OFF" and waiting 200 ms leaves it silent. *)
Lemma toggleMusic_enable_never_plays_witness :
  let s := run setupAudio initialUI in
  timers_fresh s /\
  tones (run (fire (inr tt) (next_timer s)) (run (toggleMusic (inr tt) true false) s)) = [].
Proof.
  split; [constructor |].
  destruct (toggleMusic_enable_never_plays (run setupAudio initialUI)) as (_ & _ & _ & _ & Ht & _);
    [constructor | exact Ht].
Defined.


