(* ===== verification/GameUI.v ===== *)
(** * GameUI: the game screen of [CarmenGame.jsx]

    The handlers of the [CarmenGame] component:
    - [loadQuestions] (lines 322-346);
    - [initializeContract] (348-396), with [loadGameState] (405-436);
    - [startNewGame] (438-513), [submitAnswer] (515-578);
    - [resetGame] (580-611), [forceCompleteReset] (303-320).
    Then the view its render selects (614-911), and [step], the relation
    of the events that drive it: the mount effects, Privy's login, clicks
    on the buttons the view shows, and timers firing.

    Each handler is the closure of one render. [snap] is the state of
    that render. The handler runs from the current state, which for a
    click is the same state. The outcomes of its awaited calls are the
    record [Chain].

    The contract's interface is the Section variable [abi]. The code uses
    [CONTRACT_ABI]. The invariants below hold for every [abi], so they
    also hold once the client's ABI is corrected. The failures that come
    from [CONTRACT_ABI] itself are stated with [abi := CONTRACT_ABI]. *)

From S2P Require Import Prelude Js Client Screen Audio.
Import Abi Ipfs Selection.

(** The outputs of [getGameState], as ethers decodes them. *)
Record GameData := mkGameData {
  gd_questionIds : list Z;
  gd_currentQuestion : Z;
  gd_correctCount : Z;
  gd_isActive : bool;
  gd_carmenCaught : bool;
  gd_startTime : Z;
  gd_endTime : Z
}.

(** [gameData.name] for a numeric output. A name that is not an output of
    [getGameState] in the ABI reads [undefined]. *)
Definition result_number (abi : list Fragment) (gd : GameData) (name : string) : option Z :=
  if bool_decide (name ∈ outputs_of abi "getGameState") then
    if bool_decide (name = "currentQuestion") then Some (gd_currentQuestion gd)
    else if bool_decide (name = "correctCount") then Some (gd_correctCount gd)
    else if bool_decide (name = "startTime") then Some (gd_startTime gd)
    else if bool_decide (name = "endTime") then Some (gd_endTime gd)
    else None
  else None.

(** [Number(v)]: [undefined] gives [NaN]. *)
Definition Number (v : option Z) : JsNum := match v with Some z => Num z | None => NaN end.

(** The outcomes of the calls the handlers await. *)
Record Chain := mkChain {
  signer : Exn + string;          (** [getEthereumProvider], [getSigner] *)
  network : Exn + Z;              (** [getNetwork()].chainId *)
  address : Exn + string;         (** [signer.getAddress()] *)
  hasActiveGame : Exn + bool;
  getGameState : Exn + GameData;
  startGame_tx : Exn + unit;      (** the transaction and [tx.wait()] *)
  submitAnswer_tx : Exn + unit;
  resetGame_tx : Exn + unit;
  random : nat -> Q               (** [Math.random] *)
}.

(** [questions.find(q => q.id === id)]. *)
Definition find_question (qs : list Question) (id : Z) : option Question :=
  snd <$> list_find (fun q => Ipfs.id q = id) qs.

(** The updates [submitAnswer] passes to [setGameState]. *)
Definition answer_wrong (prev : GameState) : GameState :=
  mkGameState (isActive prev) (currentQuestion prev) (score prev) (selectedQuestions prev)
    (gameQuestions prev) true true (Some false) (Some false).

Definition answer_last (prev : GameState) : GameState :=
  mkGameState (isActive prev) (currentQuestion prev) (js_incr (score prev))
    (selectedQuestions prev) (gameQuestions prev) true (wrongAnswer prev) (Some true) (Some true).

Definition answer_next (prev : GameState) : GameState :=
  mkGameState (isActive prev) (currentQuestion prev + 1) (js_incr (score prev))
    (selectedQuestions prev) (gameQuestions prev) (gameOver prev) (wrongAnswer prev) (Some true)
    (carmenCaught prev).

(** The guard of the contract handlers. *)
Definition connected (p : Privy) (snap : UI) : option Contract :=
  if authenticated p && bool_decide (wallets p ≠ []) then contract snap else None.

Section Handlers.

Variable audio_ctx : Exn + unit.
Variable abi : list Fragment.

(** [contract.name(...)] with [nargs] arguments, then the awaited outcome. *)
Definition call {S A} (c : Contract) (name : string) (nargs : nat) (r : Exn + A) : Js S A :=
  match dispatch c name nargs with inl e => throw e | inr _ => await_ r end.

Definition loadQuestions (env : BuildEnv) (net : Network) : Js UI unit :=
  try_catch
    (data ← await_ (fetchQuestions env net);
     qs ← match data with
          | QArray qs => mret qs
          | QObject (Some qs) => mret qs
          | _ => throw (Error "Invalid questions data structure")
          end;
     setQuestions qs)
    (fun e => setError ("Error loading questions: " +:+ exn_message e)).

Definition loadGameState (snap : UI) (c : Contract) (ch : Chain) : Js UI unit :=
  try_catch
    (gd ← call c "getGameState" 1 (getGameState ch);
     if gd_isActive gd then
       let ids := gd_questionIds gd in
       setGameState (fun _ =>
         mkGameState true (gd_currentQuestion gd) (Number (result_number abi gd "score"))
           (Some <$> ids) (omap (find_question (questions snap)) ids) false false None None)
     else mret tt)
    (fun _ => mret tt).

(** [initializeContract] once the wallet gives its signer (lines
    363-389): the network check, the contract, and the restore of an
    active game, in the closure of the render [snap]. *)
Definition connect_contract (snap : UI) (ch : Chain) (signerAddr : string) : Js UI unit :=
  chainId ← await_ (network ch);
  if negb (chainId =? 84532) then
    setError ("Wrong network! Please switch to Base Sepolia (Chain ID: 84532). Current: "
              +:+ pretty chainId) ;;
    setLoading false
  else
    let c := mkContract CONTRACT_ADDRESS abi signerAddr in
    setContract c ;;
    playerAddress ← await_ (address ch);
    hasActive ← call c "hasActiveGame" 1 (hasActiveGame ch);
    if (hasActive : bool) then loadGameState snap c ch else mret tt.

Definition initializeContract (p : Privy) (snap : UI) (ch : Chain) : Js UI unit :=
  if negb (authenticated p && bool_decide (wallets p ≠ [])) then mret tt else
  try_finally
    (try_catch
       (setLoading true ;; setError "" ;;
        signerAddr ← await_ (signer ch);
        connect_contract snap ch signerAddr)
       (fun e => setError ("Error connecting to contract: " +:+ exn_message e)))
    (setLoading false).

(** The effect on [[authenticated, wallets]] (lines 398-402): it runs
    [initializeContract] when the user is signed in with a wallet. *)
Definition authEffect (p : Privy) (snap : UI) (ch : Chain) : Js UI unit :=
  if authenticated p && bool_decide (wallets p ≠ []) then initializeContract p snap ch
  else mret tt.

(** [startNewGame] once the player's address is known (lines 462-505),
    in the closure of the render [snap] of the click. *)
Definition start_game (snap : UI) (c : Contract) (ch : Chain) : Js UI unit :=
  hasActive ← call c "hasActiveGame" 1 (hasActiveGame ch);
  if (hasActive : bool) then
    setError "You have an active game. Please finish it first or wait for it to be completed." ;;
    setLoading false
  else
    let ids := selectRandomQuestions (random ch) 30 10 in
    let gqs := omap (fun id => id ≫= find_question (questions snap)) ids in
    if negb (length gqs =? 10)%nat then
      setError ("Error: Could only find " +:+ pretty (Z.of_nat (length gqs))
                +:+ " questions out of 10 needed.") ;;
      setLoading false
    else
      call c "startGame" 1 (startGame_tx ch) ;;
      setGameState (fun _ => mkGameState true 0 (Num 0) ids gqs false false None None) ;;
      (if musicEnabled snap then startSimpleBackgroundMusic audio_ctx (musicEnabled snap)
       else mret tt).

Definition startNewGame (p : Privy) (snap : UI) (ch : Chain) : Js UI unit :=
  match connected p snap with
  | None => mret tt
  | Some c =>
  try_finally
    (try_catch
       (setLoading true ;; setError "" ;;
        if bool_decide (questions snap = []) then
          setError "Questions not loaded yet. Please wait..." ;; setLoading false
        else
          playerAddress ← await_ (address ch);
          start_game snap c ch)
       (fun e => setError ("Error starting game: " +:+ exn_message e)))
    (setLoading false)
  end.

(** What [submitAnswer] does once the transaction is mined (lines
    530-568): the sounds and updates of the render [snap] that created
    it, by whether the answer was right. *)
Definition answer_outcome (snap : UI) (isCorrect : bool) : Js UI unit :=
  let gs := gameState snap in
  if isCorrect then
    playSuccessSound audio_ctx (musicEnabled snap) ;;
    if bool_decide (currentQuestion gs = 9) then
      setGameState answer_last ;; stopBackgroundMusic
    else setGameState answer_next
  else
    playFailSound audio_ctx (musicEnabled snap) ;;
    setGameState answer_wrong ;;
    stopBackgroundMusic ;;
    setLoading false.

Definition submitAnswer (p : Privy) (snap : UI) (ch : Chain) (answerIndex : Z) : Js UI unit :=
  match connected p snap with
  | None => mret tt
  | Some c =>
  let gs := gameState snap in
  try_finally
    (try_catch
       (setLoading true ;;
        currentQ ← match js_index (gameQuestions gs) (currentQuestion gs) with
                   | Some q => mret q
                   | None => throw (TypeError "Cannot read properties of undefined (reading 'correctAnswer')")
                   end;
        let isCorrect := bool_decide (answerIndex = correctAnswer currentQ) in
        call c "submitAnswer" 1 (submitAnswer_tx ch) ;;
        answer_outcome snap isCorrect)
       (fun e => setError ("Error submitting answer: " +:+ exn_message e)))
    (setLoading false)
  end.

Definition resetGame (p : Privy) (snap : UI) (ch : Chain) : Js UI unit :=
  match connected p snap with
  | None => mret tt
  | Some c =>
  try_finally
    (try_catch
       (setLoading true ;; setError "" ;;
        call c "resetGame" 0 (resetGame_tx ch) ;;
        setGameState (fun _ => initialGameState) ;;
        stopBackgroundMusic)
       (fun e => setError ("Error resetting game: " +:+ exn_message e)))
    (setLoading false)
  end.

Definition forceCompleteReset : Js UI unit :=
  setGameState (fun _ => initialGameState) ;; setError "" ;; setLoading false ;;
  setMusicEnabled false.

End Handlers.

(** ** The view (lines 614-911) *)

Inductive GameArea :=
  | StartView                                             (** "Ready to catch Carmen?" *)
  | ActiveView (questionNumber : Z) (card : option Question)
  | ResultsView (caught : bool)                           (** the results, with the reset buttons *)
  | NoArea.

Inductive Page :=
  | PageLoading
  | PageSignIn
  | PageMain (error : string) (area : option GameArea) (overlay : bool) (sound : option bool).

(** The game area's nested conditional (lines 781-898). *)
Definition game_area (gs : GameState) : GameArea :=
  if negb (isActive gs) && negb (gameOver gs) then StartView
  else if isActive gs then
    ActiveView (currentQuestion gs + 1) (js_index (gameQuestions gs) (currentQuestion gs))
  else if gameOver gs then ResultsView (default false (carmenCaught gs))
  else NoArea.

Definition render (p : Privy) (s : UI) : Page :=
  if negb (ready p) then PageLoading
  else if negb (authenticated p) then PageSignIn
  else if loading s && bool_decide (questions s = []) then PageLoading
  else PageMain (error s)
         (if contract s is Some _ then Some (game_area (gameState s)) else None)
         (loading s)
         (if audioLoaded s then Some (musicEnabled s) else None).

(** ** The events *)

Inductive Click :=
  | ClickStart | ClickAnswer (i : Z) | ClickReset | ClickForceReset | ClickSound | ClickTestAudio.

(** The clicks the page offers: a button is shown, and not [disabled]
    (the sound buttons at lines 731-757, the game buttons at lines
    788-884). While [loading], the overlay of lines 902-908 covers the
    page and takes the mouse clicks, but a button under it that is not
    [disabled] keeps its focus and is still pressed from the keyboard:
    the sound buttons, which have no [disabled], stay offered. *)
Definition enabled (pg : Page) (a : Click) : bool :=
  match pg, a with
  | PageMain _ (Some StartView) false _, ClickStart => true
  | PageMain _ (Some (ActiveView _ (Some q))) false _, ClickAnswer i =>
      bool_decide (0 <= i < Z.of_nat (length (options q)))
  | PageMain _ (Some (ResultsView _)) false _, ClickReset => true
  | PageMain _ (Some (ResultsView _)) _ _, ClickForceReset => true
  | PageMain _ _ _ (Some _), (ClickSound | ClickTestAudio) => true
  | _, _ => false
  end.

Record World := mkWorld { privy : Privy; ui : UI; mounted : bool; fetching : bool }.

Definition initialWorld : World := mkWorld (mkPrivy false false []) initialUI false false.

Section Step.

Variable audio_ctx : Exn + unit.
Variable abi : list Fragment.

(** The handler of a click, as created by the render of [s]. *)
Definition on_click (p : Privy) (s : UI) (ch : Chain) (a : Click) : Js UI unit :=
  match a with
  | ClickStart => startNewGame audio_ctx p s ch
  | ClickAnswer i => submitAnswer audio_ctx p s ch i
  | ClickReset => resetGame p s ch
  | ClickForceReset => forceCompleteReset
  | ClickSound => toggleMusic audio_ctx (audioLoaded s) (musicEnabled s)
  | ClickTestAudio => testAudio audio_ctx
  end.

Inductive step : World -> World -> Prop :=
  (** the mount effect: [loadQuestions()] awaits its fetch, [setupAudio()] runs *)
  | step_mount p s f :
      step (mkWorld p s false f) (mkWorld p (run setupAudio s) true true)
  (** the fetch of [loadQuestions] completes *)
  | step_questions p s env net :
      step (mkWorld p s true true) (mkWorld p (run (loadQuestions env net) s) true false)
  | step_ready p s m f :
      step (mkWorld p s m f) (mkWorld (mkPrivy true (authenticated p) (wallets p)) s m f)
  (** login: the effect on [authenticated] and [wallets] runs *)
  | step_login p s m f ws ch :
      step (mkWorld p s m f)
           (mkWorld (mkPrivy (ready p) true ws)
                    (run (authEffect abi (mkPrivy (ready p) true ws) s ch) s) m f)
  | step_logout p s m f :
      step (mkWorld p s m f) (mkWorld (mkPrivy (ready p) false []) s m f)
  | step_click p s m f a ch :
      enabled (render p s) a = true ->
      step (mkWorld p s m f) (mkWorld p (run (on_click p s ch a) s) m f)
  | step_fire p s m f id :
      step (mkWorld p s m f) (mkWorld p (run (fire audio_ctx id) s) m f).

Definition reachable : World -> Prop := rtc step initialWorld.

End Step.

(** ** A concrete session

    Thirty questions, all answered by option 0, served by every gateway.
    A wallet on Base Sepolia with no active game; every transaction
    succeeds; [Math.random] returns 1/2. [fixed_abi] is [CONTRACT_ABI]
    with the one-argument [submitAnswer] that the client calls. *)

Definition sample_question (k : nat) : Question :=
  mkQuestion (Z.of_nat k + 1) "Where is Carmen?" ["Paris"; "Cairo"; "Lima"; "Oslo"] 0.

Definition sample_questions : list Question := map sample_question (seq 0 30).

Definition sample_network : Network :=
  fun _ => inr (mkResponse true 200 (inr (QArray sample_questions))).

Definition no_env : BuildEnv := mkBuildEnv None None None.

Definition sample_chain : Chain :=
  mkChain (inr "0xaa") (inr 84532) (inr "0xaa") (inr false) (inl (Error "no game"))
    (inr tt) (inr tt) (inr tt) (fun _ => 1 # 2)%Q.

Definition fixed_abi : list Fragment :=
  map (fun f => match f with
                | FnFrag "submitAnswer" _ outs => FnFrag "submitAnswer" ["uint256"] outs
                | f => f
                end) CONTRACT_ABI.

(** The session step by step: mount and load the questions, log in,
    start a game. *)
Definition privy_in : Privy := mkPrivy true true ["0xaa"].

Definition ui_mounted : UI := run (loadQuestions no_env sample_network) (run setupAudio initialUI).

Definition ui_logged_in (abi : list Fragment) : UI :=
  run (authEffect abi privy_in ui_mounted sample_chain) ui_mounted.

Definition ui_playing (abi : list Fragment) : UI :=
  run (startNewGame (inr tt) privy_in (ui_logged_in abi) sample_chain) (ui_logged_in abi).

(** A chain where the player already has an active game, at question 4. *)
Definition resume_chain : Chain :=
  mkChain (inr "0xaa") (inr 84532) (inr "0xaa") (inr true)
    (inr (mkGameData [3; 8; 1; 22; 5; 9; 14; 2; 30; 7] 3 3 true false 1000 0))
    (inr tt) (inr tt) (inr tt) (fun _ => 1 # 2)%Q.

(** ** Theorems *)

(** The walk of [preserve] through a handler and the audio code it calls,
    with [leaf] for the primitive updates. *)
Ltac ui_walk leaf :=
  unfold toggleMusic, testAudio, fire, run_task, startSimpleBackgroundMusic, playNextNote,
    playSuccessSound, playFailSound, playBeep, playMusicNote, stopBackgroundMusic, setupAudio,
    loadGameState, loadQuestions, call;
  repeat (cbv beta zeta;
          first [preserve_step
                | lazymatch goal with |- preserves _ (detach _) => apply preserves_detach end
                | leaf]).

Ltac ui_preserve := ui_walk ltac:(idtac; preserve_leaf).

(** The invariant of the game state: a game that is over is still active. *)
Definition game_inv (gs : GameState) : Prop := gameOver gs = true -> isActive gs = true.

(** [submitAnswer] never clears [isActive]. *)
Lemma submitAnswer_keeps_active ctx p snap ch i :
  preserves (on_game (fun gs => isActive gs = true)) (submitAnswer ctx p snap ch i).
Proof. unfold submitAnswer, answer_outcome. ui_preserve; exact Hgs. Qed.

Lemma on_click_inv ctx p s ch a :
  (forall i, a ≠ ClickAnswer i) -> preserves (on_game game_inv) (on_click ctx p s ch a).
Proof.
  intros Ha. destruct a; [| by destruct (Ha i) | ..]; unfold on_click;
    unfold startNewGame, start_game, resetGame, forceCompleteReset; ui_preserve;
    intros ?; simpl in *; first [reflexivity | discriminate].
Qed.

(** An answer button is shown only for an active game. *)
Lemma enabled_answer_active p s i :
  enabled (render p s) (ClickAnswer i) = true -> isActive (gameState s) = true.
Proof.
  unfold enabled, render, game_area.
  destruct (ready p), (authenticated p), (loading s), (questions s), (contract s),
    (isActive (gameState s)), (gameOver (gameState s)), (audioLoaded s); simpl; try done.
  all: by destruct (js_index _ _).
Qed.

Lemma step_inv ctx abi w w' :
  step ctx abi w w' -> game_inv (gameState (ui w)) -> game_inv (gameState (ui w')).
Proof.
  intros Hstep Hinv.
  destruct Hstep as [p s f | p s env net | | p s m f ws ch | | p s m f a ch Hen | p s m f id];
    simpl in *; try done.
  - assert (H : preserves (on_game game_inv) (loadQuestions env net)) by ui_preserve.
    exact (H s Hinv).
  - assert (H : preserves (on_game game_inv) (authEffect abi (mkPrivy (ready p) true ws) s ch)).
    { unfold authEffect, initializeContract, connect_contract. ui_preserve. intros _. reflexivity. }
    exact (H s Hinv).
  - destruct a as [| i | | | |];
      first [ refine (on_click_inv ctx p s ch _ _ s Hinv); intros ??; discriminate
            | intros _; apply (submitAnswer_keeps_active ctx p s ch i s);
              exact (enabled_answer_active p s i Hen) ].
  - assert (H : preserves (on_game game_inv) (fire ctx id)) by ui_preserve. exact (H s Hinv).
Qed.

Lemma reachable_inv ctx abi w : reachable ctx abi w -> game_inv (gameState (ui w)).
Proof.
  unfold reachable. intros Hr.
  assert (H0 : game_inv (gameState (ui initialWorld))) by (intros ?; discriminate).
  revert H0. induction Hr as [|x y z Hxy _ IH]; [done |].
  intros Hx. apply IH. exact (step_inv _ _ _ _ Hxy Hx).
Qed.

(** C20: the results screen is never shown. Its branch of the render
    needs [gameOver] without [isActive]. [submitAnswer] ends a game by
    setting [gameOver] and leaves [isActive] set, and no handler clears
    [isActive] without clearing [gameOver]. So in every reachable state,
    and for every ABI, the game area is never the results view. Its two
    reset buttons are never enabled, and after Carmen escapes or is caught
    the last question stays on screen. *)
Theorem results_view_unreachable ctx abi w :
  reachable ctx abi w ->
  (forall c, game_area (gameState (ui w)) ≠ ResultsView c) /\
  enabled (render (privy w) (ui w)) ClickReset = false /\
  enabled (render (privy w) (ui w)) ClickForceReset = false.
Proof.
  intros Hr. pose proof (reachable_inv ctx abi w Hr) as Hinv. unfold game_inv in Hinv.
  assert (Hnr : forall c, game_area (gameState (ui w)) ≠ ResultsView c).
  { intros c. unfold game_area.
    destruct (isActive _), (gameOver _); simpl; try discriminate. by specialize (Hinv eq_refl). }
  split; [done |]. unfold enabled, render.
  destruct (game_area (gameState (ui w))) as [| | cc |] eqn:Hg; [| | by destruct (Hnr cc) |];
    destruct (ready _), (authenticated _), (loading _), (questions _), (contract _),
      (audioLoaded _); simpl; split; try done; by case_match.
Qed.

(** The concrete session with the corrected ABI: the player starts a game
    and answers the first question wrong. The game is over, and the
    screen still shows question 1 with its answer buttons. *)
Lemma results_view_unreachable_witness :
  exists w, reachable (inr tt) fixed_abi w /\ gameOver (gameState (ui w)) = true /\
    (exists q, game_area (gameState (ui w)) = ActiveView 1 (Some q)) /\
    forall c, game_area (gameState (ui w)) ≠ ResultsView c.
Proof.
  assert (Hs : exists w, reachable (inr tt) fixed_abi w /\ gameOver (gameState (ui w)) = true /\
                 exists q, game_area (gameState (ui w)) = ActiveView 1 (Some q)).
  { eexists. split.
    - unfold reachable, initialWorld.
      eapply rtc_l; [apply step_mount |].
      eapply rtc_l; [apply (step_questions _ _ _ _ no_env sample_network) |].
      eapply rtc_l; [apply step_ready |].
      eapply rtc_l; [apply (step_login _ _ _ _ _ _ ["0xaa"] sample_chain) |].
      eapply rtc_l; [apply (step_click _ _ _ _ _ _ ClickStart sample_chain);
                     vm_compute; reflexivity |].
      eapply rtc_l; [apply (step_click _ _ _ _ _ _ (ClickAnswer 1) sample_chain);
                     vm_compute; reflexivity |].
      apply rtc_refl.
    - split; [vm_compute; reflexivity |]. eexists. vm_compute. reflexivity. }
  destruct Hs as (w & Hr & Hover & Hview).
  exists w. split; [exact Hr |]. split; [exact Hover |]. split; [exact Hview |].
  exact (proj1 (results_view_unreachable (inr tt) fixed_abi w Hr)).
Defined.

(** How the client's ABI resolves the two calls it cannot serve. *)
Lemma dispatch_submitAnswer_client c :
  interface c = CONTRACT_ABI -> dispatch c "submitAnswer" 1 = inl (Error "no matching fragment").
Proof. intros Hc. unfold dispatch. by rewrite Hc. Qed.

Lemma dispatch_resetGame_client c :
  interface c = CONTRACT_ABI ->
  dispatch c "resetGame" 0 = inl (TypeError "contract.resetGame is not a function").
Proof. intros Hc. unfold dispatch. by rewrite Hc. Qed.

Lemma dispatch_client_reads c :
  interface c = CONTRACT_ABI ->
  dispatch c "hasActiveGame" 1 = inr tt /\ dispatch c "getGameState" 1 = inr tt.
Proof. intros Hc. unfold dispatch. by rewrite Hc. Qed.

(** C21: with the client's ABI no answer is ever recorded. The ABI
    declares [submitAnswer(uint256, uint256)], and the screen calls
    [contract.submitAnswer(answerIndex)] with one argument. ethers finds
    no matching fragment and throws before any transaction is sent. The
    handler catches it, so the game state, sounds and timers stay as they
    were, and the page shows the error. *)
Theorem submitAnswer_rejected_by_client_abi ctx p s ch i c q :
  connected p s = Some c -> interface c = CONTRACT_ABI ->
  js_index (gameQuestions (gameState s)) (currentQuestion (gameState s)) = Some q ->
  let s' := run (submitAnswer ctx p s ch i) s in
  gameState s' = gameState s /\ error s' = "Error submitting answer: no matching fragment" /\
  loading s' = false /\ tones s' = tones s /\ timers s' = timers s.
Proof.
  intros Hc Habi Hq s'. unfold s', submitAnswer. rewrite Hc. cbv zeta.
  unfold call. rewrite dispatch_submitAnswer_client by done.
  unfold run, try_finally, try_catch, mbind, js_bind. cbn. rewrite Hq. cbn.
  repeat split; reflexivity.
Qed.

(** The session with the client's ABI, at its first question. *)
Lemma submitAnswer_rejected_by_client_abi_witness :
  let s := ui_playing CONTRACT_ABI in
  let s' := run (submitAnswer (inr tt) privy_in s sample_chain 0) s in
  gameState s' = gameState s /\ error s' = "Error submitting answer: no matching fragment".
Proof.
  destruct (submitAnswer_rejected_by_client_abi (inr tt) privy_in (ui_playing CONTRACT_ABI)
              sample_chain 0 (default (getContract "") (contract (ui_playing CONTRACT_ABI)))
              (sample_question 15)) as (Hg & He & _).
  - vm_compute. reflexivity.
  - vm_compute. reflexivity.
  - vm_compute. reflexivity.
  - split; [exact Hg | exact He].
Defined.

(** C22: [resetGame] never resets. [CONTRACT_ABI] has no [resetGame], so
    [contract.resetGame] is [undefined] and calling it throws a
    [TypeError]. The game state is left as it was, and the error is
    shown. *)
Theorem resetGame_not_a_function p s ch c :
  connected p s = Some c -> interface c = CONTRACT_ABI ->
  let s' := run (resetGame p s ch) s in
  gameState s' = gameState s /\
  error s' = "Error resetting game: contract.resetGame is not a function" /\ loading s' = false.
Proof.
  intros Hc Habi s'. unfold s', resetGame. rewrite Hc.
  unfold call. rewrite dispatch_resetGame_client by done. repeat split.
Qed.

Lemma resetGame_not_a_function_witness :
  let s := ui_playing CONTRACT_ABI in
  gameState (run (resetGame privy_in s sample_chain) s) = gameState s /\
  isActive (gameState s) = true.
Proof.
  destruct (resetGame_not_a_function privy_in (ui_playing CONTRACT_ABI) sample_chain
              (default (getContract "") (contract (ui_playing CONTRACT_ABI)))) as (Hg & _).
  - vm_compute. reflexivity.
  - vm_compute. reflexivity.
  - split; [exact Hg | vm_compute; reflexivity].
Defined.

(** C23: when the call is accepted, [submitAnswer] moves the game as the
    rules say. A correct answer to question 10 (index 9) adds a point and
    ends the game with Carmen caught. A correct answer to an earlier
    question adds a point and moves to the next one. A wrong answer ends
    the game with Carmen escaped, and the score is unchanged. In every
    case the loading flag is cleared. *)
Theorem submitAnswer_outcome ctx p s ch i c q :
  connected p s = Some c ->
  js_index (gameQuestions (gameState s)) (currentQuestion (gameState s)) = Some q ->
  dispatch c "submitAnswer" 1 = inr tt -> submitAnswer_tx ch = inr tt ->
  let gs := gameState s in
  let s' := run (submitAnswer ctx p s ch i) s in
  gameState s' =
    (if bool_decide (i = correctAnswer q) then
       if bool_decide (currentQuestion gs = 9) then answer_last gs else answer_next gs
     else answer_wrong gs) /\
  loading s' = false.
Proof.
  intros Hc Hq Hd Htx. cbv zeta.
  unfold submitAnswer, answer_outcome, call, playSuccessSound, playFailSound, playBeep, detach,
    stopBackgroundMusic, gets, run, try_finally, try_catch, mbind, js_bind, mret, js_ret,
    await_, throw.
  rewrite Hc, Hq, Hd, Htx. cbn.
  destruct ctx as [e|[]], (musicEnabled s), (bool_decide (i = correctAnswer q)),
    (bool_decide (currentQuestion (gameState s) = 9)), (musicIntervalRef s); cbn;
    split; reflexivity.
Qed.

(** With the corrected ABI: the first answer of the session is right
    (option 0) and moves the game to question 2 with one point. *)
Lemma submitAnswer_outcome_witness :
  let s := ui_playing fixed_abi in
  let s' := run (submitAnswer (inr tt) privy_in s sample_chain 0) s in
  currentQuestion (gameState s') = 1 /\ score (gameState s') = Num 1 /\
  gameOver (gameState s') = false.
Proof.
  destruct (submitAnswer_outcome (inr tt) privy_in (ui_playing fixed_abi) sample_chain 0
              (default (getContract "") (contract (ui_playing fixed_abi))) (sample_question 15))
    as [Hg _].
  - vm_compute. reflexivity.
  - vm_compute. reflexivity.
  - vm_compute. reflexivity.
  - reflexivity.
  - cbv zeta. rewrite Hg. vm_compute. repeat split.
Defined.

(** C24: [startNewGame] starts a game exactly when all of these hold.
    - The questions are loaded.
    - The wallet gives an address.
    - [hasActiveGame] is callable and answers [false].
    - All ten drawn ids name a loaded question.
    - [startGame] is callable and its transaction succeeds.
    The new game is active at question 1 with score 0, on the drawn ids.
    On any other branch the game state is unchanged and an error is
    shown. On every branch the loading flag ends cleared. *)
Theorem startNewGame_outcome ctx p s ch c :
  connected p s = Some c ->
  let ids := selectRandomQuestions (random ch) 30 10 in
  let gqs := omap (fun id => id ≫= find_question (questions s)) ids in
  let ok := bool_decide (questions s ≠ []) && is_ok (address ch) &&
            bool_decide (dispatch c "hasActiveGame" 1 = inr tt) &&
            bool_decide (hasActiveGame ch = inr false) && bool_decide (length gqs = 10%nat) &&
            bool_decide (dispatch c "startGame" 1 = inr tt) &&
            bool_decide (startGame_tx ch = inr tt) in
  let s' := run (startNewGame ctx p s ch) s in
  gameState s' = (if ok then mkGameState true 0 (Num 0) ids gqs false false None None
                  else gameState s) /\
  loading s' = false /\ (error s' = "" <-> ok = true).
Proof.
  intros Hc. cbv zeta. unfold startNewGame, start_game. rewrite Hc.
  generalize (selectRandomQuestions (random ch) 30 10) as ids. intros ids.
  remember (omap (fun id => id ≫= find_question (questions s)) ids) as gqs eqn:Hgqs.
  clear Hgqs.
  unfold call, startSimpleBackgroundMusic, playNextNote, playMusicNote, detach,
    gets, run, try_finally, try_catch, mbind, js_bind, mret, js_ret, await_, throw.
  destruct (questions s) as [|q qs]; [cbn; repeat split; done |].
  destruct (address ch) as [e|a]; [cbn; repeat split; done |].
  destruct (dispatch c "hasActiveGame" 1) as [e|[]]; [cbn; repeat split; done |].
  destruct (hasActiveGame ch) as [e|[|]]; [cbn; repeat split; done | cbn; repeat split; done |].
  destruct (Nat.eq_dec (length gqs) 10) as [Hl|Hl].
  2: { rewrite (bool_decide_eq_false_2 (length gqs = 10%nat)) by done.
       rewrite (proj2 (Nat.eqb_neq _ _) Hl). cbn. repeat split; done. }
  rewrite (bool_decide_eq_true_2 (length gqs = 10%nat)) by done. rewrite Hl. cbn.
  destruct (dispatch c "startGame" 1) as [e|[]]; [cbn; repeat split; done |].
  destruct (startGame_tx ch) as [e|[]]; [cbn; repeat split; done |].
  destruct ctx as [e|[]], (musicEnabled s); cbn; repeat split; done.
Qed.

(** After login, the session's start succeeds: every condition holds. *)
Lemma startNewGame_outcome_witness :
  let s := ui_logged_in CONTRACT_ABI in
  let s' := run (startNewGame (inr tt) privy_in s sample_chain) s in
  isActive (gameState s') = true /\ length (gameQuestions (gameState s')) = 10%nat /\
  error s' = "".
Proof.
  destruct (startNewGame_outcome (inr tt) privy_in (ui_logged_in CONTRACT_ABI) sample_chain
              (default (getContract "") (contract (ui_logged_in CONTRACT_ABI))))
    as (Hg & _ & He).
  - vm_compute. reflexivity.
  - cbv zeta in *. rewrite Hg. split; [vm_compute; reflexivity |].
    split; [vm_compute; reflexivity |]. apply He. vm_compute. reflexivity.
Defined.

(** C25: reloading the page during a game restores it with a score of
    [NaN]. With the client's ABI, [initializeContract] finds the player's
    active game. It then sets the game state from [getGameState], reading
    [gameData.score]. [getGameState] has no output named [score], so the
    score is [Number(undefined)], that is [NaN]. The questions are looked
    up in the [questions] of the render that created the handler, not in
    the current ones. *)
Theorem initializeContract_restores_game p snap ch s gd signerAddr playerAddress :
  authenticated p = true -> wallets p ≠ [] ->
  signer ch = inr signerAddr -> network ch = inr 84532 -> address ch = inr playerAddress ->
  hasActiveGame ch = inr true -> getGameState ch = inr gd -> gd_isActive gd = true ->
  let s' := run (initializeContract CONTRACT_ABI p snap ch) s in
  gameState s' =
    mkGameState true (gd_currentQuestion gd) NaN (Some <$> gd_questionIds gd)
      (omap (find_question (questions snap)) (gd_questionIds gd)) false false None None /\
  loading s' = false /\ error s' = "".
Proof.
  intros Ha Hw Hs Hn Had Hh Hg Hact. cbv zeta.
  unfold initializeContract, connect_contract, loadGameState, call, run, try_finally, try_catch, mbind, js_bind,
    mret, js_ret, await_.
  rewrite Ha, (bool_decide_eq_true_2 (wallets p ≠ [])) by done. cbn.
  rewrite Hs, Hn, Had. cbn.
  destruct (dispatch_client_reads (mkContract CONTRACT_ADDRESS CONTRACT_ABI signerAddr) eq_refl)
    as [-> ->].
  rewrite Hh, Hg. cbn. rewrite Hact. cbn. repeat split.
Qed.

(** A wallet already connected at mount: the handler is created before
    the questions arrive. *)
Lemma initializeContract_restores_game_witness :
  let s' := run (initializeContract CONTRACT_ABI privy_in (run setupAudio initialUI) resume_chain)
                ui_mounted in
  score (gameState s') = NaN /\ isActive (gameState s') = true.
Proof.
  destruct (initializeContract_restores_game privy_in (run setupAudio initialUI) resume_chain
              ui_mounted (mkGameData [3; 8; 1; 22; 5; 9; 14; 2; 30; 7] 3 3 true false 1000 0)
              "0xaa" "0xaa") as (Hg & _ & _);
    try (vm_compute; reflexivity); try discriminate.
  cbv zeta in *. rewrite Hg. split; reflexivity.
Defined.

(** No id names a question of an empty list. *)
Lemma omap_find_question_nil (ids : list Z) : omap (find_question []) ids = [].
Proof. induction ids as [|x ids IH]; [done |]. cbn. exact IH. Qed.

(** C26: a game restored by a handler created before the questions were
    loaded cannot be played. Its question list is empty. The screen shows
    "Question 4 of 10" with no question card, so no answer button, and no
    start button. This holds whatever questions the component holds by
    then. *)
Theorem restored_game_unplayable p snap ch s gd signerAddr playerAddress :
  questions snap = [] ->
  authenticated p = true -> wallets p ≠ [] ->
  signer ch = inr signerAddr -> network ch = inr 84532 -> address ch = inr playerAddress ->
  hasActiveGame ch = inr true -> getGameState ch = inr gd -> gd_isActive gd = true ->
  let s' := run (initializeContract CONTRACT_ABI p snap ch) s in
  game_area (gameState s') = ActiveView (gd_currentQuestion gd + 1) None /\
  forall p', enabled (render p' s') ClickStart = false /\
             forall i, enabled (render p' s') (ClickAnswer i) = false.
Proof.
  intros Hq Ha Hw Hs Hn Had Hh Hg Hact s'.
  destruct (initializeContract_restores_game p snap ch s gd signerAddr playerAddress
              Ha Hw Hs Hn Had Hh Hg Hact) as (Hgs & _).
  fold s' in Hgs. rewrite Hq in Hgs.
  assert (Harea : game_area (gameState s') = ActiveView (gd_currentQuestion gd + 1) None).
  { rewrite Hgs. unfold game_area. simpl.
    rewrite omap_find_question_nil. by destruct (gd_currentQuestion gd). }
  split; [exact Harea |]. intros p'. unfold enabled, render.
  destruct (ready p'), (authenticated p'), (loading s' && _), (contract s'), (audioLoaded s');
    simpl; try (split; [done | intros; done]); rewrite Harea; split; done.
Qed.

(** The race at mount: the wallet is already connected, so the handler
    is created with no questions; they arrive, and the game stays empty. *)
Lemma restored_game_unplayable_witness :
  let s' := run (initializeContract CONTRACT_ABI privy_in (run setupAudio initialUI) resume_chain)
                ui_mounted in
  questions s' ≠ [] /\ game_area (gameState s') = ActiveView 4 None.
Proof.
  destruct (restored_game_unplayable privy_in (run setupAudio initialUI) resume_chain ui_mounted
              (mkGameData [3; 8; 1; 22; 5; 9; 14; 2; 30; 7] 3 3 true false 1000 0)
              "0xaa" "0xaa") as (Harea & _);
    try (vm_compute; reflexivity); try discriminate.
  split; [vm_compute; discriminate | exact Harea].
Defined.
