(* ===== verification/Auth.v ===== *)
(** * Auth: the sign-in panel of [Auth.jsx]

    [Auth] reads [ready], [authenticated] and [user] from Privy's
    [usePrivy()] and shows one of three panels: a spinner, the sign-in
    button, or the signed-in user with the sign-out button (lines 3-76).
    The user is shown by an avatar letter and a label, computed with
    optional chaining. An absent value is [undefined]: here [None].

    [CarmenGame] embeds the panel twice: on its sign-in page (line 641)
    and at the top of its main page (line 775). [auth_panel] is that
    composition with the page [GameUI.render] selects.

    Strings are taken as ASCII: [s[0]] is the first character and
    [toUpperCase] maps [a]-[z] to [A]-[Z]. *)

From S2P Require Import Prelude Js Client Screen Audio GameUI Leaderboard.
From Stdlib Require Import Ascii.

(** The fields of Privy's [user] that the panel reads:
    [user.email.address] and [user.wallet.address]. *)
Record User := mkUser { email : option string; wallet : option string }.

(** What [usePrivy()] returns; [user] is [null] when signed out. *)
Record PrivyAuth := mkPrivyAuth { auth_ready : bool; auth_authenticated : bool; user : option User }.

(** ** The string operations of the panel *)

(** [c.toUpperCase()] on one ASCII character. *)
Definition ascii_toUpper (c : ascii) : ascii :=
  let n := nat_of_ascii c in
  if (97 <=? n)%nat && (n <=? 122)%nat then ascii_of_nat (n - 32) else c.

Fixpoint toUpperCase (s : string) : string :=
  match s with
  | EmptyString => EmptyString
  | String c s' => String (ascii_toUpper c) (toUpperCase s')
  end.

(** [s?.[0]]: [undefined] on the empty string. *)
Definition char_at0 (s : string) : option string :=
  match s with EmptyString => None | String c _ => Some (String c EmptyString) end.

(** [s.slice(0, n)]. *)
Definition slice_prefix (n : nat) (s : string) : string := String.substring 0 n s.

(** [s.slice(-4)]: the start is [length - 4], or 0 when that is negative. *)
Definition slice_last4 (s : string) : string := String.substring (String.length s - 4) 4 s.

(** [x || y] on values that are strings or [undefined]. *)
Definition js_or (x y : option string) : option string :=
  match x with Some v => if bool_decide (v = "") then y else x | None => y end.

(** [`${x}`]: [undefined] prints as ["undefined"]. *)
Definition template (x : option string) : string := default "undefined" x.

(** ** The panel *)

Definition email_address (u : option User) : option string := u ≫= email.
Definition wallet_address (u : option User) : option string := u ≫= wallet.

(** [user?.email?.address?.[0]?.toUpperCase() || user?.wallet?.address?.slice(0, 2)];
    [None] renders nothing. *)
Definition avatarText (u : option User) : option string :=
  js_or (toUpperCase <$> (email_address u ≫= char_at0))
        (slice_prefix 2 <$> wallet_address u).

(** [user?.email?.address ||
     `${user?.wallet?.address?.slice(0, 6)}...${user?.wallet?.address?.slice(-4)}`]. *)
Definition userLabel (u : option User) : string :=
  or_default (email_address u)
    (template (slice_prefix 6 <$> wallet_address u) +:+ "..." +:+
     template (slice_last4 <$> wallet_address u)).

Inductive AuthView :=
  | AuthLoading                                        (** "Loading authentication..." *)
  | AuthSignIn                                         (** the button calling [login] *)
  | AuthSignedIn (avatar : option string) (label : string).   (** and the button calling [logout] *)

Definition Auth (p : PrivyAuth) : AuthView :=
  if negb (auth_ready p) then AuthLoading
  else if negb (auth_authenticated p) then AuthSignIn
  else AuthSignedIn (avatarText (user p)) (userLabel (user p)).

(** The panel [CarmenGame] shows, if its page has one. Both components
    read the same [usePrivy()]. *)
Definition auth_panel (p : Privy) (u : option User) (s : UI) : option AuthView :=
  match render p s with
  | PageLoading => None
  | PageSignIn | PageMain _ _ _ _ => Some (Auth (mkPrivyAuth (ready p) (authenticated p) u))
  end.

(** ** Theorems *)

(** [slice(-4)] agrees with the explicit length test of [formatAddress]. *)
Lemma slice_last4_short (w : string) :
  slice_last4 w = if (4 <=? String.length w)%nat then String.substring (String.length w - 4) 4 w else w.
Proof.
  unfold slice_last4. destruct (Nat.leb_spec 4 (String.length w)); [done |].
  replace (String.length w - 4)%nat with 0%nat by lia. apply substring_0_long. lia.
Qed.

(** The label built from a wallet address is [formatAddress] of it. *)
Lemma wallet_label (w : string) :
  template (slice_prefix 6 <$> Some w) +:+ "..." +:+ template (slice_last4 <$> Some w) =
  formatAddress w.
Proof. cbn. unfold formatAddress, slice_prefix. by rewrite slice_last4_short. Qed.

(** C29: what the panel shows for a signed-in user, for every shape of
    Privy's [user]. With an email address: its first letter in upper case,
    and the address. Otherwise, with a wallet: its first two characters,
    and [formatAddress] of it. With neither, as for a Google or Discord
    login before Privy has created the embedded wallet: an empty avatar
    and the label ["undefined...undefined"]. *)
Theorem auth_display (u : option User) :
  match email_address u with
  | Some (String c rest) =>
      avatarText u = Some (String (ascii_toUpper c) EmptyString) /\ userLabel u = String c rest
  | _ =>
      match wallet_address u with
      | Some w => avatarText u = Some (slice_prefix 2 w) /\ userLabel u = formatAddress w
      | None => avatarText u = None /\ userLabel u = "undefined...undefined"
      end
  end.
Proof.
  unfold avatarText, userLabel.
  destruct (email_address u) as [[|c rest]|]; cbn [char_at0 mbind option_bind fmap option_fmap
    option_map or_default js_or].
  all: try (rewrite bool_decide_true by done).
  all: try (split; [done | by apply or_default_truthy]).
  all: destruct (wallet_address u) as [w|]; split; try done; apply wallet_label.
Qed.

(** Without an email address, a wallet user is shown by the wallet.
    The label is the same [0x1234...cdef] form that [formatAddress] of
    the leaderboard gives, for every address, the ones shorter than four
    characters included. The avatar is the first two characters. *)
Theorem auth_display_wallet (u : option User) (w : string) :
  or_default (email_address u) "" = "" -> wallet_address u = Some w ->
  avatarText u = Some (slice_prefix 2 w) /\ userLabel u = formatAddress w.
Proof.
  intros He Hw. unfold avatarText, userLabel. rewrite (or_default_falsy _ _ He), Hw.
  split; [| apply wallet_label].
  destruct (email_address u) as [[|c e]|]; cbn in *; by simplify_eq.
Qed.

Lemma auth_display_wallet_witness :
  or_default (email_address (Some (mkUser None (Some "0xab")))) "" = "" /\
  wallet_address (Some (mkUser None (Some "0xab"))) = Some "0xab" /\
  userLabel (Some (mkUser None (Some "0xab"))) = "0xab...0xab".
Proof.
  split; [reflexivity | split; [reflexivity |]].
  destruct (auth_display_wallet (Some (mkUser None (Some "0xab"))) "0xab" eq_refl eq_refl)
    as [_ ->].
  reflexivity.
Defined.

(** The panel [CarmenGame] embeds agrees with its page. The sign-in
    page shows the sign-in button, the main page the signed-in user and
    the sign-out button, and the panel's own spinner never shows: the
    page has waited for [ready] already. *)
Theorem auth_panel_matches_page (p : Privy) (u : option User) (s : UI) :
  match render p s, auth_panel p u s with
  | PageLoading, None => True
  | PageSignIn, Some AuthSignIn => True
  | PageMain _ _ _ _, Some (AuthSignedIn _ _) => True
  | _, _ => False
  end.
Proof.
  unfold auth_panel, render, Auth. cbn.
  destruct (ready p), (authenticated p); cbn; [| done | done | done].
  by destruct (_ && _).
Qed.
