(* ===== verification/Config.v ===== *)
(** * Config: the Privy providers and the deployment script

    - [PrivyProvider]: [src/frontend/src/providers/PrivyProvider.jsx], the
      [baseSepolia] chain and the [PrivyConfig] given to Privy.
    - [PrivyProvider2]: [src/frontend/src/providers/PrivyProvider 2.jsx],
      an alternative provider configured with viem's [baseGoerli] and
      [base] chains. No file of [src/] imports either provider.
    - [Deploy]: [src/scripts/deploy.js], which deploys the game contract
      with the questions' IPFS hash and has it verified on a public
      network. Hardhat's calls are inputs, as the frontend's calls are;
      the console and the exit code are its state.

    The chain ids of the providers are numbers; the wallet client of
    [Client.Wallet] writes its chain id in hexadecimal. [parse_chainId]
    reads it back as a wallet does. *)

From S2P Require Import Prelude Js Client.
From Stdlib Require Import Ascii.
Import Ipfs Wallet.

(** ** Chains *)

Record NativeCurrency := mkNativeCurrency { nc_name : string; nc_symbol : string; nc_decimals : Z }.

Record ChainDef := mkChainDef {
  chain_id : Z; chain_name : string; chain_network : string; nativeCurrency : NativeCurrency;
  rpc_default : list string; explorer_url : string; testnet : bool
}.

(** A hexadecimal digit, in either case. *)
Definition hex_digit (c : ascii) : option Z :=
  let n := Z.of_nat (nat_of_ascii c) in
  if (48 <=? n) && (n <=? 57) then Some (n - 48)
  else if (97 <=? n) && (n <=? 102) then Some (n - 87)
  else if (65 <=? n) && (n <=? 70) then Some (n - 55)
  else None.

Fixpoint hex_value (acc : Z) (s : string) : option Z :=
  match s with
  | EmptyString => Some acc
  | String c s' => d ← hex_digit c; hex_value (16 * acc + d) s'
  end.

(** An EIP-3085 chain id: ["0x"] and at least one hexadecimal digit. *)
Definition parse_chainId (s : string) : option Z :=
  match s with
  | String "0"%char (String "x"%char (String _ _ as h)) => hex_value 0 h
  | _ => None
  end.

Module PrivyProvider.

(** [baseSepolia] (lines 4-23). *)
Definition baseSepolia : ChainDef :=
  mkChainDef 84532 "Base Sepolia" "base-sepolia" (mkNativeCurrency "ETH" "ETH" 18)
    ["https://sepolia.base.org"] "https://sepolia.basescan.org" true.

Record Config := mkConfig {
  appId : option string;
  loginMethods : list string;
  theme : string; accentColor : string; logo : string;
  createOnLogin : string;
  noPromptOnSignature : option bool;
  noPromptOnMfaRequired : option bool;
  defaultChain : ChainDef;
  supportedChains : list ChainDef
}.

(** [PrivyConfig] (lines 25-42); [VITE_PRIVY_APP_ID] is [env]. *)
Definition PrivyConfig (VITE_PRIVY_APP_ID : option string) : Config :=
  mkConfig VITE_PRIVY_APP_ID ["email"; "wallet"; "google"; "discord"]
    "dark" "#676FFF" "/carmen.png" "users-without-wallets" None None
    baseSepolia [baseSepolia].

End PrivyProvider.

Module PrivyProvider2.
Import PrivyProvider.

(** viem's [baseGoerli] and [base], as [viem/chains] defines them. *)
Definition baseGoerli : ChainDef :=
  mkChainDef 84531 "Base Goerli" "base-goerli" (mkNativeCurrency "Goerli Ether" "ETH" 18)
    ["https://goerli.base.org"] "https://goerli.basescan.org" true.
Definition base : ChainDef :=
  mkChainDef 8453 "Base" "base" (mkNativeCurrency "Ether" "ETH" 18)
    ["https://mainnet.base.org"] "https://basescan.org" false.

(** The chains given to [configureChainsWithPrivy] for wagmi (lines 8-11). *)
Definition configureChainsConfig : list ChainDef := [baseGoerli; base].

(** The [config] of [PrivyAppProvider] (lines 13-46). *)
Definition config (VITE_PRIVY_APP_ID : option string) : Config :=
  mkConfig (Some (or_default VITE_PRIVY_APP_ID "your-privy-app-id"))
    ["email"; "google"; "twitter"; "discord"; "wallet"]
    "dark" "#667eea" "/carmen.png" "users-without-wallets" (Some true) (Some false)
    baseGoerli [baseGoerli; base].

End PrivyProvider2.

Module Deploy.

(** The outcomes of the Hardhat calls [main] awaits. *)
Record Hre := mkHre {
  getContractFactory : Exn + unit;
  deploy_tx : Exn + unit;            (** [CarmenSandiegoGame.deploy(hash)] *)
  waitForDeployment : Exn + unit;
  getAddress : Exn + string;
  network_name : string;             (** [hre.network.name] *)
  confirmations : Exn + unit;        (** [game.deploymentTransaction().wait(5)] *)
  verify : Exn + unit                (** [hre.run("verify:verify", ...)] *)
}.

(** What the script leaves: its console, the deployments it sent with
    their constructor arguments, the verification requests, and the
    code given to [process.exit]. *)
Record Console := mkConsole {
  stdout : list string;
  stderr : list Exn;
  deployed : list string;
  verify_requests : list (string * list string);
  exit_code : option Z
}.

Definition initialConsole : Console := mkConsole [] [] [] [] None.

(** [console.log(a, b)] prints its arguments separated by a space. *)
Definition log (line : string) : Js Console unit :=
  modify (fun c => mkConsole (stdout c ++ [line]) (stderr c) (deployed c) (verify_requests c)
                             (exit_code c)).
Definition console_error (e : Exn) : Js Console unit :=
  modify (fun c => mkConsole (stdout c) (stderr c ++ [e]) (deployed c) (verify_requests c)
                             (exit_code c)).
Definition exit (code : Z) : Js Console unit :=
  modify (fun c => mkConsole (stdout c) (stderr c) (deployed c) (verify_requests c) (Some code)).

(** [CarmenSandiegoGame.deploy(hash)]: the transaction is sent, then awaited. *)
Definition deploy (hash : string) (r : Exn + unit) : Js Console unit :=
  modify (fun c => mkConsole (stdout c) (stderr c) (deployed c ++ [hash]) (verify_requests c)
                             (exit_code c)) ;;
  await_ r.

(** [hre.run("verify:verify", { address, constructorArguments })]. *)
Definition verify_contract (address : string) (args : list string) (r : Exn + unit) :
    Js Console unit :=
  modify (fun c => mkConsole (stdout c) (stderr c) (deployed c)
                             (verify_requests c ++ [(address, args)]) (exit_code c)) ;;
  await_ r.

(** [process.env.QUESTIONS_IPFS_HASH || "QmPlaceholderHash"]. *)
Definition questionsIPFSHash (QUESTIONS_IPFS_HASH : option string) : string :=
  or_default QUESTIONS_IPFS_HASH "QmPlaceholderHash".

(** [hre.network.name !== "hardhat" && hre.network.name !== "localhost"]. *)
Definition remote (name : string) : bool :=
  bool_decide (name ≠ "hardhat") && bool_decide (name ≠ "localhost").

(** [main()] (lines 3-36). *)
Definition main (env : option string) (hre : Hre) : Js Console unit :=
  let hash := questionsIPFSHash env in
  log "Deploying Carmen Sandiego Game..." ;;
  log ("Questions IPFS Hash: " +:+ hash) ;;
  await_ (getContractFactory hre) ;;
  deploy hash (deploy_tx hre) ;;
  await_ (waitForDeployment hre) ;;
  address ← await_ (getAddress hre);
  log ("Carmen Sandiego Game deployed to: " +:+ address) ;;
  log ("Network: " +:+ network_name hre) ;;
  if remote (network_name hre) then
    log "Waiting for block confirmations..." ;;
    await_ (confirmations hre) ;;
    log "Verifying contract..." ;;
    try_catch (verify_contract address [hash] (verify hre) ;; log "Contract verified!")
              (fun e => log ("Verification failed: " +:+ exn_message e))
  else mret tt.

(** [main().then(() => process.exit(0)).catch(...)] (lines 38-42). *)
Definition script (env : option string) (hre : Hre) : Js Console unit :=
  try_catch (main env hre ;; exit 0) (fun e => console_error e ;; exit 1).

End Deploy.

(** ** Theorems *)

Import PrivyProvider PrivyProvider2 Deploy.

(** The deployment sent by [script], if any, carries the hash. *)
Lemma script_deployed env hre :
  deployed (run (script env hre) initialConsole) =
  if is_ok (getContractFactory hre) then [questionsIPFSHash env] else [].
Proof.
  destruct hre as [f d w a n cf v]; unfold run, script, main; cbn.
  destruct f as [?|[]], d as [?|[]], w as [?|[]], a; cbn; try done.
  destruct (remote n); cbn; [| done].
  destruct cf as [?|[]], v as [?|[]]; done.
Qed.

(** C33: the deployment script on every outcome of its Hardhat calls. It
    exits with 0 exactly when the contract is deployed and, on a public
    network, confirmed; a failed verification is logged and does not
    change the exit code. The contract is deployed with the questions'
    hash, and verification is requested only on a public network, once
    the deployment is confirmed, for the deployed address. *)
Theorem script_outcome env hre :
  let c := run (script env hre) initialConsole in
  let reached := is_ok (getContractFactory hre) && is_ok (deploy_tx hre) &&
                 is_ok (waitForDeployment hre) && is_ok (getAddress hre) in
  exit_code c = Some (if reached && (negb (remote (network_name hre)) || is_ok (confirmations hre))
                      then 0 else 1) /\
  deployed c = (if is_ok (getContractFactory hre) then [questionsIPFSHash env] else []) /\
  verify_requests c =
    match getAddress hre with
    | inr a => if reached && remote (network_name hre) && is_ok (confirmations hre)
               then [(a, [questionsIPFSHash env])] else []
    | inl _ => []
    end.
Proof.
  intros c reached. split; [| split; [apply script_deployed |]];
  unfold c, reached; destruct hre as [f d w a n cf v]; unfold run, script, main; cbn;
  destruct f as [?|[]], d as [?|[]], w as [?|[]], a; cbn; try done;
  destruct (remote n); cbn; try done; destruct cf as [?|[]], v as [?|[]]; done.
Qed.

(** The contract and the frontend disagree on the questions when
    neither is configured. The script deploys the contract with
    ["QmPlaceholderHash"], while the frontend fetches the questions from
    its own default CID. The two read different variables:
    [QUESTIONS_IPFS_HASH] and [VITE_QUESTIONS_IPFS_HASH]. *)
Theorem deploy_default_hash_differs hre :
  is_ok (getContractFactory hre) = true ->
  deployed (run (script None hre) initialConsole) = ["QmPlaceholderHash"] /\
  QUESTIONS_IPFS_HASH (mkBuildEnv None None None) <> "QmPlaceholderHash".
Proof. intros Hf. rewrite script_deployed, Hf. split; [done | discriminate]. Qed.

Lemma deploy_default_hash_differs_witness :
  is_ok (getContractFactory (mkHre (inr tt) (inr tt) (inr tt) (inr "0xC0") "baseSepolia"
                                   (inr tt) (inr tt))) = true /\
  deployed (run (script None (mkHre (inr tt) (inr tt) (inr tt) (inr "0xC0") "baseSepolia"
                                    (inr tt) (inr tt))) initialConsole) = ["QmPlaceholderHash"].
Proof.
  split; [reflexivity |].
  apply (deploy_default_hash_differs (mkHre (inr tt) (inr tt) (inr tt) (inr "0xC0") "baseSepolia"
                                            (inr tt) (inr tt))).
  reflexivity.
Defined.

(** The Privy provider of [PrivyProvider.jsx] makes the wallet
    client's chain, Base Sepolia (0x14a34 = 84532), its default and only
    chain. The one of [PrivyProvider 2.jsx], whose comment calls
    [baseGoerli] "Base Sepolia/Testnet", gives neither Privy nor wagmi a
    chain with that id. *)
Theorem privy_providers_contract_chain env :
  parse_chainId (chainId BASE_SEPOLIA) = Some (chain_id (defaultChain (PrivyConfig env))) /\
  supportedChains (PrivyConfig env) = [defaultChain (PrivyConfig env)] /\
  Forall (fun c => parse_chainId (chainId BASE_SEPOLIA) <> Some (chain_id c))
         (supportedChains (config env) ++ configureChainsConfig).
Proof. vm_compute. split; [done | split; [done |]]. repeat constructor; discriminate. Qed.
