(* ===== verification/Legacy.v ===== *)
(** * Legacy: the older game screen of [CarmenGame 2.jsx]

    [src/frontend/src/components/CarmenGame 2.jsx] is an earlier version
    of the game screen. No file imports it. It connects the injected
    wallet with [Client.Wallet.connectWallet] instead of Privy, and its
    handlers differ from those of [CarmenGame.jsx]:
    - [submitAnswer] passes the correct answer to the contract, and ends
      the game locally ([isActive: false]) on a wrong or tenth answer;
    - [resetGame] only resets the local state;
    - [loadQuestions] stores [questionsData.questions], which is
      [undefined] when the document is an array.

    The file begins (lines 1-92) with three functions written at module
    level, outside the component: [startSimpleBackgroundMusic],
    [playMusicNote] and [stopBackgroundMusic]. The component defines its
    own [stopBackgroundMusic], which hides the module one, but not
    [startSimpleBackgroundMusic]. So [toggleMusic] schedules the module
    function. Its first statement reads [musicEnabled], which is not
    bound at module level, and throws a [ReferenceError].

    The component's [startBackgroundMusic] (lines 239-319), a Web Audio
    melody that re-schedules itself every 8 s, is never called; it is
    modelled with its loop, whose timer is the task [TMelodyLoop].

    The module is [Legacy]: its state [UI], its handlers in the [Js]
    monad, its render, and [step], the relation of the events that drive
    it. The contract calls and their outcomes are those of [GameUI]
    ([call], [Chain]); the questions and the wallet come from [Client]. *)

From S2P Require Import Prelude Js Client Screen Audio GameUI Auth.
From Stdlib Require Import Qround.
Import Abi Ipfs Wallet Selection.

Module Legacy.

(** The callbacks this screen gives to [setTimeout]. *)
Inductive LTask :=
  | TStartMusic          (** [() => startSimpleBackgroundMusic()], the module function *)
  | TClearError          (** [() => setError('')] *)
  | TMelodyLoop (musicEnabled : bool).
      (** the next loop of [startBackgroundMusic]'s melody, closing over
          the [musicEnabled] of the render that created it *)

Record LTimer := mkLTimer { ltimer_id : nat; ldelay : Z; ltask : LTask }.

(** The [useState] variables and [useRef] cells (lines 102-121), with the
    pending timers and the tones heard. [questions] is [None] when it
    holds [undefined]. [backgroundMusicRef] holds a timer id and
    [audioContextRef] whether it holds an open [AudioContext]. *)
Record UI := mkUI {
  wallet : option string;
  contract : option Contract;
  questions : option (list Question);
  gameState : GameState;
  loading : bool;
  error : string;
  musicEnabled : bool;
  audioLoaded : bool;
  backgroundMusicRef : option nat;
  audioContextRef : bool;
  timers : list LTimer;
  next_timer : nat;
  tones : list Tone
}.

Definition initialUI : UI :=
  mkUI None None (Some []) initialGameState false "" false false None false [] 1 [].

(** ** The setters *)

Definition setWallet (w : option string) : Js UI unit :=
  modify (fun s => mkUI w (contract s) (questions s) (gameState s) (loading s) (error s)
    (musicEnabled s) (audioLoaded s) (backgroundMusicRef s) (audioContextRef s) (timers s)
    (next_timer s) (tones s)).
Definition setContract (c : Contract) : Js UI unit :=
  modify (fun s => mkUI (wallet s) (Some c) (questions s) (gameState s) (loading s) (error s)
    (musicEnabled s) (audioLoaded s) (backgroundMusicRef s) (audioContextRef s) (timers s)
    (next_timer s) (tones s)).
Definition setQuestions (qs : option (list Question)) : Js UI unit :=
  modify (fun s => mkUI (wallet s) (contract s) qs (gameState s) (loading s) (error s)
    (musicEnabled s) (audioLoaded s) (backgroundMusicRef s) (audioContextRef s) (timers s)
    (next_timer s) (tones s)).
Definition setGameState (f : GameState -> GameState) : Js UI unit :=
  modify (fun s => mkUI (wallet s) (contract s) (questions s) (f (gameState s)) (loading s)
    (error s) (musicEnabled s) (audioLoaded s) (backgroundMusicRef s) (audioContextRef s)
    (timers s) (next_timer s) (tones s)).
Definition setLoading (b : bool) : Js UI unit :=
  modify (fun s => mkUI (wallet s) (contract s) (questions s) (gameState s) b (error s)
    (musicEnabled s) (audioLoaded s) (backgroundMusicRef s) (audioContextRef s) (timers s)
    (next_timer s) (tones s)).
Definition setError (e : string) : Js UI unit :=
  modify (fun s => mkUI (wallet s) (contract s) (questions s) (gameState s) (loading s) e
    (musicEnabled s) (audioLoaded s) (backgroundMusicRef s) (audioContextRef s) (timers s)
    (next_timer s) (tones s)).
Definition setMusicEnabled (b : bool) : Js UI unit :=
  modify (fun s => mkUI (wallet s) (contract s) (questions s) (gameState s) (loading s)
    (error s) b (audioLoaded s) (backgroundMusicRef s) (audioContextRef s) (timers s)
    (next_timer s) (tones s)).
Definition setAudioLoaded (b : bool) : Js UI unit :=
  modify (fun s => mkUI (wallet s) (contract s) (questions s) (gameState s) (loading s)
    (error s) (musicEnabled s) b (backgroundMusicRef s) (audioContextRef s) (timers s)
    (next_timer s) (tones s)).
Definition setBackgroundMusicRef (r : option nat) : Js UI unit :=
  modify (fun s => mkUI (wallet s) (contract s) (questions s) (gameState s) (loading s)
    (error s) (musicEnabled s) (audioLoaded s) r (audioContextRef s) (timers s)
    (next_timer s) (tones s)).
(** [audioContextRef.current.close()], then [= null]. *)
Definition closeAudioContext : Js UI unit :=
  modify (fun s => mkUI (wallet s) (contract s) (questions s) (gameState s) (loading s)
    (error s) (musicEnabled s) (audioLoaded s) (backgroundMusicRef s) false (timers s)
    (next_timer s) (tones s)).

(** [audioContextRef.current = audioContext] for a new context. *)
Definition openAudioContext : Js UI unit :=
  modify (fun s => mkUI (wallet s) (contract s) (questions s) (gameState s) (loading s)
    (error s) (musicEnabled s) (audioLoaded s) (backgroundMusicRef s) true (timers s)
    (next_timer s) (tones s)).

Definition setTimeout (t : LTask) (ms : Z) : Js UI nat :=
  fun s => (inr (next_timer s),
            mkUI (wallet s) (contract s) (questions s) (gameState s) (loading s) (error s)
              (musicEnabled s) (audioLoaded s) (backgroundMusicRef s) (audioContextRef s)
              (timers s ++ [mkLTimer (next_timer s) ms t]) (S (next_timer s)) (tones s)).
Definition clearTimeout (id : nat) : Js UI unit :=
  modify (fun s => mkUI (wallet s) (contract s) (questions s) (gameState s) (loading s)
    (error s) (musicEnabled s) (audioLoaded s) (backgroundMusicRef s) (audioContextRef s)
    (filter (fun t => ltimer_id t ≠ id) (timers s)) (next_timer s) (tones s)).
Definition play_tone (t : Tone) : Js UI unit :=
  modify (fun s => mkUI (wallet s) (contract s) (questions s) (gameState s) (loading s)
    (error s) (musicEnabled s) (audioLoaded s) (backgroundMusicRef s) (audioContextRef s)
    (timers s) (next_timer s) (tones s ++ [t])).

(** [selectedIds.map(id => questions.find(q => q.id === id)).filter(Boolean)].
    [questions] is read once per id, so an empty list of ids never reads
    it; [undefined.find] throws. *)
Definition find_questions (qs : option (list Question)) (ids : list (option Z)) :
    Exn + list Question :=
  match ids, qs with
  | [], _ => inr []
  | _, None => inl (TypeError "Cannot read properties of undefined (reading 'find')")
  | _, Some qs => inr (omap (fun id => id ≫= find_question qs) ids)
  end.

(** [questionsData.questions]: the [questions] field of an object, and
    [undefined] for an array or any other value. *)
Definition questions_field (d : QuestionsData) : option (list Question) :=
  match d with QObject qs => qs | _ => None end.

(** The melody of [startBackgroundMusic] (lines 250-267): frequency in
    Hz, duration in seconds; a frequency of 0 is a rest. *)
Definition melody : list (Z * Q) :=
  [(392, 0.4%Q); (440, 0.4%Q); (523, 0.4%Q); (587, 0.6%Q);
   (523, 0.4%Q); (440, 0.4%Q); (392, 0.8%Q); (0, 0.4%Q);
   (440, 0.4%Q); (523, 0.4%Q); (587, 0.4%Q); (659, 0.6%Q);
   (587, 0.4%Q); (523, 0.4%Q); (440, 0.8%Q); (0, 0.8%Q)].

(** [melody.reduce((sum, note) => sum + note.duration, 0)], in exact
    arithmetic. *)
Definition totalDuration : Q := fold_left (fun sum note => sum + snd note)%Q melody 0%Q.

(** The delay [totalDuration * 1000] as [setTimeout] takes it, truncated
    to whole milliseconds. *)
Definition melody_delay : Z := Qfloor (totalDuration * inject_Z 1000)%Q.

(** The oscillator of a note (lines 281-295): a square wave at gain
    0.08, none for a rest. *)
Definition note_tone (note : Z * Q) : option Tone :=
  if 0 <? fst note then Some (mkTone (fst note) (snd note) Square (8 # 100)%Q) else None.

(** The [forEach] callback of [playMelodyLoop] (lines 278-298). *)
Definition play_note (me : bool) (note : Z * Q) : Js UI unit :=
  if negb me then mret tt
  else match note_tone note with Some t => play_tone t | None => mret tt end.

(** [playMelodyLoop] (lines 273-310), in the closure of a call of
    [startBackgroundMusic] made by a render with [musicEnabled] [me]. *)
Definition playMelodyLoop (me : bool) : Js UI unit :=
  c ← gets audioContextRef;
  if negb me || negb c then mret tt else
  forEach (play_note me) melody ;;
  id ← setTimeout (TMelodyLoop me) melody_delay;
  setBackgroundMusicRef (Some id).

(** The module-level [playMusicNote] (lines 39-69): an [async] function
    whose first statement reads the unbound [musicEnabled]; its promise
    rejects. *)
Definition playMusicNote (frequency : Z) (duration : Q) : Js UI unit :=
  throw (ReferenceError "musicEnabled is not defined").

(** The module-level [stopBackgroundMusic] (lines 71-92): after its log,
    it reads the unbound [musicIntervalRef]. The component's own
    [stopBackgroundMusic] hides it. *)
Definition module_stopBackgroundMusic : Js UI unit :=
  throw (ReferenceError "musicIntervalRef is not defined").

Section Handlers.

Variable audio_ctx : Exn + unit.

(** [playBeep] (lines 206-236): not gated by [musicEnabled]; an audio
    failure is rethrown. *)
Definition playBeep (frequency : Z) (duration : Q) : Js UI unit :=
  await_ audio_ctx ;; play_tone (mkTone frequency duration Square (3 # 10)).

Definition playSuccessSound (me : bool) : Js UI unit :=
  if negb me then mret tt else detach (playBeep 800 (2 # 10)).

Definition playFailSound (me : bool) : Js UI unit :=
  if negb me then mret tt else detach (playBeep 200 (5 # 10)).

(** The module-level [startSimpleBackgroundMusic] (lines 2-37): its first
    statement, [if (!musicEnabled) return;], reads a name that is not
    bound at module level. *)
Definition startSimpleBackgroundMusic : Js UI unit :=
  throw (ReferenceError "musicEnabled is not defined").

(** The component's [stopBackgroundMusic] (lines 321-335). *)
Definition stopBackgroundMusic : Js UI unit :=
  r ← gets backgroundMusicRef;
  (match (r : option nat) with
   | Some id => clearTimeout id ;; setBackgroundMusicRef None
   | None => mret tt
   end) ;;
  c ← gets audioContextRef;
  if (c : bool) then closeAudioContext else mret tt.

(** [startBackgroundMusic] (lines 239-319), which no code of the file
    calls. [audio_ctx] is the outcome of [new AudioContext()]; its
    [resume()] is taken to succeed. Every error is caught and logged. *)
Definition startBackgroundMusic (me : bool) : Js UI unit :=
  try_catch
    (stopBackgroundMusic ;;
     await_ audio_ctx ;;
     openAudioContext ;;
     playMelodyLoop me)
    (fun _ => mret tt).

(** [toggleMusic] (lines 134-161), created by a render with [audioLoaded]
    [al] and [musicEnabled] [me]. *)
Definition toggleMusic (al me : bool) : Js UI unit :=
  if negb al then mret tt else
  try_catch
    (if me then stopBackgroundMusic ;; setMusicEnabled false
     else
       playBeep 440 (2 # 10) ;;
       _ ← setTimeout TStartMusic 300;
       setMusicEnabled true)
    (fun _ => setError "🔊 Click anywhere on the page first, then try the audio button!" ;;
              _ ← setTimeout TClearError 4000; mret tt).

(** [setupAudio] (lines 163-188): nothing in its [try] can throw. *)
Definition setupAudio : Js UI unit := setAudioLoaded true.

(** [loadQuestions] (lines 337-348). *)
Definition loadQuestions (env : BuildEnv) (net : Network) : Js UI unit :=
  try_finally
    (try_catch
       (setLoading true ;;
        questionsData ← await_ (fetchQuestions env net);
        setQuestions (questions_field questionsData))
       (fun _ => setError "Failed to load questions from IPFS"))
    (setLoading false).

(** [loadGameState(contractInstance, playerAddress)] (lines 384-410): the
    seven first outputs of [getGameState], by position. *)
Definition loadGameState (snap : UI) (c : Contract) (ch : Chain) : Js UI unit :=
  try_catch
    (gd ← call c "getGameState" 1 (getGameState ch);
     if gd_isActive gd then
       let ids := Some <$> gd_questionIds gd in
       match find_questions (questions snap) ids with
       | inl e => throw e
       | inr gqs =>
           setGameState (fun _ =>
             mkGameState true (gd_currentQuestion gd) (Num (gd_correctCount gd)) ids gqs
               false false None (Some (gd_carmenCaught gd)))
       end
     else mret tt)
    (fun _ => mret tt).

(** [handleConnectWallet] (lines 350-382). [eth] is [window.ethereum]. *)
Definition handleConnectWallet (snap : UI) (eth : option Ethereum) (ch : Chain) : Js UI unit :=
  try_finally
    (try_catch
       (setLoading true ;; setError "" ;;
        address ← await_ (snd (connectWallet eth));
        setWallet (Some address) ;;
        let c := getContract address in
        setContract c ;;
        hasActive ← call c "hasActiveGame" 1 (hasActiveGame ch);
        if (hasActive : bool) then loadGameState snap c ch
        else setGameState (fun _ => initialGameState))
       (fun e => setError (replace_all "MetaMask" "wallet" (exn_message e))))
    (setLoading false).

(** [startNewGame] (lines 412-465). *)
Definition startNewGame (snap : UI) (ch : Chain) : Js UI unit :=
  match contract snap, wallet snap with
  | Some c, Some _ =>
  try_finally
    (try_catch
       (setLoading true ;; setError "" ;;
        hasActive ← call c "hasActiveGame" 1 (hasActiveGame ch);
        if (hasActive : bool) then
          setError "You have an active game. Please finish it first or wait for it to be completed."
        else
          setGameState (fun _ => initialGameState) ;;
          let ids := selectRandomQuestions (random ch) 30 10 in
          match find_questions (questions snap) ids with
          | inl e => throw e
          | inr gqs =>
              call c "startGame" 1 (startGame_tx ch) ;;
              setGameState (fun _ => mkGameState true 0 (Num 0) ids gqs false false None None)
          end)
       (fun e => setError ("Failed to start game: " +:+ exn_message e)))
    (setLoading false)
  | _, _ => mret tt
  end.

(** The updates [submitAnswer] passes to [setGameState]: [...prev], with
    the score and the next index computed from the render's state. *)
Definition answer_wrong (newScore : JsNum) (prev : GameState) : GameState :=
  mkGameState false (currentQuestion prev) newScore (selectedQuestions prev)
    (gameQuestions prev) true true (Some false) (Some false).

Definition answer_last (newScore : JsNum) (prev : GameState) : GameState :=
  mkGameState false (currentQuestion prev) newScore (selectedQuestions prev)
    (gameQuestions prev) true false (Some true) (Some true).

Definition answer_next (newScore : JsNum) (nextQuestion : Z) (prev : GameState) : GameState :=
  mkGameState (isActive prev) nextQuestion newScore (selectedQuestions prev)
    (gameQuestions prev) (gameOver prev) (wrongAnswer prev) (Some true) (carmenCaught prev).

(** [submitAnswer(answerIndex)] (lines 467-528). The contract is called
    with the answer and the correct answer. *)
Definition submitAnswer (snap : UI) (ch : Chain) (answerIndex : Z) : Js UI unit :=
  let gs := gameState snap in
  match contract snap with
  | Some c =>
  if negb (isActive gs) then mret tt else
  try_finally
    (try_catch
       (setLoading true ;; setError "" ;;
        currentQ ← match js_index (gameQuestions gs) (currentQuestion gs) with
                   | Some q => mret q
                   | None => throw (TypeError "Cannot read properties of undefined (reading 'correctAnswer')")
                   end;
        call c "submitAnswer" 2 (submitAnswer_tx ch) ;;
        let isCorrect := bool_decide (answerIndex = correctAnswer currentQ) in
        let newScore := if isCorrect then js_incr (score gs) else score gs in
        let nextQuestion := currentQuestion gs + 1 in
        if negb isCorrect then
          playFailSound (musicEnabled snap) ;; setGameState (answer_wrong newScore)
        else if 10 <=? nextQuestion then
          playSuccessSound (musicEnabled snap) ;; setGameState (answer_last newScore)
        else
          playSuccessSound (musicEnabled snap) ;; setGameState (answer_next newScore nextQuestion))
       (fun e => setError ("Failed to submit answer: " +:+ exn_message e)))
    (setLoading false)
  | None => mret tt
  end.

(** [resetGame] (lines 530-557): the contract is not called. *)
Definition resetGame : Js UI unit :=
  try_finally
    (try_catch (setLoading true ;; setError "" ;; setGameState (fun _ => initialGameState))
               (fun _ => mret tt))
    (setLoading false).

(** [forceCompleteReset] (lines 560-577). *)
Definition forceCompleteReset : Js UI unit :=
  setGameState (fun _ => initialGameState) ;; setError "" ;; setLoading false ;;
  setMusicEnabled false.

End Handlers.

(** ** The view (lines 579-836) *)

Inductive WalletArea :=
  | ConnectButton (connecting : bool)       (** "Connect Wallet", disabled while loading *)
  | Connected (label : string) (area : GameArea).

Inductive Page :=
  | PageLoading
  | PageMain (error : string) (sound : option bool) (body : WalletArea) (overlay : bool).

(** The render. Its first test reads [questions.length], which throws
    when [questions] is [undefined] and [loading] is set. The game area
    has the same nested conditional as [CarmenGame.jsx], without the
    test on [contract]. *)
Definition render (s : UI) : Exn + Page :=
  let main :=
    PageMain (error s) (if audioLoaded s then Some (musicEnabled s) else None)
      (match wallet s with
       | None => ConnectButton (loading s)
       | Some w => Connected (slice_prefix 6 w +:+ "..." +:+ slice_last4 w) (game_area (gameState s))
       end)
      (loading s) in
  if loading s then
    match questions s with
    | None => inl (TypeError "Cannot read properties of undefined (reading 'length')")
    | Some [] => inr PageLoading
    | Some _ => inr main
    end
  else inr main.

(** ** The events *)

Inductive Click :=
  | ClickConnect | ClickStart | ClickAnswer (i : Z) | ClickReset | ClickForceReset | ClickSound.

(** The clicks the page offers. A render that threw shows nothing. *)
Definition enabled (pg : Exn + Page) (a : Click) : bool :=
  match pg, a with
  | inr (PageMain _ _ (ConnectButton false) _), ClickConnect => true
  | inr (PageMain _ _ (Connected _ StartView) false), ClickStart => true
  | inr (PageMain _ _ (Connected _ (ActiveView _ (Some q))) false), ClickAnswer i =>
      bool_decide (0 <= i < Z.of_nat (length (options q)))
  | inr (PageMain _ _ (Connected _ (ResultsView _)) false), ClickReset => true
  | inr (PageMain _ _ (Connected _ (ResultsView _)) _), ClickForceReset => true
  | inr (PageMain _ (Some _) _ _), ClickSound => true
  | _, _ => false
  end.

Record World := mkWorld { ui : UI; mounted : bool; fetching : bool }.

Definition initialWorld : World := mkWorld initialUI false false.

Section Step.

Variable audio_ctx : Exn + unit.

(** The handler of a click, as created by the render of [s]. *)
Definition on_click (s : UI) (eth : option Ethereum) (ch : Chain) (a : Click) : Js UI unit :=
  match a with
  | ClickConnect => handleConnectWallet s eth ch
  | ClickStart => startNewGame s ch
  | ClickAnswer i => submitAnswer audio_ctx s ch i
  | ClickReset => resetGame
  | ClickForceReset => forceCompleteReset
  | ClickSound => toggleMusic audio_ctx (audioLoaded s) (musicEnabled s)
  end.

Definition run_task (t : LTask) : Js UI unit :=
  match t with
  | TStartMusic => startSimpleBackgroundMusic
  | TClearError => setError ""
  | TMelodyLoop me =>
      c ← gets audioContextRef;
      if me && c then playMelodyLoop me else mret tt
  end.

(** The browser runs a due callback: it leaves the pending list and runs. *)
Definition fire (id : nat) : Js UI unit :=
  ts ← gets timers;
  match list_find (fun t => ltimer_id t = id) (ts : list LTimer) with
  | Some (_, t) => clearTimeout id ;; run_task (ltask t)
  | None => mret tt
  end.

Inductive step : World -> World -> Prop :=
  (** the mount effect (lines 127-131): [loadQuestions()] runs up to its
      fetch, then [setupAudio()] runs *)
  | step_mount s f :
      step (mkWorld s false f) (mkWorld (run setupAudio (run (setLoading true) s)) true true)
  (** the fetch completes and [loadQuestions] runs on *)
  | step_questions s env net :
      step (mkWorld s true true) (mkWorld (run (loadQuestions env net) s) true false)
  | step_click s m f a eth ch :
      enabled (render s) a = true ->
      step (mkWorld s m f) (mkWorld (run (on_click s eth ch a) s) m f)
  | step_fire s m f id :
      step (mkWorld s m f) (mkWorld (run (fire id) s) m f)
  (** [window.location.reload()], from the "Refresh Page" button or the browser *)
  | step_reload w :
      step w initialWorld.

Definition reachable : World -> Prop := rtc step initialWorld.

End Step.

(** ** A session *)

(** A wallet that grants every request, for the address [0x00aa0000bb]. *)
Definition sample_eth : Ethereum := mkEthereum (fun _ => inr tt) (inr "0x00aa0000bb").

(** Gateways that serve the questions as an object [{ questions: [...] }]. *)
Definition object_network : Network :=
  fun _ => inr (mkResponse true 200 (inr (QObject (Some sample_questions)))).

Definition lg_mounted : UI :=
  run (loadQuestions no_env object_network) (run setupAudio (run (setLoading true) initialUI)).
Definition lg_connected : UI :=
  run (handleConnectWallet lg_mounted (Some sample_eth) sample_chain) lg_mounted.
Definition lg_playing : UI := run (startNewGame lg_connected sample_chain) lg_connected.

End Legacy.

(** ** Theorems *)

Import Legacy.

(** Firing the timer scheduled last, whose id no other pending timer has,
    runs its callback on the state without it. *)
Lemma legacy_fire_last s ts id d t :
  Forall (fun t' => ltimer_id t' ≠ id) ts -> timers s = ts ++ [mkLTimer id d t] ->
  fire id s = run_task t (snd (clearTimeout id s)) /\ timers (snd (clearTimeout id s)) = ts.
Proof.
  intros Hts Hs. destruct (find_last_fresh ltimer_id ts (mkLTimer id d t) Hts) as [Hfind Hfilter].
  unfold fire, gets, mbind, js_bind. rewrite Hs. cbn [ltimer_id] in Hfind, Hfilter.
  rewrite Hfind. split; [reflexivity |]. cbn. by rewrite Hs, Hfilter.
Qed.

(** C36: in [CarmenGame 2.jsx] a wrong answer ends the game on the
    results screen. For every state with a contract and a wallet, an
    active game whose current question exists, a contract that accepts
    [submitAnswer] with its two arguments and a transaction that is
    mined, a wrong answer clears [isActive], sets [gameOver] and clears
    [loading]: the page shows "Carmen Sandiego has ESCAPED!" and offers
    "Play Again". The [submitAnswer] of [CarmenGame.jsx] no longer clears
    [isActive], and there the screen is unreachable. *)
Theorem legacy_wrong_answer_shows_results ctx s eth ch i c q w :
  contract s = Some c -> wallet s = Some w -> isActive (gameState s) = true ->
  js_index (gameQuestions (gameState s)) (currentQuestion (gameState s)) = Some q ->
  i <> correctAnswer q -> dispatch c "submitAnswer" 2 = inr tt -> submitAnswer_tx ch = inr tt ->
  let s' := run (on_click ctx s eth ch (ClickAnswer i)) s in
  loading s' = false /\ isActive (gameState s') = false /\ gameOver (gameState s') = true /\
  game_area (gameState s') = ResultsView false /\ enabled (render s') ClickReset = true.
Proof.
  intros Hc Hw Ha Hq Hi Hd Htx s'. unfold s', on_click, submitAnswer, call.
  rewrite Hc, Ha, Hq, Hd, Htx.
  unfold playFailSound, detach, run, try_finally, try_catch, mbind, js_bind, mret, js_ret, await_.
  cbn. rewrite bool_decide_false by exact Hi. cbn.
  unfold playBeep, await_, throw. destruct (musicEnabled s), ctx; cbn; rewrite ?Hw;
    destruct (audioLoaded s); repeat split.
Qed.

(** The session of the page: the wallet connected, a game started, and
    answer 1 to its first question, whose correct answer is 2. *)
Lemma legacy_wrong_answer_shows_results_witness :
  contract lg_playing <> None /\
  enabled (render (run (on_click (inr tt) lg_playing None sample_chain (ClickAnswer 1)) lg_playing))
    ClickReset = true.
Proof.
  split; [vm_compute; discriminate |].
  destruct (legacy_wrong_answer_shows_results (inr tt) lg_playing None sample_chain 1
              (default (getContract "") (contract lg_playing))
              (default (sample_question 0)
                 (js_index (gameQuestions (gameState lg_playing))
                           (currentQuestion (gameState lg_playing))))
              (default "" (wallet lg_playing))) as (_ & _ & _ & _ & Hen).
  - vm_compute. reflexivity.
  - vm_compute. reflexivity.
  - vm_compute. reflexivity.
  - vm_compute. reflexivity.
  - vm_compute. discriminate.
  - vm_compute. reflexivity.
  - vm_compute. reflexivity.
  - exact Hen.
Defined.

(** Questions served as a JSON array break [CarmenGame 2.jsx].
    [loadQuestions] stores [questionsData.questions], which is [undefined]
    for an array. The next handler that sets [loading] (connecting the
    wallet, starting, answering, resetting) makes React render at its
    first [await], and that render reads [questions.length] and throws. *)
Theorem legacy_array_questions_crash env net qs s :
  fetchQuestions env net = inr (QArray qs) ->
  let s' := run (loadQuestions env net) s in
  questions s' = None /\ loading s' = false /\
  render (run (setLoading true ;; setError "") s') =
    inl (TypeError "Cannot read properties of undefined (reading 'length')").
Proof. intros Hf. unfold loadQuestions. rewrite Hf. repeat split. Qed.

Lemma legacy_array_questions_crash_witness :
  fetchQuestions no_env sample_network = inr (QArray sample_questions) /\
  questions (run (loadQuestions no_env sample_network) initialUI) = None.
Proof.
  assert (Hf : fetchQuestions no_env sample_network = inr (QArray sample_questions))
    by (vm_compute; reflexivity).
  split; [exact Hf |].
  exact (proj1 (legacy_array_questions_crash no_env sample_network sample_questions initialUI Hf)).
Defined.

(** Turning the sound on never starts the music. [toggleMusic]
    plays the 440 Hz test beep, schedules [startSimpleBackgroundMusic]
    300 ms later and shows the sound as on. The callback is the module
    function: when the timer fires it throws a [ReferenceError], plays no
    note, and leaves the state as it was, but for the timer. *)
Theorem legacy_toggleMusic_no_music s :
  audioLoaded s = true -> musicEnabled s = false ->
  Forall (fun t => ltimer_id t < next_timer s)%nat (timers s) ->
  let s1 := run (toggleMusic (inr tt) (audioLoaded s) (musicEnabled s)) s in
  let r := fire (next_timer s) s1 in
  musicEnabled s1 = true /\ tones s1 = tones s ++ [mkTone 440 (2 # 10) Square (3 # 10)] /\
  timers s1 = timers s ++ [mkLTimer (next_timer s) 300 TStartMusic] /\
  fst r = inl (ReferenceError "musicEnabled is not defined") /\
  tones (snd r) = tones s1 /\ musicEnabled (snd r) = true /\ timers (snd r) = timers s.
Proof.
  intros Hal Hme Hf s1 r.
  assert (Hs1 : timers s1 = timers s ++ [mkLTimer (next_timer s) 300 TStartMusic])
    by (unfold s1, toggleMusic; rewrite Hal, Hme; reflexivity).
  assert (Hne : Forall (fun t => ltimer_id t ≠ next_timer s) (timers s))
    by (eapply Forall_impl; [exact Hf | intros ??; cbn in *; lia]).
  destruct (legacy_fire_last s1 _ _ _ _ Hne Hs1) as [Hfire Hts].
  unfold r. rewrite Hfire. cbn [run_task startSimpleBackgroundMusic throw fst snd].
  rewrite Hts. unfold s1, toggleMusic. rewrite Hal, Hme. repeat split.
Qed.

Lemma legacy_toggleMusic_no_music_witness :
  audioLoaded lg_mounted = true /\ musicEnabled lg_mounted = false /\
  fst (fire (next_timer lg_mounted)
          (run (toggleMusic (inr tt) (audioLoaded lg_mounted) (musicEnabled lg_mounted)) lg_mounted))
  = inl (ReferenceError "musicEnabled is not defined").
Proof.
  split; [reflexivity | split; [reflexivity |]].
  apply (legacy_toggleMusic_no_music lg_mounted); [reflexivity | reflexivity | vm_compute; constructor].
Defined.

(** ** The melody of [startBackgroundMusic] *)

(** The durations add up to 8 s, so the next loop is due after 8000 ms.
    In floating point the sum is [8.000000000000002]; the delay is
    truncated to the same whole number of milliseconds. *)
Lemma melody_delay_8000 : melody_delay = 8000.
Proof. reflexivity. Qed.

(** One loop, with the context open and the music on, plays the twelve
    notes that are not rests in order, as square waves at gain 0.08.
    It schedules the next loop after 8000 ms and keeps that timer's id
    in [backgroundMusicRef]. With the music off it does nothing. *)
(** The notes' loop appends their tones, and changes nothing else. *)
Lemma run_play_notes (l : list (Z * Q)) (s : UI) :
  forEach (play_note true) l s =
  (inr tt, mkUI (wallet s) (contract s) (questions s) (gameState s) (loading s) (error s)
    (musicEnabled s) (audioLoaded s) (backgroundMusicRef s) (audioContextRef s) (timers s)
    (next_timer s) (tones s ++ omap note_tone l)).
Proof.
  revert s. induction l as [|note l IH]; intros s; [by destruct s; rewrite app_nil_r |].
  cbn [forEach]. unfold mbind, js_bind, play_note, note_tone. cbn [negb omap].
  destruct (0 <? fst note) eqn:E; cbn; rewrite IH; cbn; rewrite E; by rewrite <- ?app_assoc.
Qed.

Lemma playMelodyLoop_loop (s : UI) :
  audioContextRef s = true ->
  let s' := run (playMelodyLoop true) s in
  tones s' = tones s ++ omap note_tone melody /\
  timers s' = timers s ++ [mkLTimer (next_timer s) 8000 (TMelodyLoop true)] /\
  backgroundMusicRef s' = Some (next_timer s) /\
  run (playMelodyLoop false) s = s.
Proof.
  intros Hc. unfold run, playMelodyLoop, mbind, js_bind, gets. cbn -[forEach]. rewrite Hc.
  cbn -[forEach].
  rewrite run_play_notes. by destruct s.
Qed.

(** Called by a render with the music off, as [musicEnabled] starts,
    [startBackgroundMusic] stops the music, opens a new [AudioContext]
    and plays nothing: the context stays open, with no loop scheduled. *)
Lemma startBackgroundMusic_silent (s : UI) :
  let s' := run (startBackgroundMusic (inr tt) false) s in
  audioContextRef s' = true /\ tones s' = tones s /\ backgroundMusicRef s' = None.
Proof.
  destruct s as [? ? ? ? ? ? ? ? [id|] [|] ? ? ?]; by vm_compute.
Qed.

(** ** The pending timers

    As for [CarmenGame.jsx] in [Timers], the timer table stays well
    formed in every reachable world. So the hypothesis of
    [legacy_toggleMusic_no_music] on the
    pending timers holds in every reachable world. *)

Definition ltimers_wf (s : UI) : Prop := fresh_keys ltimer_id (next_timer s) (timers s).

Ltac legacy_leaf :=
  lazymatch goal with
  | |- preserves ltimers_wf (setTimeout _ _) =>
      let s := fresh "s" in intros s ?; by apply fresh_keys_snoc
  | |- preserves ltimers_wf (clearTimeout _) =>
      let s := fresh "s" in intros s ?; by apply fresh_keys_filter
  | |- preserves ltimers_wf _ =>
      let s := fresh "s" in let Hs := fresh "Hs" in intros s Hs; exact Hs
  end.

Ltac legacy_preserve :=
  unfold handleConnectWallet, startNewGame, submitAnswer, resetGame, forceCompleteReset,
    toggleMusic, fire, run_task, setupAudio, loadQuestions, loadGameState, startSimpleBackgroundMusic,
    playSuccessSound, playFailSound, playBeep, stopBackgroundMusic, playMelodyLoop, play_note,
    call;
  repeat (cbv beta zeta;
          first [preserve_step
                | lazymatch goal with |- preserves _ (detach _) => apply preserves_detach end
                | legacy_leaf]).

Lemma legacy_step_timers_wf ctx w w' : step ctx w w' -> ltimers_wf (ui w) -> ltimers_wf (ui w').
Proof.
  intros Hstep Hw.
  destruct Hstep as [s f | s env net | s m f a eth ch _ | s m f id | w0]; cbn in *; try done.
  - assert (H : preserves ltimers_wf (loadQuestions env net)) by legacy_preserve. exact (H s Hw).
  - assert (H : preserves ltimers_wf (on_click ctx s eth ch a))
      by (destruct a; unfold on_click; legacy_preserve).
    exact (H s Hw).
  - assert (H : preserves ltimers_wf (fire id)) by legacy_preserve. exact (H s Hw).
  - split; constructor.
Qed.

Lemma legacy_reachable_timers_wf ctx w : reachable ctx w -> ltimers_wf (ui w).
Proof.
  intros Hr. apply (rtc_invariant (step ctx) (fun w => ltimers_wf (ui w)) initialWorld w);
    [apply legacy_step_timers_wf | split; constructor | exact Hr].
Qed.
