(* ===== verification/Timers.v ===== *)
(** * Timers: the table of pending timers of the game screen

    The browser keeps the callbacks given to [setTimeout] under the ids it
    returned. [CarmenGame.jsx] clears and fires them by id
    ([musicIntervalRef], [stopBackgroundMusic], the error banners). The
    table is well formed when every pending id is below the next one the
    browser will hand out, and no two pending timers share an id. Then an
    id names one timer, [clearTimeout] removes that timer only, and the
    music loop of [Audio] runs as [Audio.music_loop] says. This holds in
    every world [GameUI.step] reaches. *)

From S2P Require Import Prelude Js Client Screen Audio GameUI.
Import Abi.

Definition timers_wf (s : UI) : Prop := fresh_keys timer_id (next_timer s) (timers s).

Lemma preserves_setTimeout_wf (t : Task) (ms : Z) : preserves timers_wf (setTimeout t ms).
Proof. intros s Hs. by apply fresh_keys_snoc. Qed.

Lemma preserves_clearTimeout_wf (id : nat) : preserves timers_wf (clearTimeout id).
Proof. intros s Hs. by apply fresh_keys_filter. Qed.

(** The primitive updates: the two that touch the table, and the others,
    which leave it as it is. *)
Ltac timers_leaf :=
  lazymatch goal with
  | |- preserves timers_wf (setTimeout _ _) => apply preserves_setTimeout_wf
  | |- preserves timers_wf (clearTimeout _) => apply preserves_clearTimeout_wf
  | |- preserves timers_wf _ => let s := fresh "s" in let Hs := fresh "Hs" in
                                intros s Hs; exact Hs
  end.

Lemma on_click_timers_wf ctx p s ch a : preserves timers_wf (on_click ctx p s ch a).
Proof.
  destruct a; unfold on_click;
    unfold startNewGame, start_game, submitAnswer, answer_outcome, resetGame, forceCompleteReset; ui_walk ltac:(idtac; timers_leaf).
Qed.

Ltac timers_preserve := ui_walk ltac:(idtac; timers_leaf).

Lemma step_timers_wf ctx abi w w' : step ctx abi w w' -> timers_wf (ui w) -> timers_wf (ui w').
Proof.
  intros Hstep Hw.
  destruct Hstep as [p s f | p s env net | | p s m f ws ch | | p s m f a ch _ | p s m f id];
    cbn in *; try done.
  - assert (H : preserves timers_wf (loadQuestions env net)) by timers_preserve. exact (H s Hw).
  - assert (H : preserves timers_wf (authEffect abi (mkPrivy (ready p) true ws) s ch))
      by (unfold authEffect, initializeContract, connect_contract; timers_preserve).
    exact (H s Hw).
  - exact (on_click_timers_wf ctx p s ch a s Hw).
  - assert (H : preserves timers_wf (fire ctx id)) by timers_preserve. exact (H s Hw).
Qed.

(** The timer table of the game screen is well formed in every reachable
    world, for every ABI and audio outcome. Every pending id is below the
    next id, and no two pending timers share one. So [clearTimeout] and a
    firing timer act on one callback only, and the hypothesis
    [timers_fresh] of the music theorems of [Audio] holds in every
    reachable world. *)
Lemma reachable_timers_wf ctx abi w : reachable ctx abi w -> timers_wf (ui w).
Proof.
  intros Hr. apply (rtc_invariant (step ctx abi) (fun w => timers_wf (ui w)) initialWorld w);
    [apply step_timers_wf | | exact Hr].
  split; constructor.
Qed.
