(* ===== verification/Pending.v ===== *)
(** * Pending: the game screen while a transaction is pending

    [submitAnswer] (lines 515-578 of [CarmenGame.jsx]) and [startNewGame]
    (lines 438-513) set [loading], then await the wallet and the
    contract. While they wait the screen renders again. The game buttons
    are disabled, but the sound button (lines 730-741) has no [disabled]
    at all.

    [GameUI.step] runs a click's handler to its end. Here both handlers
    are split at their first [await]: [submitAnswer_start] and
    [startNewGame_start] run at the click; [submitAnswer_resume] and
    [startNewGame_resume] run when the awaited outcome arrives, in the
    closure of the render of the click. [submitAnswer_split] and
    [startNewGame_split] show that the two parts together are the
    handler.

    Between them the player can turn the sound off. The resumed handler
    still reads the [musicEnabled] of its own render: the answer's beep
    plays, and a new game starts its music, after the sound was turned
    off. *)

From S2P Require Import Prelude Js Client Screen Audio GameUI.
Import Abi Ipfs Selection.

Section Pending.

Variable audio_ctx : Exn + unit.

(** The part of [submitAnswer] that runs at the click, up to the first
    [await] (line 519). The lookup of the question and the call of
    [contract.submitAnswer] run there too, and are assumed to succeed
    where the split is used. *)
Definition submitAnswer_start : Js UI unit := setLoading true.

(** The rest (lines 527-577), resumed with the outcome [tx] of the
    transaction, in the closure of the render [snap] of the click. *)
Definition submitAnswer_resume (snap : UI) (isCorrect : bool) (tx : Exn + unit) : Js UI unit :=
  try_finally
    (try_catch (await_ tx ;; answer_outcome audio_ctx snap isCorrect)
       (fun e => setError ("Error submitting answer: " +:+ exn_message e)))
    (setLoading false).

(** The part of [startNewGame] that runs at the click, up to its first
    [await] (lines 442-443), for a render with questions loaded. *)
Definition startNewGame_start : Js UI unit := setLoading true ;; setError "".

(** The rest (lines 455-512), resumed when the wallet gives the player's
    address, in the closure of the render [snap] of the click. *)
Definition startNewGame_resume (snap : UI) (c : Contract) (ch : Chain) : Js UI unit :=
  try_finally
    (try_catch (playerAddress ← await_ (address ch); start_game audio_ctx snap c ch)
       (fun e => setError ("Error starting game: " +:+ exn_message e)))
    (setLoading false).

End Pending.

(** The tone of the beep [answer_outcome] plays: [playSuccessSound] or
    [playFailSound]. *)
Definition answer_beep (isCorrect : bool) : Tone :=
  if isCorrect then mkTone 800 (2 # 10) Square (3 # 10) else mkTone 200 (5 # 10) Square (3 # 10).

(** ** Theorems *)

(** [startNewGame] is its start, then its resumption. *)
Lemma startNewGame_split ctx p s ch c :
  connected p s = Some c -> questions s <> [] ->
  run (startNewGame ctx p s ch) s = run (startNewGame_resume ctx s c ch) (run startNewGame_start s).
Proof.
  intros Hc Hq. unfold startNewGame. rewrite Hc, bool_decide_false by exact Hq.
  unfold startNewGame_resume. by destruct (address ch).
Qed.

(** While a handler of [p] waits, [loading] is set, and the page still
    offers the sound button. *)
Lemma sound_enabled_while_loading p s :
  ready p = true -> authenticated p = true -> questions s <> [] -> audioLoaded s = true ->
  loading s = true -> enabled (render p s) ClickSound = true.
Proof.
  intros Hr Ha Hqs Hal Hl. unfold enabled, render.
  rewrite Hr, Ha, Hal, Hl. rewrite bool_decide_false by exact Hqs. by repeat case_match.
Qed.

Lemma connected_authenticated p s c : connected p s = Some c -> authenticated p = true.
Proof. unfold connected. by destruct (authenticated p). Qed.

(** [submitAnswer] is its start, then its resumption with the
    transaction's outcome. *)
Lemma submitAnswer_split ctx p s ch i c q :
  connected p s = Some c ->
  js_index (gameQuestions (gameState s)) (currentQuestion (gameState s)) = Some q ->
  dispatch c "submitAnswer" 1 = inr tt ->
  run (submitAnswer ctx p s ch i) s =
  run (submitAnswer_resume ctx s (bool_decide (i = correctAnswer q)) (submitAnswer_tx ch))
      (run submitAnswer_start s).
Proof.
  intros Hc Hq Hd. unfold submitAnswer, call. rewrite Hc, Hq, Hd.
  by destruct (submitAnswer_tx ch).
Qed.

(** C34: turning the sound off while an answer is being mined does not
    silence that answer's beep. After the click on an answer, the page
    still offers the sound button. The player turns the sound off. When
    the transaction is mined, the resumed [submitAnswer] reads the
    [musicEnabled] of the render of the click and plays the success or
    the failure beep, although [musicEnabled] is now false. *)
Theorem sound_off_while_pending_still_beeps p s ch i c q :
  ready p = true -> connected p s = Some c -> questions s <> [] ->
  audioLoaded s = true -> musicEnabled s = true ->
  js_index (gameQuestions (gameState s)) (currentQuestion (gameState s)) = Some q ->
  let isCorrect := bool_decide (i = correctAnswer q) in
  let s1 := run submitAnswer_start s in
  let s2 := run (on_click (inr tt) p s1 ch ClickSound) s1 in
  let s3 := run (submitAnswer_resume (inr tt) s isCorrect (inr tt)) s2 in
  enabled (render p s1) ClickSound = true /\
  musicEnabled s2 = false /\ musicEnabled s3 = false /\
  tones s3 = tones s2 ++ [answer_beep isCorrect].
Proof.
  intros Hr Hc Hqs Hal Hme Hq isCorrect s1 s2 s3.
  split; [by apply sound_enabled_while_loading; eauto using connected_authenticated |].
  unfold s3, s2, s1, submitAnswer_resume, answer_outcome, on_click, toggleMusic,
    submitAnswer_start, playSuccessSound, playFailSound, playBeep, detach, stopBackgroundMusic,
    gets, run, try_finally, try_catch, mbind, js_bind, mret, js_ret, await_, throw.
  cbn. rewrite Hal, Hme. cbn. unfold isCorrect, answer_beep.
  destruct (bool_decide (i = correctAnswer q)), (bool_decide (currentQuestion (gameState s) = 9)),
    (musicIntervalRef s); cbn; rewrite ?Hme; cbn; repeat split.
Qed.

(** The concrete session, with the corrected ABI and the sound turned on
    before the first answer. *)
Lemma sound_off_while_pending_still_beeps_witness :
  let s := run (on_click (inr tt) privy_in (ui_playing fixed_abi) sample_chain ClickSound)
               (ui_playing fixed_abi) in
  musicEnabled s = true /\
  enabled (render privy_in (run submitAnswer_start s)) ClickSound = true.
Proof.
  intros s. split; [vm_compute; reflexivity |].
  destruct (sound_off_while_pending_still_beeps privy_in s sample_chain 0
              (default (getContract "") (contract s)) (sample_question 15)) as [Hen _].
  - reflexivity.
  - vm_compute. reflexivity.
  - vm_compute. discriminate.
  - vm_compute. reflexivity.
  - vm_compute. reflexivity.
  - vm_compute. reflexivity.
  - exact Hen.
Defined.

(** C30: turning the sound off while a new game is being started does
    not keep the music from starting. After the click on "Start", the
    page still offers the sound button, and the player turns the sound
    off. When [startGame] is mined, the resumed [startNewGame] tests the
    [musicEnabled] of the render of the click and starts the background
    music. Its first note plays and its next note is scheduled, with the
    closure's [musicEnabled] still true, while the state says the sound
    is off. *)
Theorem sound_off_while_starting_still_plays p s ch c :
  ready p = true -> connected p s = Some c -> questions s <> [] ->
  audioLoaded s = true -> musicEnabled s = true ->
  is_ok (address ch) = true -> dispatch c "hasActiveGame" 1 = inr tt ->
  hasActiveGame ch = inr false ->
  length (omap (fun id => id ≫= find_question (questions s))
               (selectRandomQuestions (random ch) 30 10)) = 10%nat ->
  dispatch c "startGame" 1 = inr tt -> startGame_tx ch = inr tt ->
  let s1 := run startNewGame_start s in
  let s2 := run (on_click (inr tt) p s1 ch ClickSound) s1 in
  let s3 := run (startNewGame_resume (inr tt) s c ch) s2 in
  enabled (render p s1) ClickSound = true /\
  musicEnabled s2 = false /\ musicEnabled s3 = false /\ isActive (gameState s3) = true /\
  tones s3 = tones s2 ++ [note_tone 0] /\
  timers s3 = timers s2 ++ [mkTimer (next_timer s2) 800 (TPlayNextNote true 1)] /\
  musicIntervalRef s3 = Some (next_timer s2).
Proof.
  intros Hr Hc Hqs Hal Hme Haddr Hd1 Hha Hlen Hd2 Htx s1 s2 s3.
  split; [by apply sound_enabled_while_loading; eauto using connected_authenticated |].
  revert Hlen. unfold s3, s2, s1, startNewGame_resume, start_game.
  generalize (selectRandomQuestions (random ch) 30 10) as ids. intros ids Hlen.
  remember (omap (fun id => id ≫= find_question (questions s)) ids) as gqs eqn:Hgqs.
  clear Hgqs.
  unfold on_click, toggleMusic, startNewGame_start,
    stopBackgroundMusic, call, gets, run, try_finally, try_catch, mbind, js_bind, mret, js_ret,
    await_, throw.
  destruct (address ch) as [e|a]; [done |].
  rewrite Hd1, Hha, Hd2, Htx, Hlen. cbn. rewrite Hal, Hme. cbn. rewrite ?Hme. cbn.
  destruct (musicIntervalRef s); cbn; repeat split.
Qed.

(** The concrete session: after login the player turns the sound on,
    then starts a game. *)
Lemma sound_off_while_starting_still_plays_witness :
  let s := run (on_click (inr tt) privy_in (ui_logged_in CONTRACT_ABI) sample_chain ClickSound)
               (ui_logged_in CONTRACT_ABI) in
  let s1 := run startNewGame_start s in
  let s2 := run (on_click (inr tt) privy_in s1 sample_chain ClickSound) s1 in
  musicEnabled s = true /\
  musicEnabled (run (startNewGame_resume (inr tt) s (default (getContract "") (contract s))
                       sample_chain) s2) = false.
Proof.
  intros s s1 s2. split; [vm_compute; reflexivity |].
  destruct (sound_off_while_starting_still_plays privy_in s sample_chain
              (default (getContract "") (contract s))) as (_ & _ & Hoff & _).
  - reflexivity.
  - vm_compute. reflexivity.
  - vm_compute. discriminate.
  - vm_compute. reflexivity.
  - vm_compute. reflexivity.
  - vm_compute. reflexivity.
  - vm_compute. reflexivity.
  - vm_compute. reflexivity.
  - vm_compute. reflexivity.
  - vm_compute. reflexivity.
  - vm_compute. reflexivity.
  - exact Hoff.
Defined.
