(* ===== verification/Races.v ===== *)
(** * Races: the game screen with its handlers suspended at their awaits

    [GameUI.step] runs each handler of [CarmenGame.jsx] to its end in one
    step. [Pending] splits [submitAnswer] and [startNewGame] at their
    first [await]. This file splits [initializeContract] the same way
    and puts the three together. [CWorld] is the screen with the list
    of handler runs that wait for the wallet or the chain, its [jobs].

    [cstep] is one event. It is an effect, a click, a timer, or the
    resumption of any waiting job, in any order. The effect on
    [[authenticated, wallets]] (lines 398-402) is not gated by [loading].
    It runs [initializeContract] whenever Privy's [wallets] array
    changes. So two runs can wait at once. The [finally] of the first to
    end clears [loading] while the other still waits, and a later
    [finally] clears the [loading] of a [startNewGame] in flight.
    [double_start] shows that wherever "Start" is offered while a run of
    [initializeContract] waits, the player can click "Start" a second
    time while the first [startGame] still waits; its witness reaches
    such a world from the initial screen. [two_music_loops] shows what
    the two runs do to the music: two loops, of which
    [stopBackgroundMusic] cancels one.

    Clicks that end before any [await] are atomic, as in [GameUI.step];
    [resetGame] and the sound buttons are too. *)

From S2P Require Import Prelude Js Client Screen Audio GameUI Timers Pending.
Import Abi Ipfs Selection.

(** A handler run that waits, with the closure it resumes in. *)
Inductive Job :=
  | JInit (snap : UI)                        (** [initializeContract] *)
  | JStart (snap : UI) (c : Contract)        (** [startNewGame] *)
  | JAnswer (snap : UI) (isCorrect : bool).  (** [submitAnswer] *)

Record CWorld := mkCWorld {
  cprivy : Privy; cui : UI; cmounted : bool; cfetching : bool; jobs : list Job
}.

Definition initialCWorld : CWorld := mkCWorld (mkPrivy false false []) initialUI false false [].

Section Races.

Variable audio_ctx : Exn + unit.
Variable abi : list Fragment.

(** The part of [initializeContract] before its first [await] (lines
    351-352), once its guard holds. *)
Definition init_start : Js UI unit := setLoading true ;; setError "".

(** The rest (lines 358-395), resumed when the wallet gives its signer. *)
Definition init_resume (snap : UI) (ch : Chain) : Js UI unit :=
  try_finally
    (try_catch (signerAddr ← await_ (signer ch); connect_contract abi snap ch signerAddr)
       (fun e => setError ("Error connecting to contract: " +:+ exn_message e)))
    (setLoading false).

Definition resume_job (j : Job) (ch : Chain) : Js UI unit :=
  match j with
  | JInit snap => init_resume snap ch
  | JStart snap c => startNewGame_resume audio_ctx snap c ch
  | JAnswer snap isCorrect => submitAnswer_resume audio_ctx snap isCorrect (submitAnswer_tx ch)
  end.

(** A click whose handler reaches an [await]: its first part and the job
    that waits. [None] when the handler ends before any [await]. *)
Definition click_job (p : Privy) (s : UI) (a : Click) : option (Js UI unit * Job) :=
  match a with
  | ClickStart =>
      match connected p s with
      | Some c => if bool_decide (questions s = []) then None else Some (startNewGame_start, JStart s c)
      | None => None
      end
  | ClickAnswer i =>
      match connected p s, js_index (gameQuestions (gameState s)) (currentQuestion (gameState s)) with
      | Some c, Some q =>
          if bool_decide (dispatch c "submitAnswer" 1 = inr tt)
          then Some (submitAnswer_start, JAnswer s (bool_decide (i = correctAnswer q)))
          else None
      | _, _ => None
      end
  | _ => None
  end.

Inductive cstep : CWorld -> CWorld -> Prop :=
  | cstep_mount p s f js :
      cstep (mkCWorld p s false f js) (mkCWorld p (run setupAudio s) true true js)
  | cstep_questions p s js env net :
      cstep (mkCWorld p s true true js) (mkCWorld p (run (loadQuestions env net) s) true false js)
  | cstep_ready p s m f js :
      cstep (mkCWorld p s m f js) (mkCWorld (mkPrivy true (authenticated p) (wallets p)) s m f js)
  (** Privy reports a signed-in user with wallets [ws]: the effect starts
      [initializeContract] *)
  | cstep_wallets p s m f js ws :
      ws <> [] ->
      cstep (mkCWorld p s m f js)
            (mkCWorld (mkPrivy (ready p) true ws) (run init_start s) m f (js ++ [JInit s]))
  (** a signed-in user without wallets, or a sign-out: the effect's guard fails *)
  | cstep_no_wallets p s m f js b :
      cstep (mkCWorld p s m f js) (mkCWorld (mkPrivy (ready p) b []) s m f js)
  | cstep_click_wait p s m f js a st j :
      enabled (render p s) a = true -> click_job p s a = Some (st, j) ->
      cstep (mkCWorld p s m f js) (mkCWorld p (run st s) m f (js ++ [j]))
  | cstep_click p s m f js a ch :
      enabled (render p s) a = true -> click_job p s a = None ->
      cstep (mkCWorld p s m f js) (mkCWorld p (run (on_click audio_ctx p s ch a) s) m f js)
  (** any waiting job resumes, with the outcomes [ch] of its awaits *)
  | cstep_resume p s m f js1 j js2 ch :
      cstep (mkCWorld p s m f (js1 ++ j :: js2))
            (mkCWorld p (run (resume_job j ch) s) m f (js1 ++ js2))
  | cstep_fire p s m f js id :
      cstep (mkCWorld p s m f js) (mkCWorld p (run (fire audio_ctx id) s) m f js).

Definition creachable : CWorld -> Prop := rtc cstep initialCWorld.

End Races.

Definition is_start (j : Job) : bool := if j is JStart _ _ then true else false.

(** ** Theorems *)

(** [initializeContract] is its start, then its resumption. *)
Lemma initializeContract_split abi p s ch :
  authenticated p = true -> wallets p <> [] ->
  run (initializeContract abi p s ch) s = run (init_resume abi s ch) (run init_start s).
Proof.
  intros Ha Hw. unfold initializeContract. rewrite Ha, bool_decide_true by done.
  unfold init_resume. by destruct (signer ch).
Qed.

(** "Start" is offered exactly on the main page of a signed-in user, not
    loading, with a contract and no game. *)
Lemma start_enabled p s :
  enabled (render p s) ClickStart = true <->
  ready p = true /\ authenticated p = true /\ loading s = false /\ is_Some (contract s) /\
  game_area (gameState s) = StartView.
Proof.
  unfold enabled, render. split.
  - intros H. repeat (case_match; simplify_eq/=; try discriminate).
    all: rewrite ?negb_false_iff in *; rewrite ?H5; repeat split; eauto.
  - intros (-> & -> & -> & [c ->] & ->). cbn. by destruct (audioLoaded s).
Qed.

(** The resumed [initializeContract], when the chain reports no active
    game, ends with [loading] cleared, whatever its awaits give. It keeps
    the game and the questions, and a contract once there. *)
Lemma init_resume_frame abi snap ch s :
  hasActiveGame ch <> inr true ->
  let s' := run (init_resume abi snap ch) s in
  loading s' = false /\ gameState s' = gameState s /\ questions s' = questions s /\
  (is_Some (contract s) -> is_Some (contract s')).
Proof.
  intros Hha s'. unfold s', init_resume, connect_contract, call, run, try_finally, try_catch,
    mbind, js_bind, mret, js_ret, await_, throw.
  destruct (signer ch), (network ch) as [|n]; cbn; try (by repeat split).
  destruct (n =? 84532); cbn; [| by repeat split].
  destruct (address ch); cbn; [by repeat split; eauto |].
  destruct (dispatch _ _ _); cbn; [by repeat split; eauto |].
  destruct (hasActiveGame ch) as [|[]]; cbn; [by repeat split; eauto | done | by repeat split; eauto].
Qed.

(** C37: the player can start two games at once. Wherever the page
    offers "Start" while a run of [initializeContract] waits (Privy
    reports the wallets a second time, and the effect starts it again),
    the player clicks "Start"; the waiting run resumes, and whatever its
    awaits give, as long as the chain reports no active game, its
    [finally] clears the [loading] of the [startNewGame] still in flight.
    "Start" is offered again, and a second click sends a second
    [startGame]: two runs of [startNewGame] wait at once. *)
Theorem double_start ctx abi p s m f js1 snap js2 ch c :
  enabled (render p s) ClickStart = true -> connected p s = Some c -> questions s <> [] ->
  hasActiveGame ch <> inr true ->
  exists w2 w3,
    rtc (cstep ctx abi) (mkCWorld p s m f (js1 ++ JInit snap :: js2)) w2 /\ cstep ctx abi w2 w3 /\
    loading (cui w2) = false /\ enabled (render p (cui w2)) ClickStart = true /\
    exists c', jobs w3 = js1 ++ js2 ++ [JStart s c; JStart (cui w2) c'].
Proof.
  intros Hen Hc Hqs Hha.
  set (s1 := run startNewGame_start s).
  set (s2 := run (init_resume abi snap ch) s1).
  destruct (proj1 (start_enabled p s) Hen) as (Hr & Ha & Hl & Hct & Hga).
  destruct (init_resume_frame abi snap ch s1 Hha) as (Hl2 & Hgs2 & Hq2 & Hc2).
  fold s2 in Hl2, Hgs2, Hq2, Hc2.
  destruct (Hc2 Hct) as [c' Hc'].
  assert (Hen2 : enabled (render p s2) ClickStart = true).
  { apply start_enabled. rewrite Hgs2, Hc'. by repeat split. }
  assert (Hw : (connected p s) = Some c -> wallets p <> []).
  { unfold connected. destruct (authenticated p), (bool_decide_reflect (wallets p ≠ [])); done. }
  exists (mkCWorld p s2 m f (js1 ++ js2 ++ [JStart s c])),
    (mkCWorld p (run startNewGame_start s2) m f ((js1 ++ js2 ++ [JStart s c]) ++ [JStart s2 c'])).
  split; [| split; [| split; [exact Hl2 | split; [exact Hen2 |]]]].
  - eapply rtc_l.
    { apply (cstep_click_wait ctx abi p s m f _ ClickStart startNewGame_start (JStart s c) Hen).
      cbn. by rewrite Hc, bool_decide_false. }
    rewrite <- app_assoc. cbn [app].
    eapply rtc_l; [apply (cstep_resume ctx abi p s1 m f js1 (JInit snap) (js2 ++ [JStart s c]) ch) |].
    apply rtc_refl.
  - apply (cstep_click_wait ctx abi p s2 m f _ ClickStart startNewGame_start (JStart s2 c') Hen2).
    cbn. unfold connected. rewrite Ha, bool_decide_true by auto. rewrite Hc', Hq2.
    by rewrite bool_decide_false.
  - exists c'. cbn. by rewrite <- !app_assoc.
Qed.

(** The session: Privy signs the player in with one wallet, then reports a
    second, and the first run of [initializeContract] ends. The second
    still waits while the page offers "Start". *)
Lemma double_start_witness :
  exists w, creachable (inr tt) CONTRACT_ABI w /\
    length (filter (fun j => is_start j = true) (jobs w)) = 2%nat.
Proof.
  set (s0 := run (loadQuestions no_env sample_network) (run setupAudio initialUI)).
  set (p := mkPrivy true true ["0xaa"; "0xbb"]).
  set (s1 := run (init_resume CONTRACT_ABI s0 sample_chain) (run init_start (run init_start s0))).
  assert (HW : creachable (inr tt) CONTRACT_ABI (mkCWorld p s1 true false [JInit (run init_start s0)])).
  { unfold creachable, initialCWorld.
    eapply rtc_l; [apply cstep_mount |].
    eapply rtc_l; [apply (cstep_questions _ _ _ _ _ no_env sample_network) |].
    eapply rtc_l; [apply cstep_ready |].
    eapply rtc_l; [apply (cstep_wallets _ _ _ _ _ _ _ ["0xaa"]); discriminate |].
    eapply rtc_l; [apply (cstep_wallets _ _ _ _ _ _ _ ["0xaa"; "0xbb"]); discriminate |].
    eapply rtc_l; [apply (cstep_resume _ _ _ _ _ _ [] _ [_] sample_chain) |].
    apply rtc_refl. }
  destruct (double_start (inr tt) CONTRACT_ABI p s1 true false [] (run init_start s0) [] sample_chain
              (default (getContract "") (contract s1)))
    as (w2 & w3 & Hr2 & Hs3 & _ & _ & c' & Hjobs).
  - vm_compute. reflexivity.
  - vm_compute. reflexivity.
  - vm_compute. discriminate.
  - vm_compute. discriminate.
  - exists w3. split; [| rewrite Hjobs; reflexivity].
    unfold creachable. etrans; [exact HW |]. eapply rtc_r; [exact Hr2 | exact Hs3].
Defined.

(** A resumed [startNewGame] that starts a game with the sound on in the
    render of its click: the first note plays and the next is pending
    under a fresh id, held in [musicIntervalRef]. *)
Lemma startNewGame_resume_music s snap c ch :
  musicEnabled snap = true ->
  is_ok (address ch) = true -> dispatch c "hasActiveGame" 1 = inr tt ->
  hasActiveGame ch = inr false -> dispatch c "startGame" 1 = inr tt -> startGame_tx ch = inr tt ->
  length (omap (fun id => id ≫= find_question (questions snap))
               (selectRandomQuestions (random ch) 30 10)) = 10%nat ->
  let s' := run (startNewGame_resume (inr tt) snap c ch) s in
  tones s' = tones s ++ [note_tone 0] /\
  timers s' = timers s ++ [mkTimer (next_timer s) 800 (TPlayNextNote true 1)] /\
  next_timer s' = S (next_timer s) /\ musicIntervalRef s' = Some (next_timer s).
Proof.
  intros Hme Haddr Hd1 Hha Hd2 Htx Hlen s'.
  revert Hlen. unfold s', startNewGame_resume, start_game.
  generalize (selectRandomQuestions (random ch) 30 10) as ids. intros ids Hlen.
  remember (omap (fun id => id ≫= find_question (questions snap)) ids) as gqs eqn:Hgqs.
  clear Hgqs.
  unfold call, gets, run, try_finally, try_catch, mbind, js_bind, mret, js_ret, await_, throw.
  destruct (address ch) as [e|a]; [done |].
  rewrite Hd1, Hha, Hd2, Htx, Hlen, Hme. cbn. by repeat split.
Qed.

(** C31: when two runs of [startNewGame] resume, as [double_start]
    allows, with the sound on in the render of each click, each starts
    its own music loop. The second overwrites [musicIntervalRef], and
    [stopBackgroundMusic] (the sound button, or the end of the game)
    cancels that loop only: the first loop's next note is still pending,
    with [musicEnabled] true in its closure, and no ref holds its id. *)
Theorem two_music_loops s snap1 snap2 c ch :
  musicEnabled snap1 = true -> musicEnabled snap2 = true ->
  is_ok (address ch) = true -> dispatch c "hasActiveGame" 1 = inr tt ->
  hasActiveGame ch = inr false -> dispatch c "startGame" 1 = inr tt -> startGame_tx ch = inr tt ->
  length (omap (fun id => id ≫= find_question (questions snap1))
               (selectRandomQuestions (random ch) 30 10)) = 10%nat ->
  length (omap (fun id => id ≫= find_question (questions snap2))
               (selectRandomQuestions (random ch) 30 10)) = 10%nat ->
  let s2 := run (startNewGame_resume (inr tt) snap2 c ch)
                (run (startNewGame_resume (inr tt) snap1 c ch) s) in
  let s3 := run stopBackgroundMusic s2 in
  tones s2 = tones s ++ [note_tone 0; note_tone 0] /\
  musicIntervalRef s2 = Some (S (next_timer s)) /\
  musicIntervalRef s3 = None /\
  mkTimer (next_timer s) 800 (TPlayNextNote true 1) ∈ timers s3 /\
  mkTimer (S (next_timer s)) 800 (TPlayNextNote true 1) ∉ timers s3.
Proof.
  intros Hme1 Hme2 Haddr Hd1 Hha Hd2 Htx Hlen1 Hlen2. cbv zeta.
  destruct (startNewGame_resume_music s snap1 c ch Hme1 Haddr Hd1 Hha Hd2 Htx Hlen1)
    as (Ht1 & Hq1 & Hn1 & _).
  remember (run (startNewGame_resume (inr tt) snap1 c ch) s) as s1 eqn:Hs1. clear Hs1.
  destruct (startNewGame_resume_music s1 snap2 c ch Hme2 Haddr Hd1 Hha Hd2 Htx Hlen2)
    as (Ht2 & Hq2 & Hn2 & Hr2).
  remember (run (startNewGame_resume (inr tt) snap2 c ch) s1) as s2 eqn:Hs2. clear Hs2.
  rewrite Hn1 in Hq2, Hr2.
  unfold stopBackgroundMusic, gets, mbind, js_bind, run. rewrite Hr2. cbn.
  rewrite Ht2, Ht1, <- app_assoc. split; [done |]. split; [done |]. split; [done |].
  rewrite Hq2, Hq1, <- app_assoc.
  rewrite !list_elem_of_filter, !elem_of_app, !list_elem_of_singleton. cbn.
  split; [split; [lia | right; left; reflexivity] |]. intros [Hne _]. by apply Hne.
Qed.

(** The session of [double_start_witness], with the sound on: a fresh
    screen where both clicks were rendered with the sound on. *)
Lemma two_music_loops_witness :
  let snap := run (setMusicEnabled true) (ui_logged_in CONTRACT_ABI) in
  musicEnabled snap = true /\
  musicIntervalRef (run stopBackgroundMusic
    (run (startNewGame_resume (inr tt) snap (default (getContract "") (contract snap)) sample_chain)
       (run (startNewGame_resume (inr tt) snap (default (getContract "") (contract snap)) sample_chain)
          snap))) = None.
Proof.
  intros snap. split; [vm_compute; reflexivity |].
  destruct (two_music_loops snap snap snap (default (getContract "") (contract snap)) sample_chain)
    as (_ & _ & Hnone & _).
  1-9: vm_compute; reflexivity.
  exact Hnone.
Defined.

(** ** The timer table under interleaving *)

Lemma resume_job_timers_wf ctx abi j ch : preserves timers_wf (resume_job ctx abi j ch).
Proof.
  destruct j; unfold resume_job, init_resume, startNewGame_resume, submitAnswer_resume,
    connect_contract, start_game, answer_outcome; timers_preserve.
Qed.

Lemma click_job_timers_wf p s a st j :
  click_job p s a = Some (st, j) -> preserves timers_wf st.
Proof.
  unfold click_job. intros Hc.
  destruct a; repeat case_match; simplify_eq; unfold startNewGame_start, submitAnswer_start;
    timers_preserve.
Qed.

Lemma cstep_timers_wf ctx abi w w' :
  cstep ctx abi w w' -> timers_wf (cui w) -> timers_wf (cui w').
Proof.
  intros Hstep Hw.
  destruct Hstep as [p s f js | p s js env net | | p s m f js ws _ | | p s m f js a st j _ Hj
                    | p s m f js a ch _ _ | p s m f js1 j js2 ch | p s m f js id];
    cbn in *; try done.
  - assert (H : preserves timers_wf (loadQuestions env net)) by timers_preserve. exact (H s Hw).
  - exact (click_job_timers_wf p s a st j Hj s Hw).
  - exact (on_click_timers_wf ctx p s ch a s Hw).
  - exact (resume_job_timers_wf ctx abi j ch s Hw).
  - assert (H : preserves timers_wf (fire ctx id)) by timers_preserve. exact (H s Hw).
Qed.

(** The timer table stays well formed when the handlers interleave:
    [Timers.reachable_timers_wf] holds of the finer model too. *)
Lemma creachable_timers_wf ctx abi w : creachable ctx abi w -> timers_wf (cui w).
Proof.
  intros Hr. apply (rtc_invariant (cstep ctx abi) (fun w => timers_wf (cui w)) initialCWorld w);
    [apply cstep_timers_wf | split; constructor | exact Hr].
Qed.
